(** * Engine boundary layer of the crime-scene dossier (src/api/engineAdapter.ts)

    A shallow embedding of the sanitizing adapter, the seeded mock engine and
    the in-memory snapshot store, followed by the properties proved of them.

    Conventions of the embedding.
    - A JavaScript string is its sequence of UTF-16 code units, [list N].
    - A JavaScript number that the code only ever uses as an integer (turn,
      seed, array indices, time values in milliseconds) is a [Z]; all the
      arithmetic the code does on them is exact below 2^53.
    - An untyped value (the [unknown] of the sanitizers) is a [JsValue].
    - A call that can throw returns a [Completion].
    - The sanitizers and the engine functions are given on contents, where
      [deepClone] is the identity.  The mock adapter is given a second time
      on a store of objects, with references and copies, and the two are
      shown to agree (section Determinism).
    - What the language leaves to Unicode tables or to the implementation
      (lower-casing beyond ASCII, string-to-number conversion, number
      printing, date formats other than that of [toISOString]) is a
      [JsRuntime]; the sanitizer is stated over any of them. *)

From Stdlib Require Import ZArith NArith Lia Bool List Ascii String.
From stdpp Require Import base tactics option numbers list.

Local Open Scope Z_scope.

(** ** JavaScript strings *)

Abbreviation JsString := (list N).

(** Code units of an ASCII literal. *)
Definition js (s : string) : JsString :=
  (fun a => N_of_ascii a) <$> list_ascii_of_string s.

(** ** Pressure labels *)

Inductive PressureLabel : Set :=
  | low | moderate | elevated | high | critical
  | uncertain | probable | contradictory | stable | fragile.

#[global] Instance PressureLabel_eq_dec : EqDecision PressureLabel.
Proof. solve_decision. Defined.

(** [Array.prototype.indexOf]: position of the first element equal to [x],
    [-1] when there is none. *)
Definition indexOf `{EqDecision A} (x : A) (l : list A) : Z :=
  match list_find (fun y => y = x) l with
  | Some (i, _) => Z.of_nat i
  | None => -1
  end.

Definition scale : list PressureLabel := [low; moderate; elevated; high; critical].

(** [shiftPressure] (engineAdapter.ts, 387-395).  [scale[next]] is read with
    a default, which [shiftPressure_index_in_range] shows is never used. *)
Definition shiftPressure (current : PressureLabel) (delta : Z) : PressureLabel :=
  let index := indexOf current scale in
  if index <? 0 then uncertain
  else
    let next := Z.max 0 (Z.min (Z.of_nat (length scale) - 1) (index + delta)) in
    default uncertain (scale !! Z.to_nat next).

#[global] Instance PressureLabel_inhabited : Inhabited PressureLabel := populate uncertain.

(** ** Completions and errors *)

Inductive JsError : Type :=
  | EngineAdapterError (message : JsString)
  | RangeError (message : JsString)
  | TypeError.

Inductive Completion (A : Type) : Type :=
  | Normal (a : A)
  | Throw (e : JsError).
Arguments Normal {A} a.
Arguments Throw {A} e.

#[global] Instance Completion_ret : MRet Completion := fun A a => Normal a.
#[global] Instance Completion_fmap : FMap Completion := fun A B f c =>
  match c with
  | Normal a => Normal (f a)
  | Throw e => Throw e
  end.
#[global] Instance Completion_bind : MBind Completion := fun A B k c =>
  match c with
  | Normal a => k a
  | Throw e => Throw e
  end.

(** ** Number and string helpers of the runtime *)

(** Decimal digits of a natural number, most significant first; [fuel]
    bounds their count. *)
Fixpoint decimal (fuel : nat) (n : Z) : JsString :=
  match fuel with
  | O => []
  | S fuel' =>
      (if n <? 10 then [] else decimal fuel' (n / 10)) ++ [Z.to_N (48 + n mod 10)]
  end.

(** [String(n)] for an integer [n] (below 10^21 in size, where the language
    prints all the digits). *)
Definition String_ofZ (n : Z) : JsString :=
  if n <? 0 then 45%N :: decimal (S (Z.to_nat (Z.log2 (- n)))) (- n)
  else decimal (S (Z.to_nat (Z.log2 n))) n.

(** [String.prototype.padStart] with a one-unit filler. *)
Definition padStart (s : JsString) (targetLength : nat) (fill : N) : JsString :=
  replicate (targetLength - length s) fill ++ s.

(** [Array.prototype.slice(-n)]: the last [n] elements. *)
Definition slice_last {A} (n : nat) (l : list A) : list A :=
  drop (length l - n) l.

(** ** Data model (engineAdapter.ts, 33-96) *)

Record EvidenceItem : Type := {
  ev_id : JsString;
  ev_label : JsString;
  category : JsString;
  ev_state : JsString;
  ev_summary : JsString;
}.

Record TimelineItem : Type := {
  time : JsString;
  tl_label : JsString;
  details : JsString;
}.

Record InvestigatorSignals : Type := {
  priority : JsString;
  demeanour : JsString;
  recent_shift : JsString;
}.

Record PressureState : Type := {
  public : PressureLabel;
  institutional : PressureLabel;
  personal : PressureLabel;
}.

Record VisibleState : Type := {
  case_id : JsString;
  crime_type : JsString;
  turn : Z;
  status : JsString;
  evidence : list EvidenceItem;
  timeline : list TimelineItem;
  investigator_signals : InvestigatorSignals;
  pressure : PressureState;
}.

Record ActionOption : Type := {
  act_id : JsString;
  act_label : JsString;
  enabled : bool;
  cost : option JsString;
  desc : JsString;
  disabled_reason : option JsString;
}.

Record ActionsResponse : Type := { actions : list ActionOption }.

Record ApplyActionRequest : Type := { action_id : JsString }.

Record ActionResult : Type := {
  success : bool;
  summary : JsString;
}.

Record ApplyActionResponse : Type := {
  visible_state : VisibleState;
  action_result : ActionResult;
}.

#[global] Instance EvidenceItem_eq_dec : EqDecision EvidenceItem.
Proof. solve_decision. Defined.
#[global] Instance TimelineItem_eq_dec : EqDecision TimelineItem.
Proof. solve_decision. Defined.
#[global] Instance InvestigatorSignals_eq_dec : EqDecision InvestigatorSignals.
Proof. solve_decision. Defined.
#[global] Instance PressureState_eq_dec : EqDecision PressureState.
Proof. solve_decision. Defined.
#[global] Instance VisibleState_eq_dec : EqDecision VisibleState.
Proof. solve_decision. Defined.

(** Field assignments on a working copy. *)
Definition set_turn (n : Z) (s : VisibleState) : VisibleState :=
  {| case_id := case_id s; crime_type := crime_type s; turn := n;
     status := status s; evidence := evidence s; timeline := timeline s;
     investigator_signals := investigator_signals s; pressure := pressure s |}.

Definition set_evidence (e : list EvidenceItem) (s : VisibleState) : VisibleState :=
  {| case_id := case_id s; crime_type := crime_type s; turn := turn s;
     status := status s; evidence := e; timeline := timeline s;
     investigator_signals := investigator_signals s; pressure := pressure s |}.

Definition set_timeline (t : list TimelineItem) (s : VisibleState) : VisibleState :=
  {| case_id := case_id s; crime_type := crime_type s; turn := turn s;
     status := status s; evidence := evidence s; timeline := t;
     investigator_signals := investigator_signals s; pressure := pressure s |}.

Definition set_investigator_signals (i : InvestigatorSignals) (s : VisibleState)
  : VisibleState :=
  {| case_id := case_id s; crime_type := crime_type s; turn := turn s;
     status := status s; evidence := evidence s; timeline := timeline s;
     investigator_signals := i; pressure := pressure s |}.

Definition set_pressure (p : PressureState) (s : VisibleState) : VisibleState :=
  {| case_id := case_id s; crime_type := crime_type s; turn := turn s;
     status := status s; evidence := evidence s; timeline := timeline s;
     investigator_signals := investigator_signals s; pressure := p |}.

Definition set_public (l : PressureLabel) (p : PressureState) : PressureState :=
  {| public := l; institutional := institutional p; personal := personal p |}.

Definition set_institutional (l : PressureLabel) (p : PressureState) : PressureState :=
  {| public := public p; institutional := l; personal := personal p |}.

(** ** Untyped values

    What [JSON.parse] can deliver, and [undefined].  The fields of an object
    are listed in an association list; a name is looked up from the front. *)

Inductive JsNumber : Type :=
  | NaN
  | Infinity (negative : bool)
  | Finite (m e : Z).  (* the number m * 2^e *)

#[local] Set Warnings "-register-all".
Inductive JsValue : Type :=
  | JUndefined
  | JNull
  | JBool (b : bool)
  | JNumber (n : JsNumber)
  | JString (s : JsString)
  | JArray (items : list JsValue)
  | JObject (fields : list (JsString * JsValue)).

Fixpoint assoc (name : JsString) (fields : list (JsString * JsValue)) : JsValue :=
  match fields with
  | [] => JUndefined
  | (k, v) :: rest => if decide (k = name) then v else assoc name rest
  end.

(** [payload?.name]: none of the names the sanitizers read is a property of
    a primitive, of an array or of [Object.prototype], so only the own
    fields of an object answer. *)
Definition get (payload : JsValue) (name : string) : JsValue :=
  match payload with
  | JObject fields => assoc (js name) fields
  | _ => JUndefined
  end.

(** [v ?? {}] *)
Definition orEmptyObject (v : JsValue) : JsValue :=
  match v with
  | JUndefined | JNull => JObject []
  | _ => v
  end.

(** [Boolean(v)] *)
Definition ToBoolean (v : JsValue) : bool :=
  match v with
  | JUndefined | JNull => false
  | JBool b => b
  | JNumber NaN => false
  | JNumber (Infinity _) => true
  | JNumber (Finite m _) => negb (m =? 0)
  | JString s => negb (bool_decide (s = []))
  | JArray _ | JObject _ => true
  end.

(** ** The parts of the runtime that the language leaves to tables or to the
    implementation

    [toLowerCase] follows the Unicode case tables; of these only two facts
    are used: on ASCII text it lowers the letters A-Z and nothing else, and
    its result has the length of its argument unless it holds the combining
    dot U+0307 (which the one lengthening mapping, of U+0130, leaves).
    String to number conversion, number printing, and the parsing of date
    strings that are not in the format of [toISOString] are taken as they
    come. *)

Definition ascii_lower (c : N) : N :=
  if (65 <=? c)%N && (c <=? 90)%N then (c + 32)%N else c.

Definition is_ascii (c : N) : Prop := (c < 128)%N.

Class JsRuntime : Type := {
  toLowerCase : JsString -> JsString;
  StringToNumber : JsString -> JsNumber;
  NumberToString : JsNumber -> JsString;
  Date_parse_other : JsString -> option Z;
  toLowerCase_ascii :
    forall s : JsString, Forall is_ascii s -> toLowerCase s = ascii_lower <$> s;
  toLowerCase_length :
    forall s : JsString, 0x307%N ∉ toLowerCase s ->
                         length (toLowerCase s) = length s;
}.

(** ** Character classes and string primitives *)

Definition in_range (lo hi c : N) : bool := ((lo <=? c) && (c <=? hi))%N.

(** White space and line terminators: what [trim] strips and [\s] matches. *)
Definition isWhiteSpace (c : N) : bool :=
  in_range 9 13 c || (c =? 32)%N || (c =? 160)%N || (c =? 0x1680)%N
  || in_range 0x2000 0x200A c || (c =? 0x2028)%N || (c =? 0x2029)%N
  || (c =? 0x202F)%N || (c =? 0x205F)%N || (c =? 0x3000)%N || (c =? 0xFEFF)%N.

(** [\d] and [\w]. *)
Definition isDigit (c : N) : bool := in_range 48 57 c.
Definition isWordChar (c : N) : bool :=
  in_range 97 122 c || in_range 65 90 c || isDigit c || (c =? 95)%N.

Fixpoint dropWhile {A} (p : A -> bool) (l : list A) : list A :=
  match l with
  | [] => []
  | x :: l' => if p x then dropWhile p l' else l
  end.

(** [String.prototype.trim] *)
Definition trim (s : JsString) : JsString :=
  reverse (dropWhile isWhiteSpace (reverse (dropWhile isWhiteSpace s))).

(** [s.replace(/\s+/g, rep)]: every maximal run of white space becomes [rep].
    [inRun] tells that the unit before belongs to the current run. *)
Fixpoint replaceRuns (rep : JsString) (inRun : bool) (s : JsString) : JsString :=
  match s with
  | [] => []
  | c :: s' =>
      if isWhiteSpace c
      then (if inRun then replaceRuns rep true s' else rep ++ replaceRuns rep true s')
      else c :: replaceRuns rep false s'
  end.

Definition replaceWhiteSpace (rep : JsString) (s : JsString) : JsString :=
  replaceRuns rep false s.

Fixpoint startsWith (needle hay : JsString) : bool :=
  match needle, hay with
  | [], _ => true
  | _ :: _, [] => false
  | a :: needle', b :: hay' => (a =? b)%N && startsWith needle' hay'
  end.

(** [String.prototype.includes] *)
Fixpoint includes (hay needle : JsString) : bool :=
  startsWith needle hay ||
  match hay with
  | [] => false
  | _ :: hay' => includes hay' needle
  end.

(** ** Regular expressions

    The fragment of the pattern language that [RESTRICTED_TEXT_PATTERN]
    uses, with the backtracking matcher of the language definition: a
    matcher takes the unit before the current position, the rest of the
    input and a continuation. *)

Inductive Regex : Type :=
  | RClass (p : N -> bool)
  | RSeq (a b : Regex)
  | RAlt (a b : Regex)
  | ROpt (a : Regex)
  | RPlus (p : N -> bool)
  | RWordBoundary.

Definition Continuation : Type := option N -> JsString -> bool.

Definition isWordAt (c : option N) : bool :=
  match c with
  | Some x => isWordChar x
  | None => false
  end.

(** Greedy [p+]: take one more unit, else hand over to the continuation. *)
Fixpoint plusLoop (p : N -> bool) (s : JsString) (k : Continuation) : bool :=
  match s with
  | [] => false
  | c :: s' => p c && (plusLoop p s' k || k (Some c) s')
  end.

Fixpoint matchRegex (r : Regex) (prev : option N) (s : JsString) (k : Continuation)
  : bool :=
  match r with
  | RClass p =>
      match s with
      | [] => false
      | c :: s' => p c && k (Some c) s'
      end
  | RSeq a b => matchRegex a prev s (fun prev' s' => matchRegex b prev' s' k)
  | RAlt a b => matchRegex a prev s k || matchRegex b prev s k
  | ROpt a => matchRegex a prev s k || k prev s
  | RPlus p => plusLoop p s k
  | RWordBoundary => xorb (isWordAt prev) (isWordAt (head s)) && k prev s
  end.

(** [RegExp.prototype.test] of a pattern without the global or sticky flag:
    is there a match starting anywhere. *)
Fixpoint testFrom (r : Regex) (prev : option N) (s : JsString) : bool :=
  matchRegex r prev s (fun _ _ => true) ||
  match s with
  | [] => false
  | c :: s' => testFrom r (Some c) s'
  end.

Definition test (r : Regex) (s : JsString) : bool := testFrom r None s.

(** A literal unit under the [i] flag: the pattern letters are ASCII, and an
    ASCII letter is matched by its two cases only. *)
Definition RUnitI (c : N) : Regex :=
  RClass (fun x => (x <? 128)%N && (ascii_lower x =? ascii_lower c)%N).

Definition RUnit (c : N) : Regex := RClass (fun x => (x =? c)%N).

Fixpoint RWordI (w : JsString) : Regex :=
  match w with
  | [] => ROpt (RClass (fun _ => false))
  | [c] => RUnitI c
  | c :: w' => RSeq (RUnitI c) (RWordI w')
  end.

Fixpoint RAlts (rs : list Regex) : Regex :=
  match rs with
  | [] => RClass (fun _ => false)
  | [r] => r
  | r :: rs' => RAlt r (RAlts rs')
  end.

Definition restricted_tokens : list JsString :=
  [js "seed"; js "rng"; js "debug"; js "hypothesis"; js "belief"; js "suspicion";
   js "credibility"; js "confidence"; js "likelihood"; js "probability"].

(** [/\b(seed|rng|...|probability)\b|\d+(\.\d+)?%/i] *)
Definition RESTRICTED_TEXT_PATTERN : Regex :=
  RAlt
    (RSeq RWordBoundary (RSeq (RAlts (RWordI <$> restricted_tokens)) RWordBoundary))
    (RSeq (RPlus isDigit)
       (RSeq (ROpt (RSeq (RUnit 46) (RPlus isDigit))) (RUnit 37))).

(** What the pattern language says a pattern matches: [Matches r prev s
    prev' s'] when [r] can consume a prefix of [s], preceded by [prev], and
    leave [s'], preceded by [prev']. *)
Fixpoint Matches (r : Regex) (prev : option N) (s : JsString)
    (prev' : option N) (s' : JsString) : Prop :=
  match r with
  | RClass p => exists c, s = c :: s' /\ p c = true /\ prev' = Some c
  | RSeq a b => exists p1 s1, Matches a prev s p1 s1 /\ Matches b p1 s1 prev' s'
  | RAlt a b => Matches a prev s prev' s' \/ Matches b prev s prev' s'
  | ROpt a => Matches a prev s prev' s' \/ (prev' = prev /\ s' = s)
  | RPlus p =>
      exists c ds, s = c :: ds ++ s' /\ Forall (fun x => p x = true) (c :: ds)
                   /\ prev' = last (c :: ds)
  | RWordBoundary =>
      xorb (isWordAt prev) (isWordAt (head s)) = true /\ prev' = prev /\ s' = s
  end.

(** The unit before a position: the last of what was skipped, or what came
    before that. *)
Definition before (prev : option N) (skipped : JsString) : option N :=
  match last skipped with
  | Some c => Some c
  | None => prev
  end.

Definition lower_letter (c : N) : Prop := (97 <= c <= 122)%N.

(** The restricted content of the redaction rule, in words: one of the ten
    tokens in any mix of cases, not touching a word character on either side;
    or digits, possibly a point and more digits, then a per cent sign. *)
Definition holds_token (text : JsString) : Prop :=
  exists pre w post token,
    text = pre ++ w ++ post
    /\ token ∈ restricted_tokens
    /\ ascii_lower <$> w = token
    /\ isWordAt (last pre) = false
    /\ isWordAt (head post) = false.

Definition all_digits (ds : JsString) : Prop :=
  ds <> [] /\ Forall (fun c => (48 <= c <= 57)%N) ds.

Definition holds_percentage (text : JsString) : Prop :=
  exists pre whole frac post,
    text = pre ++ whole ++ frac ++ 37%N :: post
    /\ all_digits whole
    /\ (frac = [] \/ exists ds, frac = 46%N :: ds /\ all_digits ds).

Definition restricted_text (text : JsString) : Prop :=
  holds_token text \/ holds_percentage text.

(** ** Dates (ECMAScript 21.4.1), time values in milliseconds since the epoch *)

Module JsDate.

Definition msPerDay : Z := 86400000.
Definition maxTime : Z := 8640000000000000.

(** Day number of a date of the proleptic Gregorian calendar; [m] in 1..12. *)
Definition daysFromCivil (y m d : Z) : Z :=
  let y' := if m <=? 2 then y - 1 else y in
  let era := y' / 400 in
  let yoe := y' - era * 400 in
  let mp := if m >? 2 then m - 3 else m + 9 in
  let doy := (153 * mp + 2) / 5 + d - 1 in
  let doe := yoe * 365 + yoe / 4 - yoe / 100 + doy in
  era * 146097 + doe - 719468.

(** Year, month (1..12) and day of month of a day number. *)
Definition civilFromDays (z : Z) : Z * Z * Z :=
  let z' := z + 719468 in
  let era := z' / 146097 in
  let doe := z' - era * 146097 in
  let yoe := (doe - doe / 1460 + doe / 36524 - doe / 146096) / 365 in
  let doy := doe - (365 * yoe + yoe / 4 - yoe / 100) in
  let mp := (5 * doy + 2) / 153 in
  let d := doy - (153 * mp + 2) / 5 + 1 in
  let m := if mp <? 10 then mp + 3 else mp - 9 in
  let y := yoe + era * 400 in
  (if m <=? 2 then y + 1 else y, m, d).

Definition MakeTime (hour min sec ms : Z) : Z :=
  hour * 3600000 + min * 60000 + sec * 1000 + ms.

(** [MakeDay]: [month] is zero-based and may overflow into the year. *)
Definition MakeDay (year month date : Z) : Z :=
  let ym := year + month / 12 in
  let mn := month mod 12 in
  daysFromCivil ym (mn + 1) 1 + date - 1.

Definition MakeDate (day time : Z) : Z := day * msPerDay + time.

Definition MakeFullYear (year : Z) : Z :=
  if (0 <=? year) && (year <=? 99) then 1900 + year else year.

(** [TimeClip]: [None] is the NaN time value of an invalid date. *)
Definition TimeClip (t : Z) : option Z :=
  if Z.abs t <=? maxTime then Some t else None.

(** [Date.UTC(year, month, date, hours, minutes, seconds)]. *)
Definition UTC (year month date hours minutes seconds : Z) : option Z :=
  TimeClip (MakeDate (MakeDay (MakeFullYear year) month date)
                     (MakeTime hours minutes seconds 0)).

Definition digits (width : nat) (n : Z) : JsString :=
  padStart (String_ofZ n) width 48%N.

Definition isoYear (y : Z) : JsString :=
  if (0 <=? y) && (y <=? 9999) then digits 4 y
  else (if y <? 0 then js "-" else js "+") ++ digits 6 (Z.abs y).

(** The text [Date.prototype.toISOString] prints for a valid time value. *)
Definition isoFormat (t : Z) : JsString :=
  let '(y, m, d) := civilFromDays (t / msPerDay) in
  let tod := t mod msPerDay in
  isoYear y ++ js "-" ++ digits 2 m ++ js "-" ++ digits 2 d ++ js "T"
    ++ digits 2 (tod / 3600000) ++ js ":" ++ digits 2 (tod / 60000 mod 60)
    ++ js ":" ++ digits 2 (tod / 1000 mod 60) ++ js "." ++ digits 3 (tod mod 1000)
    ++ js "Z".

(** Value of a run of decimal digits; [None] if some unit is not a digit. *)
Definition digitsValue (l : JsString) : option Z :=
  foldl (fun acc c =>
           n ← acc;
           if isDigit c then Some (10 * n + Z.of_N (c - 48)) else None)
        (Some 0) l.

(** The fields of a text of the shape [YYYY-MM-DDTHH:mm:ss.sssZ] (the year
    may also be a sign and six digits), combined into a time value. *)
Definition readIsoFields (s : JsString) : option Z :=
  let '(sign, yearWidth, s1) :=
    match s with
    | c :: s' =>
        if (c =? 43)%N then (1, 6%nat, s')
        else if (c =? 45)%N then (-1, 6%nat, s')
        else (1, 4%nat, s)
    | [] => (1, 4%nat, s)
    end in
  let field (from len : nat) := digitsValue (take len (drop from s1)) in
  let unit_at (i : nat) (c : N) := bool_decide (s1 !! i = Some c) in
  let w := yearWidth in
  if bool_decide (length s1 = (w + 20)%nat)
     && unit_at w 45%N && unit_at (w + 3)%nat 45%N && unit_at (w + 6)%nat 84%N
     && unit_at (w + 9)%nat 58%N && unit_at (w + 12)%nat 58%N
     && unit_at (w + 15)%nat 46%N && unit_at (w + 19)%nat 90%N
  then
    y ← field 0%nat w;
    mo ← field (w + 1)%nat 2%nat;
    d ← field (w + 4)%nat 2%nat;
    hh ← field (w + 7)%nat 2%nat;
    mi ← field (w + 10)%nat 2%nat;
    ss ← field (w + 13)%nat 2%nat;
    ms ← field (w + 16)%nat 3%nat;
    Some (MakeDate (daysFromCivil (sign * y) mo d) (MakeTime hh mi ss ms))
  else None.

(** The time value of a text that [toISOString] can have printed. *)
Definition parseIso (s : JsString) : option Z :=
  t ← readIsoFields s;
  if bool_decide (isoFormat t = s) && (Z.abs t <=? maxTime) then Some t else None.

(** [new Date(text).getTime()]; [None] is NaN.  Every implementation reads
    back what [toISOString] prints; the reading of any other text is the
    implementation's. *)
Definition parse (other : JsString -> option Z) (text : JsString) : option Z :=
  match parseIso text with
  | Some t => Some t
  | None => t ← other text; TimeClip t
  end.

(** [new Date(tv).toISOString()]: a RangeError on an invalid date. *)
Definition toISOString (tv : option Z) : Completion JsString :=
  match tv with
  | Some t => Normal (isoFormat t)
  | None => Throw (RangeError (js "Invalid time value"))
  end.

End JsDate.

(** ** Seeded generator (engineAdapter.ts, 373-385) *)

Definition ToUint32 (x : Z) : Z := x mod 4294967296.

Definition ToInt32 (x : Z) : Z :=
  let u := x mod 4294967296 in
  if u >=? 2147483648 then u - 4294967296 else u.

(** [Math.imul], [a ^ b], [a | b] and [a >>> k] on numbers holding integers. *)
Definition imul (a b : Z) : Z := ToInt32 (ToUint32 a * ToUint32 b).
Definition xor32 (a b : Z) : Z := Z.lxor (ToInt32 a) (ToInt32 b).
Definition or32 (a b : Z) : Z := Z.lor (ToInt32 a) (ToInt32 b).
Definition ushr (a k : Z) : Z := Z.shiftr (ToUint32 a) k.

(** A computation that draws from the generator: the closure variable
    [value] of [createMulberry32] is threaded through. *)
Definition Rng (A : Type) : Type := Z -> A * Z.

#[global] Instance Rng_ret : MRet Rng := fun A a value => (a, value).
#[global] Instance Rng_bind : MBind Rng := fun A B k c value =>
  let '(a, value') := c value in k a value'.

(** Initial [value] of [createMulberry32(seed)]. *)
Definition createMulberry32 (seed : Z) : Z := ToUint32 seed.

(** One call of the closure [createMulberry32] returns.  The result [u]
    stands for the number [u / 4294967296]; [u] is below 2^32, so that
    quotient, its products with the small array lengths used here and their
    floors are exact in double precision. *)
Definition rng : Rng Z := fun value =>
  let value := value + 0x6d2b79f5 in
  let temp := imul (xor32 value (ushr value 15)) (or32 value 1) in
  let temp := xor32 temp (temp + imul (xor32 temp (ushr temp 7)) (or32 temp 61)) in
  (ToUint32 (xor32 temp (ushr temp 14)), value).

(** [Math.floor(rng() * n)]. *)
Definition rng_floor_times (n : Z) : Rng Z :=
  u ← rng; mret (u * n / 4294967296).

(** [rng() > 0.5]. *)
Definition rng_gt_half : Rng bool :=
  u ← rng; mret (2147483648 <? u).

Definition pickFrom `{Inhabited A} (items : list A) : Rng A :=
  i ← rng_floor_times (Z.of_nat (length items)); mret (items !!! Z.to_nat i).

(** ** Mock engine (engineAdapter.ts, 397-653) *)

Definition createInitialMockState (seed : Z) : VisibleState :=
  fst (((
    crimeType ← pickFrom [js "murder"; js "fraud"; js "arson"; js "kidnapping"];
    let caseId := js "case_" ++ padStart (String_ofZ (Z.rem seed 900 + 100)) 3 48%N in
    e2 ← rng_gt_half;
    e4 ← rng_gt_half;
    let evidence := [
      {| ev_id := js "e1"; ev_label := js "CCTV Clip"; category := js "digital";
         ev_state := js "surfaced";
         ev_summary := js "Partial frame captured; vehicle profile remains uncertain." |};
      {| ev_id := js "e2"; ev_label := js "Station Ledger"; category := js "document";
         ev_state := if (e2 : bool) then js "surfaced" else js "logged";
         ev_summary := js "Entry sequence has one contradictory time-stamp." |};
      {| ev_id := js "e3"; ev_label := js "Lab Swab"; category := js "forensic";
         ev_state := js "review";
         ev_summary := js "Residue profile linked to probable transfer contact." |};
      {| ev_id := js "e4"; ev_label := js "Witness Call"; category := js "witness";
         ev_state := if (e4 : bool) then js "logged" else js "review";
         ev_summary := js "Caller timeline is probable but partially contradictory." |} ] in
    let timeline := [
      {| time := js "2026-02-01T20:40:00.000Z"; tl_label := js "incident";
         details := js "Incident logged by control room." |};
      {| time := js "2026-02-01T21:15:00.000Z"; tl_label := js "first_response";
         details := js "Initial perimeter established." |};
      {| time := js "2026-02-01T22:00:00.000Z"; tl_label := js "evidence_intake";
         details := js "Initial digital and physical evidence intake completed." |} ] in
    t ← rng_floor_times 3;
    priority ← pickFrom [js "forensics"; js "interviews"; js "financial";
                          js "surveillance"];
    demeanour ← pickFrom [js "controlled"; js "impatient"; js "guarded";
                           js "methodical"];
    recent_shift ← pickFrom [js "attention_narrowing"; js "scope_balancing";
                              js "risk_avoidance"];
    public ← pickFrom [low; moderate; elevated];
    institutional ← pickFrom [low; moderate];
    personal ← pickFrom [moderate; elevated];
    mret {| case_id := caseId; crime_type := crimeType; turn := 1 + t;
            status := js "active"; evidence := evidence; timeline := timeline;
            investigator_signals :=
              {| priority := priority; demeanour := demeanour;
                 recent_shift := recent_shift |};
            pressure := {| public := public; institutional := institutional;
                           personal := personal |} |}
  ) : Rng VisibleState) (createMulberry32 seed)).


Definition buildMockActions (state : VisibleState) : ActionsResponse :=
  let surfacedCount :=
    length (filter (fun item => ev_state item = js "surfaced") (evidence state)) in
  let hasSuppressed :=
    bool_decide (Exists (fun item => ev_state item = js "suppressed") (evidence state)) in
  let canDelay := bool_decide (public (pressure state) <> critical) in
  {| actions := [
       {| act_id := js "remove_evidence"; act_label := js "Remove Evidence";
          enabled := bool_decide (0 < surfacedCount)%nat;
          cost := Some (163%N :: js "200");
          desc := js "Move one surfaced item into restricted review.";
          disabled_reason :=
            if bool_decide (0 < surfacedCount)%nat then None
            else Some (js "No surfaced evidence is available to remove.") |};
       {| act_id := js "delay_briefing"; act_label := js "Delay Briefing";
          enabled := canDelay;
          cost := Some (163%N :: js "0");
          desc := js "Delay the official briefing by one turn.";
          disabled_reason :=
            if canDelay then None
            else Some (js "Public pressure is too high to delay briefing.") |};
       {| act_id := js "reframe_priority"; act_label := js "Reframe Priority";
          enabled := true;
          cost := Some (163%N :: js "0");
          desc := js "Cycle investigator focus to the next discipline.";
          disabled_reason := None |};
       {| act_id := js "seal_archive"; act_label := js "Seal Archive";
          enabled := hasSuppressed;
          cost := Some (163%N :: js "120");
          desc := js "Seal one suppressed record into archive storage.";
          disabled_reason :=
            if hasSuppressed then None
            else Some (js "At least one suppressed item is needed before sealing archive.")
       |} ] |}.

Definition appendTimeline (state : VisibleState) (label details : JsString)
  : Completion (list TimelineItem) :=
  eventTime ← JsDate.toISOString (JsDate.UTC 2026 1 1 (20 + turn state) 10 0);
  mret (slice_last 12
          (timeline state ++
             [ {| time := eventTime; tl_label := label; details := details |} ])).

(** [findIndex] on the evidence list, by discovery state. *)
Definition findIndex_state (st : JsString) (l : list EvidenceItem)
  : option (nat * EvidenceItem) :=
  list_find (fun item => ev_state item = st) l.

Definition priorities : list JsString :=
  [js "forensics"; js "interviews"; js "financial"; js "surveillance"].

Definition applyMockAction (state : VisibleState) (actionId : JsString)
  : Completion ApplyActionResponse :=
  let next := state in
  if decide (actionId = js "remove_evidence") then
    match findIndex_state (js "surfaced") (evidence next) with
    | None =>
        mret {| visible_state := next;
                action_result :=
                  {| success := false;
                     summary := js "No surfaced evidence could be moved." |} |}
    | Some (targetIndex, target) =>
        let next := set_turn (turn next + 1) next in
        let next :=
          set_evidence
            (<[targetIndex :=
                 {| ev_id := ev_id target; ev_label := ev_label target;
                    category := category target;
                    ev_state := js "suppressed";
                    ev_summary := js "Access restricted pending compliance review." |}]>
               (evidence next)) next in
        let next :=
          set_pressure
            (set_public (shiftPressure (public (pressure next)) 1) (pressure next))
            next in
        tl ← appendTimeline next (js "evidence_removed")
               (js "One surfaced evidence item moved into restricted review.");
        let next := set_timeline tl next in
        mret {| visible_state := next;
                action_result :=
                  {| success := true;
                     summary :=
                       js "Evidence moved to restricted review for this cycle." |} |}
    end
  else if decide (actionId = js "delay_briefing") then
    if decide (public (pressure next) = critical) then
      mret {| visible_state := next;
              action_result :=
                {| success := false;
                   summary :=
                     js "Briefing delay rejected under critical public pressure." |} |}
    else
      let next := set_turn (turn next + 1) next in
      let next :=
        set_pressure
          (set_public (shiftPressure (public (pressure next)) (-1)) (pressure next))
          next in
      let next :=
        set_pressure
          (set_institutional (shiftPressure (institutional (pressure next)) 1)
             (pressure next))
          next in
      tl ← appendTimeline next (js "briefing_delayed")
             (js "Official briefing pushed by one operational cycle.");
      let next := set_timeline tl next in
      mret {| visible_state := next;
              action_result :=
                {| success := true;
                   summary :=
                     js "Briefing delayed; institutional pressure increased." |} |}
  else if decide (actionId = js "reframe_priority") then
    let currentIndex := indexOf (priority (investigator_signals next)) priorities in
    let nextIndex :=
      if currentIndex <? 0 then 0
      else (currentIndex + 1) mod Z.of_nat (length priorities) in
    let chosen := priorities !!! Z.to_nat nextIndex in
    let next := set_turn (turn next + 1) next in
    let next :=
      set_investigator_signals
        {| priority := chosen;
           demeanour := demeanour (investigator_signals next);
           recent_shift := js "attention_realignment" |} next in
    tl ← appendTimeline next (js "priority_reframed")
           (js "Investigator priority shifted to " ++ chosen ++ js ".");
    let next := set_timeline tl next in
    mret {| visible_state := next;
            action_result :=
              {| success := true;
                 summary := js "Priority shifted to " ++ chosen ++ js "." |} |}
  else if decide (actionId = js "seal_archive") then
    match findIndex_state (js "suppressed") (evidence next) with
    | None =>
        mret {| visible_state := next;
                action_result :=
                  {| success := false;
                     summary :=
                       js "No suppressed item available for archive sealing." |} |}
    | Some (targetIndex, target) =>
        let next := set_turn (turn next + 1) next in
        let next :=
          set_evidence
            (<[targetIndex :=
                 {| ev_id := ev_id target; ev_label := ev_label target;
                    category := category target;
                    ev_state := js "archived";
                    ev_summary := js "Record sealed in archive." |}]>
               (evidence next)) next in
        let next :=
          set_pressure
            (set_institutional (shiftPressure (institutional (pressure next)) (-1))
               (pressure next))
            next in
        tl ← appendTimeline next (js "archive_sealed")
               (js "Suppressed record sealed in archive storage.");
        let next := set_timeline tl next in
        mret {| visible_state := next;
                action_result :=
                  {| success := true;
                     summary :=
                       js "Archive seal completed for one restricted record." |} |}
    end
  else
    mret {| visible_state := next;
            action_result :=
              {| success := false;
                 summary := js "Action not recognized by mock adapter." |} |}.

(** ** Snapshot slots: a [Map] keeps its keys in insertion order *)

Abbreviation SlotMap := (list (JsString * VisibleState)).

Fixpoint slots_set {V} (slotId : JsString) (v : V) (m : list (JsString * V))
  : list (JsString * V) :=
  match m with
  | [] => [(slotId, v)]
  | (k, w) :: m' =>
      if decide (k = slotId) then (k, v) :: m' else (k, w) :: slots_set slotId v m'
  end.

Fixpoint slots_get {V} (slotId : JsString) (m : list (JsString * V)) : option V :=
  match m with
  | [] => None
  | (k, w) :: m' => if decide (k = slotId) then Some w else slots_get slotId m'
  end.

Definition slots_keys {V} (m : list (JsString * V)) : list JsString := fst <$> m.

(** [Array.from(new Set(l))]: first occurrences, in order. *)
Definition array_from_set (l : list JsString) : list JsString :=
  foldl (fun acc x => if decide (x ∈ acc) then acc else acc ++ [x]) [] l.

Definition DEFAULT_SLOTS : list JsString := [js "page-a"; js "page-b"; js "page-c"].

Definition unknown_slot_message (slotId : JsString) : JsString :=
  js "No saved data for " ++ [34%N] ++ slotId ++ [34%N] ++ js ". Save a page first.".

(** ** Mock adapter (engineAdapter.ts, 655-684)

    The closure variables [state] and [slots] of one adapter instance; every
    method returns its completion and the instance after the call. *)

Record MockAdapter : Type := {
  mock_state : VisibleState;
  mock_slots : SlotMap;
}.

Definition createMockAdapter (seed : Z) : MockAdapter :=
  {| mock_state := createInitialMockState seed; mock_slots := [] |}.

Module Mock.

Definition getVisibleState (a : MockAdapter) : Completion VisibleState * MockAdapter :=
  (Normal (mock_state a), a).

Definition getActions (a : MockAdapter) : Completion ActionsResponse * MockAdapter :=
  (Normal (buildMockActions (mock_state a)), a).

Definition applyAction (request : ApplyActionRequest) (a : MockAdapter)
  : Completion ApplyActionResponse * MockAdapter :=
  match applyMockAction (mock_state a) (action_id request) with
  | Normal response =>
      (Normal response,
       {| mock_state := visible_state response; mock_slots := mock_slots a |})
  | Throw e => (Throw e, a)
  end.

Definition saveSlot (slotId : JsString) (a : MockAdapter)
  : Completion unit * MockAdapter :=
  (Normal tt,
   {| mock_state := mock_state a;
      mock_slots := slots_set slotId (mock_state a) (mock_slots a) |}).

Definition loadSlot (slotId : JsString) (a : MockAdapter)
  : Completion VisibleState * MockAdapter :=
  match slots_get slotId (mock_slots a) with
  | None => (Throw (EngineAdapterError (unknown_slot_message slotId)), a)
  | Some snapshot =>
      (Normal snapshot, {| mock_state := snapshot; mock_slots := mock_slots a |})
  end.

Definition listSlots (a : MockAdapter) : Completion (list JsString) * MockAdapter :=
  (Normal (array_from_set (DEFAULT_SLOTS ++ slots_keys (mock_slots a))), a).

End Mock.



(** A runtime to compute with.  It agrees with the language on Basic Latin
    and Latin-1 text, reads the decimal integer literals among the numeric
    strings, prints integers, and reads no date format of its own. *)

Definition latin1_lower (c : N) : N :=
  if in_range 65 90 c || (in_range 192 222 c && negb (c =? 215)%N)
  then (c + 32)%N else c.

Definition decimalLiteral (s : JsString) : JsNumber :=
  match s with
  | [] => Finite 0 0
  | _ => match JsDate.digitsValue s with
         | Some n => Finite n 0
         | None => NaN
         end
  end.

Definition printNumber (n : JsNumber) : JsString :=
  match n with
  | NaN => js "NaN"
  | Infinity negative => if negative then js "-Infinity" else js "Infinity"
  | Finite m e => String_ofZ (Z.shiftl m e)
  end.

#[global, refine] Instance BasicRuntime : JsRuntime := {|
  toLowerCase s := latin1_lower <$> s;
  StringToNumber s := decimalLiteral (trim s);
  NumberToString := printNumber;
  Date_parse_other _ := None;
|}.
Proof.
  - intros s H. apply Forall_fmap_ext_1. eapply Forall_impl; [exact H|].
    intros c Hc. unfold is_ascii in Hc. unfold latin1_lower, ascii_lower, in_range.
    destruct (192 <=? c)%N eqn:E; [apply N.leb_le in E; lia|].
    simpl. by rewrite orb_false_r.
  - intros s _. apply length_fmap.
Defined.

(** ** Sanitizer (engineAdapter.ts, 1-19 and 122-262) *)

Definition PressureLabel_name (l : PressureLabel) : JsString :=
  match l with
  | low => js "low" | moderate => js "moderate" | elevated => js "elevated"
  | high => js "high" | critical => js "critical" | uncertain => js "uncertain"
  | probable => js "probable" | contradictory => js "contradictory"
  | stable => js "stable" | fragile => js "fragile"
  end.

Definition QUALITATIVE_TERMS : list PressureLabel :=
  [low; moderate; elevated; high; critical; uncertain; probable; contradictory;
   stable; fragile].

Definition STATUS_TERMS : list JsString :=
  [js "active"; js "contained"; js "paused"; js "cold"; js "closed"].

Definition EVIDENCE_STATES : list JsString :=
  [js "surfaced"; js "logged"; js "review"; js "suppressed"; js "archived"].

Definition RESTRICTED_MARKER : JsString := js "Restricted in visible state.".

(** The first steps of [clampText] on a string: trim, collapse white space. *)
Definition normalize (value : JsString) : JsString :=
  replaceWhiteSpace (js " ") (trim value).

Definition clampText (value : JsValue) (fallback : JsString) (limit : nat)
    (redactRestricted : bool) : JsString :=
  match value with
  | JString value =>
      let normalized := normalize value in
      if bool_decide (normalized = []) then fallback
      else if redactRestricted && test RESTRICTED_TEXT_PATTERN normalized
      then RESTRICTED_MARKER
      else take limit normalized
  | _ => fallback
  end.

(** [/^[a-z_-]+$/] *)
Definition descriptorShape (s : JsString) : bool :=
  negb (bool_decide (s = []))
  && forallb (fun c => in_range 97 122 c || (c =? 95)%N || (c =? 45)%N) s.

Definition sanitizeDescriptor `{JsRuntime} (value : JsValue) (fallback : JsString)
  : JsString :=
  let candidate :=
    replaceWhiteSpace (js "_") (toLowerCase (clampText value fallback 64 false)) in
  if existsb isDigit candidate then fallback
  else if includes candidate (js "seed")
          || includes candidate (js "rng")
          || includes candidate (js "debug")
          || includes candidate (js "belief")
          || includes candidate (js "hypothesis")
  then fallback
  else if negb (descriptorShape candidate) then fallback
  else candidate.

Definition sanitizeStatus `{JsRuntime} (value : JsValue) : JsString :=
  let status := sanitizeDescriptor value (js "active") in
  if bool_decide (status ∈ STATUS_TERMS) then status else js "active".

Definition sanitizePressure `{JsRuntime} (value : JsValue) : PressureLabel :=
  let pressure := sanitizeDescriptor value (js "uncertain") in
  match list_find (fun l => PressureLabel_name l = pressure) QUALITATIVE_TERMS with
  | Some (_, l) => l
  | None => uncertain
  end.

(** The string a call of [toISOString] returns where the date is known to be
    valid; the default is never used, see [sanitizeIsoTime_valid_dates]. *)
Definition returned (c : Completion JsString) : JsString :=
  match c with
  | Normal s => s
  | Throw _ => []
  end.

Definition sanitizeIsoTime `{JsRuntime} (value : JsValue) : JsString :=
  let text := clampText value [] 48 false in
  if bool_decide (text = [])
  then returned (JsDate.toISOString (JsDate.UTC 2026 1 1 0 0 0))
  else
    let date := JsDate.parse Date_parse_other text in
    match date with
    | None => returned (JsDate.toISOString (JsDate.UTC 2026 1 1 0 0 0))
    | Some _ => returned (JsDate.toISOString date)
    end.

Definition sanitizeEvidence `{JsRuntime} (item : JsValue) (index : nat)
  : EvidenceItem :=
  let payload := item in
  let state := sanitizeDescriptor (get payload "state") (js "logged") in
  {| ev_id := clampText (get payload "id")
                (js "e" ++ String_ofZ (Z.of_nat index + 1)) 32 false;
     ev_label := clampText (get payload "label")
                   (js "Evidence " ++ String_ofZ (Z.of_nat index + 1)) 70 false;
     category := sanitizeDescriptor (get payload "category") (js "general");
     ev_state := if bool_decide (state ∈ EVIDENCE_STATES) then state else js "logged";
     ev_summary := clampText (get payload "summary") (js "No summary available.")
                     220 true |}.

Definition sanitizeTimeline `{JsRuntime} (item : JsValue) (index : nat)
  : TimelineItem :=
  let payload := item in
  {| time := sanitizeIsoTime (get payload "time");
     tl_label := clampText (get payload "label")
                   (js "event_" ++ String_ofZ (Z.of_nat index + 1)) 60 false;
     details := clampText (get payload "details") (js "No details provided.")
                  240 true |}.

(** [Array.isArray(v) ? v : []] *)
Definition arrayOrEmpty (v : JsValue) : list JsValue :=
  match v with
  | JArray items => items
  | _ => []
  end.

(** Whether a parsed object has a field of its own under [name]. *)
Definition hasOwn (fields : list (JsString * JsValue)) (name : string) : bool :=
  bool_decide (js name ∈ fields.*1).

(** [String(v)] as [Number(v)] needs it for an array: the elements joined by
    commas, [null] and [undefined] printing as nothing.  An object prints
    through [Object.prototype.toString], unless a field of its own hides
    that method: a parsed value is never callable, [valueOf] at best returns
    the object itself, and the conversion, left without a primitive, throws
    a TypeError. *)
Fixpoint ToString `{JsRuntime} (v : JsValue) : Completion JsString :=
  match v with
  | JUndefined => Normal (js "undefined")
  | JNull => Normal (js "null")
  | JBool b => Normal (if b then js "true" else js "false")
  | JNumber n => Normal (NumberToString n)
  | JString s => Normal s
  | JArray items =>
      (fix join (l : list JsValue) : Completion JsString :=
         match l with
         | [] => Normal []
         | x :: l' =>
             match (match x with
                    | JUndefined | JNull => Normal []
                    | _ => ToString x
                    end) with
             | Throw e => Throw e
             | Normal first =>
                 match l' with
                 | [] => Normal first
                 | _ :: _ =>
                     match join l' with
                     | Throw e => Throw e
                     | Normal rest => Normal (first ++ js "," ++ rest)
                     end
                 end
             end
         end) items
  | JObject fields =>
      if hasOwn fields "toString" then Throw TypeError
      else Normal (js "[object Object]")
  end.

(** [Number(v)]: an array or an object is first turned into a primitive,
    [valueOf] (never a primitive for them) before [toString]. *)
Definition ToNumber `{JsRuntime} (v : JsValue) : Completion JsNumber :=
  match v with
  | JUndefined => Normal NaN
  | JNull => Normal (Finite 0 0)
  | JBool b => Normal (if b then Finite 1 0 else Finite 0 0)
  | JNumber n => Normal n
  | JString s => Normal (StringToNumber s)
  | JArray _ => StringToNumber <$> ToString v
  | JObject fields => if hasOwn fields "toString" then Throw TypeError else Normal NaN
  end.

(** [Number.isFinite(n) && n >= 0 ? Math.floor(n) : 0]; the floor of
    [m * 2^e] is [m] shifted by [e] places. *)
Definition flooredTurn (rawTurn : JsNumber) : Z :=
  match rawTurn with
  | Finite m e => if 0 <=? m then Z.shiftl m e else 0
  | _ => 0
  end.

Definition sanitizeVisibleState `{JsRuntime} (input : JsValue)
  : Completion VisibleState :=
  let payload := input in
  let evidenceSource := arrayOrEmpty (get payload "evidence") in
  let timelineSource := arrayOrEmpty (get payload "timeline") in
  let signals := orEmptyObject (get payload "investigator_signals") in
  let pressure := orEmptyObject (get payload "pressure") in
  rawTurn ← ToNumber (get payload "turn");
  let turn := flooredTurn rawTurn in
  mret
    {| case_id := clampText (get payload "case_id") (js "case_001") 40 false;
       crime_type := sanitizeDescriptor (get payload "crime_type") (js "unknown");
       turn := turn;
       status := sanitizeStatus (get payload "status");
       evidence := imap (fun index item => sanitizeEvidence item index) evidenceSource;
       timeline := imap (fun index item => sanitizeTimeline item index) timelineSource;
       investigator_signals :=
         {| priority := sanitizeDescriptor (get signals "priority") (js "uncertain");
            demeanour := sanitizeDescriptor (get signals "demeanour") (js "uncertain");
            recent_shift :=
              sanitizeDescriptor (get signals "recent_shift") (js "uncertain") |};
       pressure :=
         {| public := sanitizePressure (get pressure "public");
            institutional := sanitizePressure (get pressure "institutional");
            personal := sanitizePressure (get pressure "personal") |} |}.

Definition sanitizeAction (item : JsValue) (index : nat) : ActionOption :=
  let payload := item in
  let enabled := ToBoolean (get payload "enabled") in
  let disabledReason :=
    if enabled then None
    else Some (clampText (get payload "disabled_reason")
                 (js "Unavailable this turn due to current case conditions.")
                 120 true) in
  {| act_id := clampText (get payload "id")
                 (js "action_" ++ String_ofZ (Z.of_nat index + 1)) 64 false;
     act_label := clampText (get payload "label")
                    (js "Action " ++ String_ofZ (Z.of_nat index + 1)) 80 false;
     enabled := enabled;
     cost := match get payload "cost" with
             | JString _ => Some (clampText (get payload "cost") [] 20 false)
             | _ => None
             end;
     desc := clampText (get payload "desc") (js "No description available.")
               200 true;
     disabled_reason := disabledReason |}.

Definition sanitizeActionsResponse (input : JsValue) : ActionsResponse :=
  let payload := input in
  let actions := arrayOrEmpty (get payload "actions") in
  {| actions := imap (fun index item => sanitizeAction item index) actions |}.

Definition sanitizeActionResult (input : JsValue) : ActionResult :=
  let payload := input in
  {| success := ToBoolean (get payload "success");
     summary := clampText (get payload "summary") (js "Action completed.") 220 true |}.

(** ** Live adapter (engineAdapter.ts, 305-355)

    The closure variables [current] and [slots] of one instance.  A method
    that goes to the network is given the completion of its [fetchJson]
    call: the parsed body, or the EngineAdapterError it was turned into. *)

Record LiveAdapter : Type := {
  live_current : option VisibleState;
  live_slots : SlotMap;
}.

Definition createLiveAdapter (apiBase : JsString) : LiveAdapter :=
  {| live_current := None; live_slots := [] |}.

Module Live.

Definition getVisibleState `{JsRuntime} (fetched : Completion JsValue) (a : LiveAdapter)
  : Completion VisibleState * LiveAdapter :=
  match fetched with
  | Normal payload =>
      match sanitizeVisibleState payload with
      | Normal current =>
          (Normal current,
           {| live_current := Some current; live_slots := live_slots a |})
      | Throw e => (Throw e, a)
      end
  | Throw e => (Throw e, a)
  end.

Definition getActions (fetched : Completion JsValue) (a : LiveAdapter)
  : Completion ActionsResponse * LiveAdapter :=
  match fetched with
  | Normal payload => (Normal (sanitizeActionsResponse payload), a)
  | Throw e => (Throw e, a)
  end.

(** Reading [raw.visible_state] off [null] or [undefined] is a TypeError;
    where the sanitizer throws, [current] has not been assigned yet. *)
Definition applyAction `{JsRuntime} (fetched : Completion JsValue)
    (request : ApplyActionRequest) (a : LiveAdapter)
  : Completion ApplyActionResponse * LiveAdapter :=
  match fetched with
  | Normal JUndefined | Normal JNull => (Throw TypeError, a)
  | Normal raw =>
      match sanitizeVisibleState (get raw "visible_state") with
      | Normal visibleState =>
          let actionResult := sanitizeActionResult (get raw "action_result") in
          (Normal {| visible_state := visibleState; action_result := actionResult |},
           {| live_current := Some visibleState; live_slots := live_slots a |})
      | Throw e => (Throw e, a)
      end
  | Throw e => (Throw e, a)
  end.

Definition saveSlot (slotId : JsString) (a : LiveAdapter)
  : Completion unit * LiveAdapter :=
  match live_current a with
  | None => (Normal tt, a)
  | Some current =>
      (Normal tt,
       {| live_current := live_current a;
          live_slots := slots_set slotId current (live_slots a) |})
  end.

Definition loadSlot (slotId : JsString) (a : LiveAdapter)
  : Completion VisibleState * LiveAdapter :=
  match slots_get slotId (live_slots a) with
  | None => (Throw (EngineAdapterError (unknown_slot_message slotId)), a)
  | Some snapshot =>
      (Normal snapshot,
       {| live_current := Some snapshot; live_slots := live_slots a |})
  end.

Definition listSlots (a : LiveAdapter) : Completion (list JsString) * LiveAdapter :=
  (Normal DEFAULT_SLOTS, a).

End Live.

(** ** Calls on an adapter and their replies *)

Inductive Call : Type :=
  | CallGetVisibleState
  | CallGetActions
  | CallApplyAction (request : ApplyActionRequest)
  | CallSaveSlot (slotId : JsString)
  | CallLoadSlot (slotId : JsString)
  | CallListSlots.

Inductive Reply : Type :=
  | ReplyState (c : Completion VisibleState)
  | ReplyActions (c : Completion ActionsResponse)
  | ReplyApply (c : Completion ApplyActionResponse)
  | ReplyUnit (c : Completion unit)
  | ReplySlots (c : Completion (list JsString)).

Definition perform (c : Call) (a : MockAdapter) : Reply * MockAdapter :=
  match c with
  | CallGetVisibleState => prod_map ReplyState id (Mock.getVisibleState a)
  | CallGetActions => prod_map ReplyActions id (Mock.getActions a)
  | CallApplyAction request => prod_map ReplyApply id (Mock.applyAction request a)
  | CallSaveSlot slotId => prod_map ReplyUnit id (Mock.saveSlot slotId a)
  | CallLoadSlot slotId => prod_map ReplyState id (Mock.loadSlot slotId a)
  | CallListSlots => prod_map ReplySlots id (Mock.listSlots a)
  end.

(** The visible state a reply hands to the caller, if it carries one. *)
Definition visible_of (r : Reply) : option (Completion VisibleState) :=
  match r with
  | ReplyState c => Some c
  | ReplyApply c => Some (visible_state <$> c)
  | _ => None
  end.

Definition visible_states (rs : list Reply) : list (Completion VisibleState) :=
  omap visible_of rs.

(** Replaying an action-id sequence: read the state, then apply each action. *)
Definition replay_calls (A : list JsString) : list Call :=
  CallGetVisibleState :: ((fun a => CallApplyAction {| action_id := a |}) <$> A).

(** One instance on its own. *)
Fixpoint run_single (a : MockAdapter) (cs : list Call) : list Reply :=
  match cs with
  | [] => []
  | c :: rest => let '(r, a') := perform c a in r :: run_single a' rest
  end.

(** Calls on a live instance, each with the outcome of its request. *)
Inductive LiveCall : Type :=
  | LiveGetVisibleState (fetched : Completion JsValue)
  | LiveGetActions (fetched : Completion JsValue)
  | LiveApplyAction (fetched : Completion JsValue) (request : ApplyActionRequest)
  | LiveSaveSlot (slotId : JsString)
  | LiveLoadSlot (slotId : JsString)
  | LiveListSlots.

Definition live_perform `{JsRuntime} (c : LiveCall) (a : LiveAdapter)
  : Reply * LiveAdapter :=
  match c with
  | LiveGetVisibleState fetched => prod_map ReplyState id (Live.getVisibleState fetched a)
  | LiveGetActions fetched => prod_map ReplyActions id (Live.getActions fetched a)
  | LiveApplyAction fetched request =>
      prod_map ReplyApply id (Live.applyAction fetched request a)
  | LiveSaveSlot slotId => prod_map ReplyUnit id (Live.saveSlot slotId a)
  | LiveLoadSlot slotId => prod_map ReplyState id (Live.loadSlot slotId a)
  | LiveListSlots => prod_map ReplySlots id (Live.listSlots a)
  end.

(** The instance after a sequence of calls. *)
Definition after (a : MockAdapter) (cs : list Call) : MockAdapter :=
  foldl (fun a c => (perform c a).2) a cs.

Definition live_after `{JsRuntime} (a : LiveAdapter) (cs : list LiveCall) : LiveAdapter :=
  foldl (fun a c => (live_perform c a).2) a cs.

(** ** Guards of the action catalogue, as the claims word them *)

Definition catalogue : list JsString :=
  [js "remove_evidence"; js "delay_briefing"; js "reframe_priority"; js "seal_archive"].

Definition guard_fails (s : VisibleState) (actionId : JsString) : Prop :=
  (actionId = js "remove_evidence"
   /\ Forall (fun item => ev_state item <> js "surfaced") (evidence s))
  \/ (actionId = js "delay_briefing" /\ public (pressure s) = critical)
  \/ (actionId = js "seal_archive"
      /\ Forall (fun item => ev_state item <> js "suppressed") (evidence s))
  \/ actionId ∉ catalogue.

Definition failure_summary (actionId : JsString) : JsString :=
  if decide (actionId = js "remove_evidence")
  then js "No surfaced evidence could be moved."
  else if decide (actionId = js "delay_briefing")
  then js "Briefing delay rejected under critical public pressure."
  else if decide (actionId = js "seal_archive")
  then js "No suppressed item available for archive sealing."
  else js "Action not recognized by mock adapter.".

(** ** Vocabulary of the claims about the sanitizer *)

(** [needle] occurs in [hay] as a contiguous run. *)
Definition occurs_in (needle hay : JsString) : Prop :=
  exists pre post, hay = pre ++ needle ++ post.

Definition descriptor_tokens : list JsString :=
  [js "seed"; js "rng"; js "debug"; js "belief"; js "hypothesis"].

(** An object whose timeline has thirteen entries. *)
Definition thirteen_events : JsValue :=
  JObject [ (js "timeline", JArray (replicate 13 (JObject []))) ].

(** Sixty-four letters followed by a digit. *)
Definition long_descriptor : JsString := replicate 64 97%N ++ js "1".

(** An enabled action that still carries a reason for being disabled. *)
Definition enabled_action : JsValue :=
  JObject [ (js "id", JString (js "delay_briefing"));
            (js "enabled", JBool true);
            (js "disabled_reason", JString (js "seed 42 forces this")) ].

(** ** A second pass of the sanitizer

    The sanitized state as the value it is handed on as. *)

Definition EvidenceItem_toJs (e : EvidenceItem) : JsValue :=
  JObject [ (js "id", JString (ev_id e)); (js "label", JString (ev_label e));
            (js "category", JString (category e));
            (js "state", JString (ev_state e));
            (js "summary", JString (ev_summary e)) ].

Definition TimelineItem_toJs (t : TimelineItem) : JsValue :=
  JObject [ (js "time", JString (time t)); (js "label", JString (tl_label t));
            (js "details", JString (details t)) ].

Definition InvestigatorSignals_toJs (i : InvestigatorSignals) : JsValue :=
  JObject [ (js "priority", JString (priority i));
            (js "demeanour", JString (demeanour i));
            (js "recent_shift", JString (recent_shift i)) ].

Definition PressureState_toJs (p : PressureState) : JsValue :=
  JObject [ (js "public", JString (PressureLabel_name (public p)));
            (js "institutional", JString (PressureLabel_name (institutional p)));
            (js "personal", JString (PressureLabel_name (personal p))) ].

Definition VisibleState_toJs (s : VisibleState) : JsValue :=
  JObject [ (js "case_id", JString (case_id s));
            (js "crime_type", JString (crime_type s));
            (js "turn", JNumber (Finite (turn s) 0));
            (js "status", JString (status s));
            (js "evidence", JArray (EvidenceItem_toJs <$> evidence s));
            (js "timeline", JArray (TimelineItem_toJs <$> timeline s));
            (js "investigator_signals",
             InvestigatorSignals_toJs (investigator_signals s));
            (js "pressure", PressureState_toJs (pressure s)) ].

(** A text is tidy when trimming and collapsing leave it alone: it does not
    start with white space, and each white-space unit in it is a single
    U+0020 with something other than white space after it. *)
Definition startsBlank (s : JsString) : bool :=
  match s with
  | [] => true
  | c :: _ => isWhiteSpace c
  end.

Fixpoint spaced (s : JsString) : bool :=
  match s with
  | [] => true
  | c :: s' =>
      (negb (isWhiteSpace c) || ((c =? 32)%N && negb (startsBlank s'))) && spaced s'
  end.

Definition tidy (s : JsString) : bool :=
  match s with
  | [] => true
  | c :: _ => negb (isWhiteSpace c)
  end && spaced s.

(** A text field that a second pass leaves alone: it does not end in a
    space, and a redaction-checked one holds no restricted content. *)
Definition settled_text (redactRestricted : bool) (t : JsString) : Prop :=
  last t <> Some 32%N
  /\ (redactRestricted = true -> ~ restricted_text t).

Definition settled (o : VisibleState) : Prop :=
  settled_text false (case_id o)
  /\ Forall (fun e => settled_text false (ev_id e) /\ settled_text false (ev_label e)
                      /\ settled_text true (ev_summary e)) (evidence o)
  /\ Forall (fun t => settled_text false (tl_label t) /\ settled_text true (details t))
            (timeline o).

(** A descriptor that [sanitizeDescriptor] lets through as it is. *)
Definition descriptor_ok (d : JsString) : Prop :=
  descriptorShape d = true
  /\ Forall (fun token => includes d token = false) descriptor_tokens
  /\ (length d <= 64)%nat.

(** An array holds fewer than 2^32 elements. *)
Definition array_sized (input : JsValue) : Prop :=
  Z.of_nat (length (arrayOrEmpty (get input "evidence"))) < 2 ^ 32
  /\ Z.of_nat (length (arrayOrEmpty (get input "timeline"))) < 2 ^ 32.

(** A value that [Number] takes: it is no object with a field of its own
    named "toString", and if it is an array it holds none, at any depth. *)
Fixpoint converts (v : JsValue) : bool :=
  match v with
  | JArray items => forallb converts items
  | JObject fields => negb (hasOwn fields "toString")
  | _ => true
  end.

(** A turn that hides the method its conversion to a number needs. *)
Definition opaque_turn : JsValue :=
  JObject [ (js "turn", JObject [ (js "toString", JNull) ]);
            (js "timeline", JArray [JObject []]) ].

(** A case id of thirty-nine letters, a space and one more letter. *)
Definition padded_case_id : JsValue :=
  JObject [ (js "case_id", JString (replicate 39 97%N ++ js " b")) ].

(** A payload of the kind the engine sends. *)
Definition sample_payload : JsValue :=
  JObject [
    (js "case_id", JString (js "case_007"));
    (js "crime_type", JString (js "Fraud"));
    (js "turn", JNumber (Finite 7 (-1)));
    (js "status", JString (js "paused"));
    (js "evidence", JArray [
       JObject [ (js "id", JString (js "e1"));
                 (js "label", JString (js "  CCTV   Clip "));
                 (js "category", JString (js "digital"));
                 (js "state", JString (js "surfaced"));
                 (js "summary", JString (js "Partial frame captured.")) ];
       JObject [ (js "summary", JString (js "model confidence 63%")) ] ]);
    (js "timeline", JArray [
       JObject [ (js "time", JString (js "2026-02-01T20:40:00.000Z"));
                 (js "label", JString (js "incident"));
                 (js "details", JString (js "Incident logged by control room.")) ];
       JObject [ (js "time", JString (js "yesterday")) ] ]);
    (js "investigator_signals", JObject [ (js "priority", JString (js "Forensics")) ]);
    (js "pressure", JObject [ (js "public", JString (js "HIGH"));
                              (js "institutional", JString (js "rng state")) ]) ].

(** ** Outcome of seal_archive *)

(** The item [seal_archive] rewrites and the state it reaches. *)
Definition archived (e : EvidenceItem) : EvidenceItem :=
  {| ev_id := ev_id e; ev_label := ev_label e; category := category e;
     ev_state := js "archived"; ev_summary := js "Record sealed in archive." |}.

Definition sealed (s : VisibleState) (i : nat) (e : EvidenceItem) (t : Z)
  : VisibleState :=
  {| case_id := case_id s; crime_type := crime_type s;
     turn := turn s + 1;
     status := status s;
     evidence := <[i := archived e]> (evidence s);
     timeline :=
       slice_last 12
         (timeline s ++
            [ {| time := JsDate.isoFormat t; tl_label := js "archive_sealed";
                 details := js "Suppressed record sealed in archive storage." |} ]);
     investigator_signals := investigator_signals s;
     pressure :=
       {| public := public (pressure s);
          institutional := shiftPressure (institutional (pressure s)) (-1);
          personal := personal (pressure s) |} |}.

(** The time stamp of the entry a successful action appends, in milliseconds:
    ten past the hour, [20 + turn] hours into 1 February 2026. *)
Definition eventTime_ms (newTurn : Z) : Z :=
  1769904000000 + (20 + newTurn) * 3600000 + 600000.

(** A very long session: one item is removed, then the priority is reframed
    2399508335 times. *)
Definition reframe_call : Call :=
  CallApplyAction {| action_id := js "reframe_priority" |}.

Definition late_history : list Call :=
  CallApplyAction {| action_id := js "remove_evidence" |}
  :: replicate (Z.to_nat 2399508335) reframe_call.

(** ** Vocabulary of the further properties of the mock engine *)

(** The entry a successful action appends at the turn it has reached. *)
Definition timeline_entry (newTurn : Z) (label details : JsString) : TimelineItem :=
  {| time := JsDate.isoFormat (eventTime_ms newTurn); tl_label := label;
     details := details |}.

(** The item [remove_evidence] rewrites. *)
Definition suppressed_item (e : EvidenceItem) : EvidenceItem :=
  {| ev_id := ev_id e; ev_label := ev_label e; category := category e;
     ev_state := js "suppressed";
     ev_summary := js "Access restricted pending compliance review." |}.

(** The rotation of investigator priorities, in words: forensics, interviews,
    financial, surveillance and round again; anything else starts it. *)
Definition next_priority (p : JsString) : JsString :=
  if decide (p = js "forensics") then js "interviews"
  else if decide (p = js "interviews") then js "financial"
  else if decide (p = js "financial") then js "surveillance"
  else js "forensics".

(** One step up and one step down the ordered scale of pressure, in words:
    low, moderate, elevated, high, critical, staying at the end that is
    reached; a label off the scale becomes "uncertain". *)
Definition one_step_up (p : PressureLabel) : PressureLabel :=
  match p with
  | low => moderate
  | moderate => elevated
  | elevated => high
  | high => critical
  | critical => critical
  | _ => uncertain
  end.

Definition one_step_down (p : PressureLabel) : PressureLabel :=
  match p with
  | low => low
  | moderate => low
  | elevated => moderate
  | high => elevated
  | critical => high
  | _ => uncertain
  end.

(** The last turn at which an action can still stamp its timeline entry. *)
Definition last_turn : Z := 2399508338.

(** An evidence item with its discovery state and summary rewritten. *)
Definition rewritten (e : EvidenceItem) (st su : JsString) : EvidenceItem :=
  {| ev_id := ev_id e; ev_label := ev_label e; category := category e;
     ev_state := st; ev_summary := su |}.

(** The answer to an action that is turned down. *)
Definition rejected (s : VisibleState) (actionId : JsString) : ApplyActionResponse :=
  {| visible_state := s;
     action_result := {| success := false; summary := failure_summary actionId |} |}.

(** One step of the case, in words: the turn grows by one, one entry stamped
    with the new turn is appended to the timeline and the last twelve kept,
    at most one evidence item has its state and summary rewritten, the public
    and the institutional pressure move by at most one step, the priority
    stays or rotates, and nothing else changes. *)
Definition advances (s s' : VisibleState) : Prop :=
  turn s' = turn s + 1
  /\ case_id s' = case_id s /\ crime_type s' = crime_type s /\ status s' = status s
  /\ (exists label details,
         timeline s'
         = slice_last 12 (timeline s ++ [timeline_entry (turn s + 1) label details]))
  /\ (evidence s' = evidence s
      \/ exists i e st su,
           evidence s !! i = Some e
           /\ st ∈ [js "suppressed"; js "archived"]
           /\ evidence s' = <[i := rewritten e st su]> (evidence s))
  /\ public (pressure s')
     ∈ [public (pressure s); shiftPressure (public (pressure s)) 1;
        shiftPressure (public (pressure s)) (-1)]
  /\ institutional (pressure s')
     ∈ [institutional (pressure s); shiftPressure (institutional (pressure s)) 1;
        shiftPressure (institutional (pressure s)) (-1)]
  /\ personal (pressure s') = personal (pressure s)
  /\ demeanour (investigator_signals s') = demeanour (investigator_signals s)
  /\ (investigator_signals s' = investigator_signals s
      \/ (priority (investigator_signals s')
          = next_priority (priority (investigator_signals s))
          /\ recent_shift (investigator_signals s') = js "attention_realignment")).

(** What no call on a mock adapter changes. *)
Definition same_case (s0 s : VisibleState) : Prop :=
  case_id s = case_id s0 /\ crime_type s = crime_type s0 /\ status s = status s0
  /\ demeanour (investigator_signals s) = demeanour (investigator_signals s0)
  /\ personal (pressure s) = personal (pressure s0)
  /\ (ev_id <$> evidence s) = (ev_id <$> evidence s0)
  /\ (ev_label <$> evidence s) = (ev_label <$> evidence s0)
  /\ (category <$> evidence s) = (category <$> evidence s0).

(** What holds of every state a mock adapter is ever in. *)
Definition plausible (s : VisibleState) : Prop :=
  1 <= turn s
  /\ Forall (fun e => ev_state e ∈ EVIDENCE_STATES) (evidence s)
  /\ (3 <= length (timeline s) <= 12)%nat
  /\ priority (investigator_signals s) ∈ priorities
  /\ public (pressure s) ∈ scale
  /\ institutional (pressure s) ∈ scale
  /\ personal (pressure s) ∈ scale.

(** Calls that do not write to slot [name]. *)
Definition keeps_slot (name : JsString) (c : Call) : Prop :=
  match c with
  | CallSaveSlot slotId => slotId <> name
  | _ => True
  end.

Definition live_keeps_slot (name : JsString) (c : LiveCall) : Prop :=
  match c with
  | LiveSaveSlot slotId => slotId <> name
  | _ => True
  end.

(** ** Requests (engineAdapter.ts, 264-303)

    [fetchJson] builds the URL, arms a timer that aborts the request after
    [REQUEST_TIMEOUT_MS] and disarms it in the end; what it returns or throws
    depends on how the promises of the network layer settle: [fetch] itself,
    then [response.text()] or [response.json()].  A rejection is looked at
    only for being an [Error] and for its name. *)

Record Rejection : Type := {
  is_Error : bool;
  error_name : JsString;
}.

Inductive Settled (A : Type) : Type :=
  | Fulfilled (a : A)
  | Rejected (r : Rejection).
Arguments Fulfilled {A} a.
Arguments Rejected {A} r.

Record Response : Type := {
  resp_ok : bool;
  resp_status : Z;
  resp_text : Settled JsString;
  resp_json : Settled JsValue;
}.

Definition formatResponseError (response : Response) : Settled JsString :=
  match resp_text response with
  | Rejected r => Rejected r
  | Fulfilled body =>
      let text := trim body in
      Fulfilled
        (if bool_decide (text = [])
         then js "Engine request failed (" ++ String_ofZ (resp_status response)
              ++ js ")."
         else js "Engine request failed (" ++ String_ofZ (resp_status response)
              ++ js "): " ++ take 220 text)
  end.

(** What the [try] block throws: the adapter's own error, or whatever a
    promise was rejected with. *)
Inductive Thrown : Type :=
  | ThrownAdapterError (message : JsString)
  | ThrownRejection (r : Rejection).

Definition fetchJson (fetched : Settled Response) : Completion JsValue :=
  let attempt : Thrown + JsValue :=
    match fetched with
    | Rejected r => inl (ThrownRejection r)
    | Fulfilled response =>
        if negb (resp_ok response) then
          match formatResponseError response with
          | Rejected r => inl (ThrownRejection r)
          | Fulfilled message => inl (ThrownAdapterError message)
          end
        else
          match resp_json response with
          | Rejected r => inl (ThrownRejection r)
          | Fulfilled value => inr value
          end
    end in
  match attempt with
  | inr value => Normal value
  | inl (ThrownAdapterError message) => Throw (EngineAdapterError message)
  | inl (ThrownRejection error) =>
      if is_Error error && bool_decide (error_name error = js "AbortError")
      then Throw (EngineAdapterError (js "Engine request timed out. Please retry."))
      else Throw (EngineAdapterError
                    (js "Engine request failed. Check API base URL and connectivity."))
  end.

(** ** The page's stand-in state and its token display (App.tsx and the
    components) *)

Definition EMPTY_STATE : VisibleState :=
  {| case_id := js "case_001";
     crime_type := js "unknown";
     turn := 0;
     status := js "active";
     evidence := [];
     timeline := [];
     investigator_signals :=
       {| priority := js "uncertain"; demeanour := js "uncertain";
          recent_shift := js "uncertain" |};
     pressure :=
       {| public := uncertain; institutional := uncertain; personal := uncertain |} |}.

(** [toUpperCase] on a unit that [\w] matches. *)
Definition ascii_upper (c : N) : N :=
  if in_range 97 122 c then (c - 32)%N else c.

(** [s.replace(/\b\w/g, (letter) => letter.toUpperCase())]: a word unit is
    put in upper case when the unit before it is not a word unit. *)
Fixpoint capitalizeWords (prev : option N) (s : JsString) : JsString :=
  match s with
  | [] => []
  | c :: s' =>
      (if isWordChar c && negb (isWordAt prev) then ascii_upper c else c)
      :: capitalizeWords (Some c) s'
  end.

(** [formatToken] (EvidenceList.tsx, Header.tsx, PressurePanel.tsx,
    FocusView.tsx). *)
Definition formatToken (value : JsString) : JsString :=
  capitalizeWords None ((fun c => if (c =? 95)%N then 32%N else c) <$> value).

(** ** Vocabulary of the further properties of the live adapter and of the
    sanitizer *)

(** A rejection that tells of the request having been aborted. *)
Definition aborted (r : Rejection) : Prop :=
  is_Error r = true /\ error_name r = js "AbortError".

(** The request, or the reading of the body it called for, was rejected
    with [r]: the text of a response that is not ok, the parsed body of one
    that is. *)
Definition rejected_with (fetched : Settled Response) (r : Rejection) : Prop :=
  fetched = Rejected r
  \/ exists response,
       fetched = Fulfilled response
       /\ ((resp_ok response = false /\ resp_text response = Rejected r)
           \/ (resp_ok response = true /\ resp_json response = Rejected r)).

(** The engine answered ok with a body that parses to [payload]. *)
Definition answered (fetched : Settled Response) (payload : JsValue) : Prop :=
  exists response,
    fetched = Fulfilled response /\ resp_ok response = true
    /\ resp_json response = Fulfilled payload.

(** The engine answered not ok, with the text [body]. *)
Definition refused (fetched : Settled Response) (status : Z) (body : JsString) : Prop :=
  exists response,
    fetched = Fulfilled response /\ resp_ok response = false
    /\ resp_status response = status
    /\ resp_text response = Fulfilled body.

(** The keys [sanitizeVisibleState] reads. *)
Definition VisibleState_keys : list string :=
  ["case_id"; "crime_type"; "turn"; "status"; "evidence"; "timeline";
   "investigator_signals"; "pressure"]%string.

(** A call that brings no state to a live adapter: its request failed, or it
    makes none. *)
Definition brings_no_state (c : LiveCall) : Prop :=
  match c with
  | LiveGetVisibleState (Normal _) => False
  | LiveApplyAction (Normal JUndefined) _ | LiveApplyAction (Normal JNull) _ => True
  | LiveApplyAction (Normal _) _ => False
  | _ => True
  end.

(** A text that is not empty and within its limit. *)
Definition within (limit : nat) (t : JsString) : Prop :=
  t <> [] /\ (length t <= limit)%nat.

(** A time stamp as [toISOString] prints it. *)
Definition iso_time (t : JsString) : Prop :=
  exists tv : Z, Z.abs tv <= JsDate.maxTime /\ t = JsDate.isoFormat tv.

(** What the page can rely on in a state that came through the sanitizer. *)
Definition presentable (o : VisibleState) : Prop :=
  within 40 (case_id o)
  /\ descriptor_ok (crime_type o)
  /\ 0 <= turn o
  /\ status o ∈ STATUS_TERMS
  /\ Forall (fun e => within 32 (ev_id e) /\ within 70 (ev_label e)
                      /\ descriptor_ok (category e)
                      /\ ev_state e ∈ EVIDENCE_STATES
                      /\ within 220 (ev_summary e)) (evidence o)
  /\ Forall (fun i => iso_time (time i) /\ within 60 (tl_label i)
                      /\ within 240 (details i)) (timeline o)
  /\ descriptor_ok (priority (investigator_signals o))
  /\ descriptor_ok (demeanour (investigator_signals o))
  /\ descriptor_ok (recent_shift (investigator_signals o)).

(** A text that [clampText] returns as it is. *)
Definition clean_text (limit : nat) (redactRestricted : bool) (t : JsString) : Prop :=
  tidy t = true /\ t <> [] /\ (length t <= limit)%nat
  /\ (redactRestricted = true -> ~ restricted_text t).

(** A state in which every field is as the sanitizer would leave it. *)
Definition clean (o : VisibleState) : Prop :=
  clean_text 40 false (case_id o)
  /\ descriptor_ok (crime_type o)
  /\ 0 <= turn o
  /\ status o ∈ STATUS_TERMS
  /\ Forall (fun e => clean_text 32 false (ev_id e) /\ clean_text 70 false (ev_label e)
                      /\ descriptor_ok (category e)
                      /\ ev_state e ∈ EVIDENCE_STATES
                      /\ clean_text 220 true (ev_summary e)) (evidence o)
  /\ Forall (fun i => iso_time (time i) /\ clean_text 60 false (tl_label i)
                      /\ clean_text 240 true (details i)) (timeline o)
  /\ descriptor_ok (priority (investigator_signals o))
  /\ descriptor_ok (demeanour (investigator_signals o))
  /\ descriptor_ok (recent_shift (investigator_signals o)).

(** ** Objects and references (the mock adapter, engineAdapter.ts, 373-684)

    In the program a visible state is an object, the generator is a closure
    with a variable of its own, and what an adapter keeps or hands out is a
    reference: whoever holds a reference can change the object behind it.
    The definitions above work on contents alone.  Here the same functions
    are given on a store of objects, so that what the adapters share, and
    what a caller can reach, is part of the model.

    The store holds the contents of the state objects and the variable
    [value] of every generator; a reference is a position in it.
    [deepClone] makes a new object with the same contents.  The objects
    inside a state (its arrays, items, signals and pressure) are built with
    it, by a literal or by [deepClone], and the code never puts a part of
    one state into another: they are kept within the contents of their
    state.  The action list, the slot names and the action results are
    built from text and are kept as values. *)

Abbreviation Ref := nat.

Record Store : Type := {
  cells : list VisibleState;
  generators : list Z;
}.

Definition Heap (A : Type) : Type := Store -> A * Store.

#[global] Instance Heap_ret : MRet Heap := fun A a store => (a, store).
#[global] Instance Heap_bind : MBind Heap := fun A B k c store =>
  let '(a, store') := c store in k a store'.

Definition alloc (v : VisibleState) : Heap Ref := fun store =>
  (length (cells store),
   {| cells := cells store ++ [v]; generators := generators store |}).

(** A reference that is read was made by [alloc] before; the default is
    never used. *)
Definition read (r : Ref) : Heap VisibleState := fun store =>
  (default EMPTY_STATE (cells store !! r), store).

Definition write (r : Ref) (v : VisibleState) : Heap unit := fun store =>
  (tt, {| cells := <[r := v]> (cells store); generators := generators store |}).

Definition deepClone (r : Ref) : Heap Ref :=
  v ← read r; alloc v.

(** An assignment to a field of the object [r], or to a field of an object
    inside it: [f] gives the contents after it. *)
Definition assign (r : Ref) (f : VisibleState -> VisibleState) : Heap unit :=
  v ← read r; write r (f v).

(** The closure variables of one mock adapter, as references. *)
Record MockObject : Type := {
  state_ref : Ref;
  slot_refs : list (JsString * Ref);
}.

Module Shared.

(** [createMulberry32(seed)]: a new closure, with its variable [value]. *)
Definition createMulberry32 (seed : Z) : Heap Ref := fun store =>
  (length (generators store),
   {| cells := cells store;
      generators := generators store ++ [createMulberry32 seed] |}).

(** One call of the closure [generator]. *)
Definition call (generator : Ref) : Heap Z := fun store =>
  let value := default 0 (generators store !! generator) in
  let value := value + 0x6d2b79f5 in
  let store :=
    {| cells := cells store;
       generators := <[generator := value]> (generators store) |} in
  let temp := imul (xor32 value (ushr value 15)) (or32 value 1) in
  let temp := xor32 temp (temp + imul (xor32 temp (ushr temp 7)) (or32 temp 61)) in
  (ToUint32 (xor32 temp (ushr temp 14)), store).

Definition pickFrom `{Inhabited A} (items : list A) (generator : Ref) : Heap A :=
  u ← call generator;
  mret (items !!! Z.to_nat (u * Z.of_nat (length items) / 4294967296)).

Definition createInitialMockState (seed : Z) : Heap Ref :=
  generator ← createMulberry32 seed;
  crimeType ← pickFrom [js "murder"; js "fraud"; js "arson"; js "kidnapping"] generator;
  let caseId := js "case_" ++ padStart (String_ofZ (Z.rem seed 900 + 100)) 3 48%N in
  u2 ← call generator;
  u4 ← call generator;
  let evidence := [
    {| ev_id := js "e1"; ev_label := js "CCTV Clip"; category := js "digital";
       ev_state := js "surfaced";
       ev_summary := js "Partial frame captured; vehicle profile remains uncertain." |};
    {| ev_id := js "e2"; ev_label := js "Station Ledger"; category := js "document";
       ev_state := if 2147483648 <? u2 then js "surfaced" else js "logged";
       ev_summary := js "Entry sequence has one contradictory time-stamp." |};
    {| ev_id := js "e3"; ev_label := js "Lab Swab"; category := js "forensic";
       ev_state := js "review";
       ev_summary := js "Residue profile linked to probable transfer contact." |};
    {| ev_id := js "e4"; ev_label := js "Witness Call"; category := js "witness";
       ev_state := if 2147483648 <? u4 then js "logged" else js "review";
       ev_summary := js "Caller timeline is probable but partially contradictory." |} ] in
  let timeline := [
    {| time := js "2026-02-01T20:40:00.000Z"; tl_label := js "incident";
       details := js "Incident logged by control room." |};
    {| time := js "2026-02-01T21:15:00.000Z"; tl_label := js "first_response";
       details := js "Initial perimeter established." |};
    {| time := js "2026-02-01T22:00:00.000Z"; tl_label := js "evidence_intake";
       details := js "Initial digital and physical evidence intake completed." |} ] in
  t ← call generator;
  priority ← pickFrom [js "forensics"; js "interviews"; js "financial";
                        js "surveillance"] generator;
  demeanour ← pickFrom [js "controlled"; js "impatient"; js "guarded";
                         js "methodical"] generator;
  recent_shift ← pickFrom [js "attention_narrowing"; js "scope_balancing";
                            js "risk_avoidance"] generator;
  public ← pickFrom [low; moderate; elevated] generator;
  institutional ← pickFrom [low; moderate] generator;
  personal ← pickFrom [moderate; elevated] generator;
  alloc {| case_id := caseId; crime_type := crimeType;
           turn := 1 + t * 3 / 4294967296;
           status := js "active"; evidence := evidence; timeline := timeline;
           investigator_signals :=
             {| priority := priority; demeanour := demeanour;
                recent_shift := recent_shift |};
           pressure := {| public := public; institutional := institutional;
                          personal := personal |} |}.

(** [applyMockAction] on the object [state]: the copy [next] is made, the
    assignments of the branch taken are made to it one by one, and it is
    returned inside the response.  Where the time stamp throws, [next] is
    given up after its first assignments. *)
Definition applyMockAction (state : Ref) (actionId : JsString)
  : Heap (Completion (Ref * ActionResult)) :=
  next ← deepClone state;
  if decide (actionId = js "remove_evidence") then
    v ← read next;
    match findIndex_state (js "surfaced") (evidence v) with
    | None =>
        mret (Normal (next,
                {| success := false;
                   summary := js "No surfaced evidence could be moved." |}))
    | Some (targetIndex, target) =>
        _ ← assign next (fun v => set_turn (turn v + 1) v);
        _ ← assign next (fun v =>
              set_evidence
                (<[targetIndex :=
                     {| ev_id := ev_id target; ev_label := ev_label target;
                        category := category target;
                        ev_state := js "suppressed";
                        ev_summary :=
                          js "Access restricted pending compliance review." |}]>
                   (evidence v)) v);
        _ ← assign next (fun v =>
              set_pressure
                (set_public (shiftPressure (public (pressure v)) 1) (pressure v)) v);
        v ← read next;
        match appendTimeline v (js "evidence_removed")
                (js "One surfaced evidence item moved into restricted review.") with
        | Throw e => mret (Throw e)
        | Normal tl =>
            _ ← assign next (set_timeline tl);
            mret (Normal (next,
                    {| success := true;
                       summary :=
                         js "Evidence moved to restricted review for this cycle." |}))
        end
    end
  else if decide (actionId = js "delay_briefing") then
    v ← read next;
    if decide (public (pressure v) = critical) then
      mret (Normal (next,
              {| success := false;
                 summary :=
                   js "Briefing delay rejected under critical public pressure." |}))
    else
      _ ← assign next (fun v => set_turn (turn v + 1) v);
      _ ← assign next (fun v =>
            set_pressure
              (set_public (shiftPressure (public (pressure v)) (-1)) (pressure v)) v);
      _ ← assign next (fun v =>
            set_pressure
              (set_institutional (shiftPressure (institutional (pressure v)) 1)
                 (pressure v)) v);
      v ← read next;
      match appendTimeline v (js "briefing_delayed")
              (js "Official briefing pushed by one operational cycle.") with
      | Throw e => mret (Throw e)
      | Normal tl =>
          _ ← assign next (set_timeline tl);
          mret (Normal (next,
                  {| success := true;
                     summary :=
                       js "Briefing delayed; institutional pressure increased." |}))
      end
  else if decide (actionId = js "reframe_priority") then
    v ← read next;
    let currentIndex := indexOf (priority (investigator_signals v)) priorities in
    let nextIndex :=
      if currentIndex <? 0 then 0
      else (currentIndex + 1) mod Z.of_nat (length priorities) in
    _ ← assign next (fun v => set_turn (turn v + 1) v);
    _ ← assign next (fun v =>
          set_investigator_signals
            {| priority := priorities !!! Z.to_nat nextIndex;
               demeanour := demeanour (investigator_signals v);
               recent_shift := recent_shift (investigator_signals v) |} v);
    _ ← assign next (fun v =>
          set_investigator_signals
            {| priority := priority (investigator_signals v);
               demeanour := demeanour (investigator_signals v);
               recent_shift := js "attention_realignment" |} v);
    v ← read next;
    match appendTimeline v (js "priority_reframed")
            (js "Investigator priority shifted to "
               ++ priorities !!! Z.to_nat nextIndex ++ js ".") with
    | Throw e => mret (Throw e)
    | Normal tl =>
        _ ← assign next (set_timeline tl);
        mret (Normal (next,
                {| success := true;
                   summary :=
                     js "Priority shifted to "
                       ++ priorities !!! Z.to_nat nextIndex ++ js "." |}))
    end
  else if decide (actionId = js "seal_archive") then
    v ← read next;
    match findIndex_state (js "suppressed") (evidence v) with
    | None =>
        mret (Normal (next,
                {| success := false;
                   summary :=
                     js "No suppressed item available for archive sealing." |}))
    | Some (targetIndex, target) =>
        _ ← assign next (fun v => set_turn (turn v + 1) v);
        _ ← assign next (fun v =>
              set_evidence
                (<[targetIndex :=
                     {| ev_id := ev_id target; ev_label := ev_label target;
                        category := category target;
                        ev_state := js "archived";
                        ev_summary := js "Record sealed in archive." |}]>
                   (evidence v)) v);
        _ ← assign next (fun v =>
              set_pressure
                (set_institutional
                   (shiftPressure (institutional (pressure v)) (-1)) (pressure v)) v);
        v ← read next;
        match appendTimeline v (js "archive_sealed")
                (js "Suppressed record sealed in archive storage.") with
        | Throw e => mret (Throw e)
        | Normal tl =>
            _ ← assign next (set_timeline tl);
            mret (Normal (next,
                    {| success := true;
                       summary :=
                         js "Archive seal completed for one restricted record." |}))
        end
    end
  else
    mret (Normal (next,
            {| success := false;
               summary := js "Action not recognized by mock adapter." |})).

Definition createMockAdapter (seed : Z) : Heap MockObject :=
  state ← createInitialMockState seed;
  mret {| state_ref := state; slot_refs := [] |}.

Definition getVisibleState (a : MockObject) : Heap (Completion Ref * MockObject) :=
  out ← deepClone (state_ref a);
  mret (Normal out, a).

Definition getActions (a : MockObject)
  : Heap (Completion ActionsResponse * MockObject) :=
  v ← read (state_ref a);
  mret (Normal (buildMockActions v), a).

Definition applyAction (request : ApplyActionRequest) (a : MockObject)
  : Heap (Completion (Ref * ActionResult) * MockObject) :=
  response ← applyMockAction (state_ref a) (action_id request);
  match response with
  | Normal (next, result) =>
      state ← deepClone next;
      out ← deepClone next;
      mret (Normal (out, result), {| state_ref := state; slot_refs := slot_refs a |})
  | Throw e => mret (Throw e, a)
  end.

Definition saveSlot (slotId : JsString) (a : MockObject)
  : Heap (Completion unit * MockObject) :=
  copy ← deepClone (state_ref a);
  mret (Normal tt,
        {| state_ref := state_ref a;
           slot_refs := slots_set slotId copy (slot_refs a) |}).

Definition loadSlot (slotId : JsString) (a : MockObject)
  : Heap (Completion Ref * MockObject) :=
  match slots_get slotId (slot_refs a) with
  | None => mret (Throw (EngineAdapterError (unknown_slot_message slotId)), a)
  | Some snapshot =>
      state ← deepClone snapshot;
      out ← deepClone snapshot;
      mret (Normal out, {| state_ref := state; slot_refs := slot_refs a |})
  end.

Definition listSlots (a : MockObject)
  : Heap (Completion (list JsString) * MockObject) :=
  mret (Normal (array_from_set (DEFAULT_SLOTS ++ slots_keys (slot_refs a))), a).

End Shared.

(** What the caller reads in the object it is handed, when it is handed it. *)
Definition seen (c : Completion Ref) : Heap (Completion VisibleState) :=
  match c with
  | Normal r => v ← read r; mret (Normal v)
  | Throw e => mret (Throw e)
  end.

Definition handed {A} (ref : A -> Ref) (c : Completion A) : option Ref :=
  match c with
  | Normal x => Some (ref x)
  | Throw _ => None
  end.

(** One call on one adapter: the reply as the caller reads it, the object
    it was handed, if any, and the adapter after the call. *)
Definition shared_perform (c : Call) (a : MockObject)
  : Heap (Reply * option Ref * MockObject) :=
  match c with
  | CallGetVisibleState =>
      '(r, a') ← Shared.getVisibleState a;
      v ← seen r;
      mret (ReplyState v, handed id r, a')
  | CallGetActions =>
      '(r, a') ← Shared.getActions a;
      mret (ReplyActions r, None, a')
  | CallApplyAction request =>
      '(r, a') ← Shared.applyAction request a;
      v ← seen (fst <$> r);
      mret (ReplyApply
              (match r, v with
               | Normal (_, result), Normal state =>
                   Normal {| visible_state := state; action_result := result |}
               | Throw e, _ | _, Throw e => Throw e
               end),
            handed fst r, a')
  | CallSaveSlot slotId =>
      '(r, a') ← Shared.saveSlot slotId a;
      mret (ReplyUnit r, None, a')
  | CallLoadSlot slotId =>
      '(r, a') ← Shared.loadSlot slotId a;
      v ← seen r;
      mret (ReplyState v, handed id r, a')
  | CallListSlots =>
      '(r, a') ← Shared.listSlots a;
      mret (ReplySlots r, None, a')
  end.

(** A session on several adapters that live in one store.  A step is a
    method call on one of them, or the caller changing, in any way it
    likes, the object it was handed in an earlier reply.  Every reply is
    logged with the adapter it came from. *)
Inductive Step : Type :=
  | Invoke (h : nat) (c : Call)
  | Mutate (k : nat) (f : VisibleState -> VisibleState).

Abbreviation Entry := (nat * Reply * option Ref)%type.

Fixpoint shared_run (store : Store) (adapters : list MockObject) (log : list Entry)
    (schedule : list Step) : list Entry :=
  match schedule with
  | [] => log
  | Invoke h c :: rest =>
      match adapters !! h with
      | Some a =>
          let '(r, ref, a', store') := shared_perform c a store in
          shared_run store' (<[h := a']> adapters) (log ++ [(h, r, ref)]) rest
      | None => shared_run store adapters log rest
      end
  | Mutate k f :: rest =>
      match log !! k with
      | Some (_, _, Some ref) =>
          shared_run (assign ref f store).2 adapters log rest
      | _ => shared_run store adapters log rest
      end
  end.

(** One adapter per seed, created one after the other. *)
Fixpoint create_all (seeds : list Z) : Heap (list MockObject) :=
  match seeds with
  | [] => mret []
  | seed :: rest =>
      a ← Shared.createMockAdapter seed;
      others ← create_all rest;
      mret (a :: others)
  end.

Definition shared_session (seeds : list Z) (schedule : list Step) : list Entry :=
  let '(adapters, store) := create_all seeds {| cells := []; generators := [] |} in
  shared_run store adapters [] schedule.

(** The calls a schedule makes on adapter [h], and the replies logged for it. *)
Definition invoked_on (h : nat) (schedule : list Step) : list Call :=
  omap (fun step => match step with
                    | Invoke h' c => if decide (h' = h) then Some c else None
                    | Mutate _ _ => None
                    end) schedule.

Definition logged_for (h : nat) (log : list Entry) : list Reply :=
  omap (fun e : Entry => if decide (e.1.1 = h) then Some e.1.2 else None) log.

(** The adapter an object stands for: the contents behind its references. *)
Definition contents (store : Store) (r : Ref) : VisibleState :=
  default EMPTY_STATE (cells store !! r).

Definition adapter_of (store : Store) (a : MockObject) : MockAdapter :=
  {| mock_state := contents store (state_ref a);
     mock_slots := prod_map id (contents store) <$> slot_refs a |}.

(** The objects an adapter keeps for itself. *)
Definition owned (a : MockObject) : list Ref :=
  state_ref a :: (slot_refs a).*2.

(** Every object the adapter keeps exists in the store. *)
Definition holds (store : Store) (a : MockObject) : Prop :=
  Forall (fun r => (r < length (cells store))%nat) (owned a).

(** The adapters' objects exist, and no object handed to a caller is one an
    adapter keeps. *)
Definition apart (store : Store) (adapters : list MockObject) (log : list Entry) : Prop :=
  (forall h a, adapters !! h = Some a -> holds store a)
  /\ (forall k e r, log !! k = Some (e, Some r) ->
        (r < length (cells store))%nat
        /\ forall h a, adapters !! h = Some a -> r ∉ owned a).

(** A change a caller may make to a state object it holds. *)
Definition raise_turn (v : VisibleState) : VisibleState :=
  {| case_id := js "case_000"; crime_type := crime_type v; turn := turn v + 7;
     status := js "closed"; evidence := []; timeline := timeline v;
     investigator_signals := investigator_signals v; pressure := pressure v |}.

(** * Properties *)

(** ** The embedding at work *)

Section Examples.

Example rng_first_draw : fst (rng (createMulberry32 1)) = 2693262067.
Proof. reflexivity. Qed.

Example initial_state_42 :
  let s := createInitialMockState 42 in
  case_id s = js "case_142" /\ crime_type s = js "arson" /\ turn s = 3
  /\ (ev_state <$> evidence s) = [js "surfaced"; js "logged"; js "review"; js "logged"]
  /\ pressure s = {| public := moderate; institutional := moderate;
                     personal := moderate |}.
Proof. vm_compute. repeat split; reflexivity. Qed.

Example case_id_of_negative_seed :
  case_id (createInitialMockState (-105)) = js "case_0-5".
Proof. vm_compute. reflexivity. Qed.

Example toISOString_reference_instant :
  JsDate.toISOString (JsDate.UTC 2026 1 1 0 0 0) = Normal (js "2026-02-01T00:00:00.000Z").
Proof. vm_compute. reflexivity. Qed.

Example toISOString_last_date :
  JsDate.toISOString (JsDate.TimeClip 8640000000000000)
  = Normal (js "+275760-09-13T00:00:00.000Z")
  /\ JsDate.toISOString (JsDate.TimeClip 8640000000000001)
     = Throw (RangeError (js "Invalid time value")).
Proof. vm_compute. split; reflexivity. Qed.

Example parse_reads_iso :
  JsDate.parse (fun _ => None) (js "1969-12-31T23:59:59.999Z") = Some (-1)
  /\ JsDate.parse (fun _ => None) (js "2026-02-01 20:40") = None.
Proof. vm_compute. split; reflexivity. Qed.

Example pattern_on_words :
  test RESTRICTED_TEXT_PATTERN (js "the Seed value") = true
  /\ test RESTRICTED_TEXT_PATTERN (js "the seeds value") = false
  /\ test RESTRICTED_TEXT_PATTERN (js "a_seed") = false
  /\ test RESTRICTED_TEXT_PATTERN (js "about 63.5% sure") = true
  /\ test RESTRICTED_TEXT_PATTERN (js "about 63 % sure") = false.
Proof. vm_compute. repeat split; reflexivity. Qed.

Example clampText_collapses :
  clampText (JString (js "  CCTV   Clip ")) (js "Evidence 1") 70 false = js "CCTV Clip"
  /\ clampText (JNumber (Finite 3 0)) (js "Evidence 1") 70 false = js "Evidence 1"
  /\ clampText (JString (js "   ")) (js "Evidence 1") 70 false = js "Evidence 1".
Proof. vm_compute. repeat split; reflexivity. Qed.

Example sanitizeDescriptor_tokens :
  sanitizeDescriptor (JString (js "Attention  Narrowing")) (js "uncertain")
  = js "attention_narrowing"
  /\ sanitizeDescriptor (JString (js "rng state")) (js "uncertain") = js "uncertain"
  /\ sanitizeDescriptor (JString (js "tier 2")) (js "uncertain") = js "uncertain"
  /\ sanitizeDescriptor JNull (js "general") = js "general".
Proof. vm_compute. repeat split; reflexivity. Qed.

Example remove_then_seal :
  let a := after (createMockAdapter 42)
             [CallApplyAction {| action_id := js "remove_evidence" |};
              CallApplyAction {| action_id := js "seal_archive" |}] in
  turn (mock_state a) = 5
  /\ (ev_state <$> evidence (mock_state a))
     = [js "archived"; js "logged"; js "review"; js "logged"]
  /\ (time <$> timeline (mock_state a))
     = [js "2026-02-01T20:40:00.000Z"; js "2026-02-01T21:15:00.000Z";
        js "2026-02-01T22:00:00.000Z"; js "2026-02-02T00:10:00.000Z";
        js "2026-02-02T01:10:00.000Z"]
  /\ pressure (mock_state a)
     = {| public := elevated; institutional := low; personal := moderate |}.
Proof. vm_compute. repeat split; reflexivity. Qed.

End Examples.

Section PressureShift.

Lemma shiftPressure_index_in_range (current : PressureLabel) (delta : Z) :
  let index := indexOf current scale in
  is_Some (scale !! Z.to_nat
             (Z.max 0 (Z.min (Z.of_nat (length scale) - 1) (index + delta)))).
Proof.
  intros index. apply lookup_lt_is_Some. simpl length. lia.
Qed.

Lemma shiftPressure_critical_up (delta : Z) :
  0 < delta -> shiftPressure critical delta = critical.
Proof.
  intros Hd. unfold shiftPressure.
  change (indexOf critical scale) with 4. simpl length.
  replace (Z.max 0 (Z.min (Z.of_nat 5 - 1) (4 + delta))) with 4 by lia.
  reflexivity.
Qed.

Lemma shiftPressure_low_down (delta : Z) :
  delta < 0 -> shiftPressure low delta = low.
Proof.
  intros Hd. unfold shiftPressure.
  change (indexOf low scale) with 0. simpl length.
  replace (Z.max 0 (Z.min (Z.of_nat 5 - 1) (0 + delta))) with 0 by lia.
  reflexivity.
Qed.

Lemma shiftPressure_off_scale (p : PressureLabel) (delta : Z) :
  p ∉ scale -> shiftPressure p delta = uncertain.
Proof.
  intros Hp. destruct p; try reflexivity;
    exfalso; apply Hp; unfold scale; repeat constructor.
Qed.

(** C7. The pressure shift clamps at both ends of the five-term scale and
    sends every off-scale label to "uncertain": however often it is repeated,
    shifting "critical" up gives "critical" and shifting "low" down gives
    "low"; a label outside the scale is sent to "uncertain" by any delta,
    once or repeatedly. *)
Theorem shiftPressure_bounds (n : nat) (up down delta : Z) (p : PressureLabel) :
  0 < up -> down < 0 -> p ∉ scale ->
  Nat.iter n (fun q => shiftPressure q up) critical = critical
  /\ Nat.iter n (fun q => shiftPressure q down) low = low
  /\ shiftPressure p delta = uncertain
  /\ Nat.iter (S n) (fun q => shiftPressure q delta) p = uncertain.
Proof.
  intros Hup Hdown Hp. repeat split.
  - induction n as [|n IH]; simpl; [reflexivity|].
    rewrite IH. by apply shiftPressure_critical_up.
  - induction n as [|n IH]; simpl; [reflexivity|].
    rewrite IH. by apply shiftPressure_low_down.
  - by apply shiftPressure_off_scale.
  - induction n as [|n IH].
    + simpl. by apply shiftPressure_off_scale.
    + change (Nat.iter (S (S n)) ?f ?x) with (f (Nat.iter (S n) f x)).
      rewrite IH. reflexivity.
Qed.

Lemma shiftPressure_bounds_witness :
  Nat.iter 7 (fun q => shiftPressure q 1) critical = critical
  /\ Nat.iter 7 (fun q => shiftPressure q (-1)) low = low
  /\ shiftPressure uncertain 1 = uncertain
  /\ Nat.iter 8 (fun q => shiftPressure q 1) uncertain = uncertain.
Proof.
  apply (shiftPressure_bounds 7 1 (-1) 1 uncertain); [lia | lia |].
  unfold scale. intros H. repeat (apply elem_of_cons in H as [H|H]; [discriminate|]).
  by apply elem_of_nil in H.
Defined.

End PressureShift.

Section MockEngine.

Implicit Types (s : VisibleState) (a : MockAdapter).

Lemma findIndex_state_None (st : JsString) (l : list EvidenceItem) :
  Forall (fun item => ev_state item <> st) l -> findIndex_state st l = None.
Proof.
  intros H. unfold findIndex_state. apply list_find_None. exact H.
Qed.

Lemma catalogue_ids s :
  act_id <$> actions (buildMockActions s) = catalogue.
Proof. reflexivity. Qed.

Lemma applyMockAction_guard_fails s (actionId : JsString) :
  guard_fails s actionId ->
  applyMockAction s actionId =
    Normal {| visible_state := s;
              action_result := {| success := false;
                                  summary := failure_summary actionId |} |}.
Proof.
  intros [[-> H] | [[-> H] | [[-> H] | H]]].
  - unfold applyMockAction. rewrite decide_True by reflexivity.
    rewrite (findIndex_state_None _ _ H). reflexivity.
  - unfold applyMockAction.
    rewrite decide_False by (vm_compute; discriminate).
    rewrite decide_True by reflexivity.
    rewrite (decide_True _ _ H). reflexivity.
  - unfold applyMockAction.
    do 3 rewrite decide_False by (vm_compute; discriminate).
    rewrite decide_True by reflexivity.
    rewrite (findIndex_state_None _ _ H). reflexivity.
  - assert (Hne : forall x, x ∈ catalogue -> actionId <> x).
    { intros x Hx ->. exact (H Hx). }
    unfold applyMockAction, failure_summary.
    rewrite !decide_False; [reflexivity | ..];
      apply Hne; unfold catalogue; repeat constructor.
Qed.

(** C5. Whenever the guard of an action fails (remove_evidence without
    surfaced evidence, delay_briefing under critical public pressure,
    seal_archive without suppressed evidence) or the action id is not one of
    the four of the catalogue, the mock engine answers with the state it was
    given, unchanged in every field, and a result whose success is false and
    whose summary is the fixed text of that case; the adapter instance that
    made the call keeps its state and its slots. *)
Theorem applyAction_guard_fails a (actionId : JsString) :
  guard_fails (mock_state a) actionId ->
  let rejected :=
    {| visible_state := mock_state a;
       action_result := {| success := false;
                           summary := failure_summary actionId |} |} in
  applyMockAction (mock_state a) actionId = Normal rejected
  /\ Mock.applyAction {| action_id := actionId |} a = (Normal rejected, a).
Proof.
  intros H rejected.
  pose proof (applyMockAction_guard_fails _ _ H) as E. split; [exact E|].
  unfold Mock.applyAction. simpl action_id. rewrite E. destruct a; reflexivity.
Qed.

Lemma applyAction_guard_fails_witness :
  let a := createMockAdapter 42 in
  guard_fails (mock_state a) (js "seal_archive")
  /\ Mock.applyAction {| action_id := js "seal_archive" |} a
     = (Normal {| visible_state := mock_state a;
                  action_result :=
                    {| success := false;
                       summary := js "No suppressed item available for archive sealing."
                    |} |}, a).
Proof.
  assert (G : guard_fails (mock_state (createMockAdapter 42)) (js "seal_archive")).
  { right; right; left. split; [reflexivity|].
    repeat constructor; vm_compute; discriminate. }
  split; [exact G|].
  exact (proj2 (applyAction_guard_fails (createMockAdapter 42) (js "seal_archive") G)).
Defined.

(** The guards of [applyMockAction] are the ones [buildMockActions] shows:
    an action of the catalogue is offered as enabled exactly when its guard
    does not fail. *)
Lemma guard_fails_iff_disabled s (o : ActionOption) :
  o ∈ actions (buildMockActions s) ->
  guard_fails s (act_id o) <-> enabled o = false.
Proof.
  intros Ho. unfold buildMockActions in Ho. cbv zeta in Ho.
  repeat (apply elem_of_cons in Ho as [-> | Ho]); [..| by apply elem_of_nil in Ho];
    cbn [act_id enabled]; unfold guard_fails.
  - rewrite bool_decide_eq_false. split.
    + intros [[_ H] | [[E _] | [[E _] | H]]]; try (vm_compute in E; discriminate).
      * destruct (filter _ (evidence s)) as [|x l] eqn:Ef; [simpl; lia|].
        assert (Hx : x ∈ filter (fun item => ev_state item = js "surfaced") (evidence s))
          by (rewrite Ef; left).
        apply list_elem_of_filter in Hx as [Hx Hx'].
        rewrite Forall_forall in H. exfalso.
        by apply (H x).
      * exfalso. apply H. unfold catalogue. repeat constructor.
    + intros H. left. split; [reflexivity|].
      apply Forall_forall. intros x Hx Hst. apply H.
      assert (Hf : x ∈ filter (fun item => ev_state item = js "surfaced") (evidence s))
        by (apply list_elem_of_filter; auto).
      destruct (filter _ (evidence s)); [by apply elem_of_nil in Hf | simpl; lia].
  - rewrite bool_decide_eq_false. split.
    + intros [[E _] | [[_ H] | [[E _] | H]]]; try (vm_compute in E; discriminate).
      * intros Hn. exact (Hn H).
      * exfalso. apply H. unfold catalogue. repeat constructor.
    + intros H. right; left. split; [reflexivity|].
      destruct (decide (public (pressure s) = critical)); [assumption | contradiction].
  - split; [|discriminate].
    intros [[E _] | [[E _] | [[E _] | H]]]; try (vm_compute in E; discriminate).
    exfalso. apply H. unfold catalogue. repeat constructor.
  - rewrite bool_decide_eq_false. split.
    + intros [[E _] | [[E _] | [[_ H] | H]]]; try (vm_compute in E; discriminate).
      * rewrite Exists_exists. intros (x & Hx & Hst).
        rewrite Forall_forall in H. by apply (H x).
      * exfalso. apply H. unfold catalogue. repeat constructor.
    + intros H. right; right; left. split; [reflexivity|].
      apply Forall_forall. intros x Hx Hst. apply H.
      apply Exists_exists. eauto.
Qed.

(** *** seal_archive *)

Lemma UTC_eventTime (newTurn : Z) :
  JsDate.UTC 2026 1 1 (20 + newTurn) 10 0 = JsDate.TimeClip (eventTime_ms newTurn).
Proof.
  unfold JsDate.UTC, eventTime_ms. f_equal.
  change (JsDate.MakeDay (JsDate.MakeFullYear 2026) 1 1) with 20485.
  unfold JsDate.MakeDate, JsDate.MakeTime, JsDate.msPerDay. lia.
Qed.

Lemma UTC_eventTime_in_window (newTurn : Z) :
  0 <= newTurn <= 2399508339 ->
  JsDate.UTC 2026 1 1 (20 + newTurn) 10 0 = Some (eventTime_ms newTurn).
Proof.
  intros H. rewrite UTC_eventTime. unfold JsDate.TimeClip.
  rewrite (proj2 (Z.leb_le _ _)); [reflexivity|].
  unfold eventTime_ms, JsDate.maxTime. lia.
Qed.

Lemma UTC_eventTime_past_window (newTurn : Z) :
  2399508339 < newTurn ->
  JsDate.UTC 2026 1 1 (20 + newTurn) 10 0 = None.
Proof.
  intros H. rewrite UTC_eventTime. unfold JsDate.TimeClip.
  rewrite (proj2 (Z.leb_gt _ _)); [reflexivity|].
  unfold eventTime_ms, JsDate.maxTime. lia.
Qed.

Lemma Exists_findIndex_state (st : JsString) (l : list EvidenceItem) :
  Exists (fun item => ev_state item = st) l ->
  exists i e, findIndex_state st l = Some (i, e).
Proof.
  intros H. apply Exists_exists in H as (x & Hx & Hst).
  destruct (list_find_elem_of (fun item => ev_state item = st) l x Hx Hst)
    as [[i e] E].
  exists i, e. exact E.
Qed.

(** On every state with a suppressed item whose next turn still has a
    representable time stamp, seal_archive succeeds: the first suppressed item
    becomes "archived" with the fixed summary, the turn grows by one, the
    institutional pressure is shifted one step down, and one entry is appended
    to the timeline, of which the last twelve are kept. *)
Lemma seal_archive_in_window s :
  Exists (fun item => ev_state item = js "suppressed") (evidence s) ->
  0 <= turn s <= 2399508338 ->
  exists i e,
    evidence s !! i = Some e
    /\ ev_state e = js "suppressed"
    /\ (forall j e', evidence s !! j = Some e' -> (j < i)%nat ->
                     ev_state e' <> js "suppressed")
    /\ applyMockAction s (js "seal_archive")
       = Normal {| visible_state := sealed s i e (eventTime_ms (turn s + 1));
                   action_result :=
                     {| success := true;
                        summary :=
                          js "Archive seal completed for one restricted record." |} |}.
Proof.
  intros Hex Hturn.
  destruct (Exists_findIndex_state _ _ Hex) as (i & e & E).
  exists i, e.
  pose proof E as E'. unfold findIndex_state in E'.
  apply list_find_Some in E' as (Hi & He & Hfirst).
  split; [exact Hi|]. split; [exact He|]. split.
  - intros j e' Hj Hlt. exact (Hfirst j e' Hj Hlt).
  - unfold applyMockAction.
    do 3 rewrite decide_False by (vm_compute; discriminate).
    rewrite decide_True by reflexivity.
    cbv zeta. cbn [evidence set_turn]. rewrite E.
    unfold appendTimeline.
    cbn [turn set_turn set_evidence set_pressure set_timeline].
    rewrite UTC_eventTime_in_window by lia.
    reflexivity.
Qed.

Lemma seal_archive_beyond_window s :
  Exists (fun item => ev_state item = js "suppressed") (evidence s) ->
  2399508338 < turn s ->
  applyMockAction s (js "seal_archive") = Throw (RangeError (js "Invalid time value")).
Proof.
  intros Hex Hturn.
  destruct (Exists_findIndex_state _ _ Hex) as (i & e & E).
  unfold applyMockAction.
  do 3 rewrite decide_False by (vm_compute; discriminate).
  rewrite decide_True by reflexivity.
  cbv zeta. cbn [evidence set_turn]. rewrite E.
  unfold appendTimeline.
  cbn [turn set_turn set_evidence set_pressure set_timeline].
  rewrite UTC_eventTime_past_window by lia.
  reflexivity.
Qed.

Lemma reframe_priority_in_window s :
  0 <= turn s <= 2399508338 ->
  exists r, applyMockAction s (js "reframe_priority") = Normal r
            /\ turn (visible_state r) = turn s + 1
            /\ evidence (visible_state r) = evidence s.
Proof.
  intros Hturn. unfold applyMockAction.
  do 2 rewrite decide_False by (vm_compute; discriminate).
  rewrite decide_True by reflexivity.
  cbv zeta. unfold appendTimeline.
  cbn [turn set_turn set_investigator_signals].
  rewrite UTC_eventTime_in_window by lia.
  eexists. split; [reflexivity|]. split; reflexivity.
Qed.

Lemma after_cons a (c : Call) (cs : list Call) :
  after a (c :: cs) = after (perform c a).2 cs.
Proof. reflexivity. Qed.

(** Reframing the priority [n] times advances the turn by [n] and leaves the
    evidence alone, as long as the time stamps stay representable. *)
Lemma reframe_priority_repeated (n : nat) a :
  0 <= turn (mock_state a) ->
  turn (mock_state a) + Z.of_nat n <= 2399508339 ->
  turn (mock_state (after a (replicate n reframe_call)))
  = turn (mock_state a) + Z.of_nat n
  /\ evidence (mock_state (after a (replicate n reframe_call)))
     = evidence (mock_state a).
Proof.
  revert a. induction n as [|n IH]; intros a H0 Hn.
  - change (after a (replicate 0 reframe_call)) with a. split; [lia | reflexivity].
  - change (replicate (S n) reframe_call) with (reframe_call :: replicate n reframe_call).
    rewrite after_cons.
    destruct (reframe_priority_in_window (mock_state a)) as (r & Er & Ht & He); [lia|].
    assert (Ea : mock_state (perform reframe_call a).2 = visible_state r).
    { unfold reframe_call, perform, Mock.applyAction. cbn [action_id].
      by rewrite Er. }
    destruct (IH (perform reframe_call a).2) as [IHt IHe]; rewrite ?Ea; [lia | lia |].
    rewrite IHt, IHe, Ea. split; [lia | exact He].
Qed.

(** C6. seal_archive does not succeed on every state that holds a suppressed
    item.  A mock adapter created from seed 1 on which one item was removed
    and the priority then reframed until the turn is 2399508339 holds a
    suppressed item; the time stamp of the entry that seal_archive would
    append lies beyond the last representable date, and the call throws a
    RangeError, leaving the adapter as it was. *)
Theorem seal_archive_past_window :
  let a := after (createMockAdapter 1) late_history in
  turn (mock_state a) = 2399508339
  /\ Exists (fun item => ev_state item = js "suppressed") (evidence (mock_state a))
  /\ Mock.applyAction {| action_id := js "seal_archive" |} a
     = (Throw (RangeError (js "Invalid time value")), a).
Proof.
  intros a. subst a. unfold late_history. rewrite after_cons.
  set (a1 := (perform (CallApplyAction {| action_id := js "remove_evidence" |})
                (createMockAdapter 1)).2).
  assert (H1 : turn (mock_state a1) = 4) by (vm_compute; reflexivity).
  assert (H2 : Exists (fun item => ev_state item = js "suppressed")
                 (evidence (mock_state a1))).
  { eapply bool_decide_eq_true_1. vm_compute. reflexivity. }
  clearbody a1.
  assert (Hn : Z.of_nat (Z.to_nat 2399508335) = 2399508335) by (apply Z2Nat.id; lia).
  revert Hn. generalize (Z.to_nat 2399508335). intros n Hn.
  destruct (reframe_priority_repeated n a1) as [Ht He]; [lia | lia |].
  set (a := after a1 (replicate n reframe_call)) in *. clearbody a.
  assert (Hturn : turn (mock_state a) = 2399508339) by lia.
  assert (Hex : Exists (fun item => ev_state item = js "suppressed")
                  (evidence (mock_state a))) by (by rewrite He).
  split; [exact Hturn|]. split; [exact Hex|].
  unfold Mock.applyAction. cbn [action_id].
  rewrite (seal_archive_beyond_window (mock_state a) Hex); [reflexivity | lia].
Qed.

End MockEngine.

Section Determinism.

Implicit Types (a : MockObject) (h : nat) (store : Store).

(** *** The generator is private to the call that makes it *)

Lemma lookup_fresh {A} (l : list A) (x : A) (more : list A) :
  (l ++ x :: more) !! length l = Some x.
Proof. by apply list_lookup_middle. Qed.

Lemma insert_fresh {A} (l : list A) (x y : A) :
  <[length l := y]> (l ++ [x]) = l ++ [y].
Proof. rewrite insert_app_r_alt by lia. by rewrite Nat.sub_diag. Qed.

Lemma call_fresh (objects : list VisibleState) (others : list Z) (value : Z) :
  Shared.call (length others) {| cells := objects; generators := others ++ [value] |}
  = ((rng value).1, {| cells := objects; generators := others ++ [(rng value).2] |}).
Proof.
  unfold Shared.call, rng. cbn [generators cells fst snd]. rewrite lookup_fresh.
  change (default 0 (Some value)) with value. cbv zeta. by rewrite insert_fresh.
Qed.

(** The initial state is a new object, and its contents are those
    [createInitialMockState] gives for the seed, whatever the store holds:
    the closure it draws from is made by the call and dropped with it. *)
Lemma createInitialMockState_alloc (seed : Z) store :
  exists value,
    Shared.createInitialMockState seed store
    = (length (cells store),
       {| cells := cells store ++ [createInitialMockState seed];
          generators := generators store ++ [value] |}).
Proof.
  destruct store as [objects others].
  unfold createInitialMockState, Shared.createInitialMockState,
    pickFrom, Shared.pickFrom, rng_floor_times, rng_gt_half.
  unfold mbind, Heap_bind, Rng_bind, mret, Heap_ret, Rng_ret, Shared.createMulberry32.
  cbn [cells generators].
  repeat (rewrite call_fresh; destruct (rng _) as [? ?]; cbn [fst snd]).
  unfold alloc. cbn [cells generators fst snd]. eexists. reflexivity.
Qed.

(** *** What an adapter keeps stays as it is while the store grows *)

Lemma contents_prefix store store' (r : Ref) :
  cells store `prefix_of` cells store' ->
  (r < length (cells store))%nat ->
  contents store' r = contents store r.
Proof.
  intros [extra E] Hr. unfold contents. by rewrite E, lookup_app_l by exact Hr.
Qed.

Lemma adapter_of_agree store store' a :
  (forall r, r ∈ owned a -> contents store' r = contents store r) ->
  adapter_of store' a = adapter_of store a.
Proof.
  intros Hsame. unfold adapter_of. f_equal.
  - apply Hsame. apply list_elem_of_here.
  - apply list_fmap_ext. intros i [k r] Hi. unfold prod_map. cbn [fst snd]. f_equal.
    apply Hsame. apply list_elem_of_further.
    apply list_elem_of_fmap. exists (k, r). split; [reflexivity|].
    by eapply list_elem_of_lookup_2.
Qed.

Lemma slots_set_fmap {V W} (f : V -> W) (k : JsString) (v : V) (m : list (JsString * V)) :
  prod_map id f <$> slots_set k v m = slots_set k (f v) (prod_map id f <$> m).
Proof.
  induction m as [|[k' w] m IH]; [reflexivity|].
  cbn [slots_set fmap list_fmap prod_map fst snd id].
  destruct (decide (k' = k)); [reflexivity|].
  cbn [fmap list_fmap prod_map fst snd id]. f_equal. exact IH.
Qed.

Lemma slots_get_fmap {V W} (f : V -> W) (k : JsString) (m : list (JsString * V)) :
  slots_get k (prod_map id f <$> m) = f <$> slots_get k m.
Proof.
  induction m as [|[k' w] m IH]; [reflexivity|].
  cbn [slots_get fmap list_fmap prod_map fst snd id].
  destruct (decide (k' = k)); [reflexivity | exact IH].
Qed.

Lemma slots_keys_fmap {V W} (f : V -> W) (m : list (JsString * V)) :
  slots_keys (prod_map id f <$> m) = slots_keys m.
Proof.
  unfold slots_keys. rewrite <- list_fmap_compose. apply list_fmap_ext.
  by intros i [k w] _.
Qed.

Lemma slots_set_refs (k : JsString) (v : Ref) (m : list (JsString * Ref)) (r : Ref) :
  r ∈ (slots_set k v m).*2 -> r = v \/ r ∈ m.*2.
Proof.
  induction m as [|[k' w] m IH]; cbn [slots_set].
  - intros Hr. left. cbn in Hr. by apply list_elem_of_singleton in Hr.
  - destruct (decide (k' = k)); cbn [fmap list_fmap snd]; intros Hr;
      apply elem_of_cons in Hr as [->|Hr].
    + by left.
    + right. by apply list_elem_of_further.
    + right. apply list_elem_of_here.
    + destruct (IH Hr) as [->|Hm]; [by left|]. right. by apply list_elem_of_further.
Qed.

Lemma slots_get_refs (k : JsString) (m : list (JsString * Ref)) (v : Ref) :
  slots_get k m = Some v -> v ∈ m.*2.
Proof.
  induction m as [|[k' w] m IH]; [done|]. cbn [slots_get].
  destruct (decide (k' = k)).
  - intros [= ->]. apply list_elem_of_here.
  - intros Hg. apply list_elem_of_further. by apply IH.
Qed.

Lemma holds_grow store store' a :
  holds store a -> cells store `prefix_of` cells store' -> holds store' a.
Proof.
  intros Ha Hpre. eapply Forall_impl; [exact Ha|]. intros r Hr. cbn beta in *.
  apply prefix_length in Hpre. lia.
Qed.

Lemma adapter_of_grow store store' a :
  holds store a -> cells store `prefix_of` cells store' ->
  adapter_of store' a = adapter_of store a.
Proof.
  intros Ha Hpre. apply adapter_of_agree. intros r Hr.
  apply contents_prefix; [exact Hpre|].
  unfold holds in Ha. rewrite Forall_forall in Ha. by apply Ha.
Qed.

Lemma holds_fresh store a (r : Ref) :
  holds store a -> (length (cells store) <= r)%nat -> r ∉ owned a.
Proof.
  intros Ha Hr Hin. unfold holds in Ha. rewrite Forall_forall in Ha.
  specialize (Ha r Hin). cbn beta in Ha. lia.
Qed.

(** *** One call

    A call on the store does what the method does on contents; it only adds
    objects to the store; what the adapter keeps afterwards it kept before
    or is new; and the object handed to the caller is new and not kept. *)

Lemma deepClone_run (r : Ref) store :
  deepClone r store
  = (length (cells store),
     {| cells := cells store ++ [contents store r]; generators := generators store |}).
Proof. reflexivity. Qed.

Lemma contents_fresh (objects : list VisibleState) (others : list Z)
    (v : VisibleState) (more : list VisibleState) :
  contents {| cells := objects ++ v :: more; generators := others |} (length objects) = v.
Proof. unfold contents. cbn [cells]. by rewrite lookup_fresh. Qed.

Lemma read_fresh (objects : list VisibleState) (others : list Z) (v : VisibleState) :
  read (length objects) {| cells := objects ++ [v]; generators := others |}
  = (v, {| cells := objects ++ [v]; generators := others |}).
Proof. unfold read. cbn [cells]. by rewrite lookup_fresh. Qed.

Lemma assign_fresh (objects : list VisibleState) (others : list Z) (v : VisibleState)
    (f : VisibleState -> VisibleState) :
  assign (length objects) f {| cells := objects ++ [v]; generators := others |}
  = (tt, {| cells := objects ++ [f v]; generators := others |}).
Proof.
  unfold assign, mbind, Heap_bind. rewrite read_fresh.
  unfold write. cbn [cells generators]. by rewrite insert_fresh.
Qed.

Ltac on_next :=
  repeat (first [rewrite read_fresh | rewrite assign_fresh]; cbv beta iota).

(** The assignments to [next] add up to what [applyMockAction] gives on
    contents. *)
Lemma applyMockAction_run (state : Ref) (actionId : JsString) store :
  match applyMockAction (contents store state) actionId with
  | Normal response =>
      Shared.applyMockAction state actionId store
      = (Normal (length (cells store), action_result response),
         {| cells := cells store ++ [visible_state response];
            generators := generators store |})
  | Throw e =>
      exists given_up,
        Shared.applyMockAction state actionId store
        = (Throw e,
           {| cells := cells store ++ [given_up]; generators := generators store |})
  end.
Proof.
  destruct store as [objects others].
  unfold Shared.applyMockAction, mbind, Heap_bind, mret, Heap_ret.
  rewrite deepClone_run. cbn [cells generators].
  generalize (contents {| cells := objects; generators := others |} state).
  intros v. unfold applyMockAction, mbind, Completion_bind, mret, Completion_ret.
  cbv zeta.
  repeat case_decide; on_next; repeat case_decide; try done; on_next;
    repeat match goal with
           | |- context [findIndex_state ?st ?l] =>
               destruct (findIndex_state st l) as [[targetIndex target]|]; on_next
           end;
    unfold set_investigator_signals;
    cbn [case_id crime_type turn status evidence timeline investigator_signals
         pressure priority demeanour recent_shift];
    repeat match goal with
           | |- context [appendTimeline ?s ?label ?text] =>
               destruct (appendTimeline s label text) as [tl|e]; on_next
           end;
    first [reflexivity | eexists; reflexivity].
Qed.

Lemma holds_slots store a (r : Ref) :
  holds store a -> r ∈ (slot_refs a).*2 -> (r < length (cells store))%nat.
Proof.
  intros Ha Hr. unfold holds in Ha. rewrite Forall_forall in Ha.
  apply Ha. by apply list_elem_of_further.
Qed.

Lemma slots_grow store store' a :
  holds store a -> cells store `prefix_of` cells store' ->
  prod_map id (contents store') <$> slot_refs a
  = prod_map id (contents store) <$> slot_refs a.
Proof.
  intros Ha Hpre. apply (f_equal mock_slots (adapter_of_grow store store' a Ha Hpre)).
Qed.

(** The adapter after its state was replaced by a new object. *)
Lemma state_replaced store store' a (state : Ref) :
  holds store a -> cells store `prefix_of` cells store' ->
  (length (cells store) <= state < length (cells store'))%nat ->
  let a' := {| state_ref := state; slot_refs := slot_refs a |} in
  adapter_of store' a'
  = {| mock_state := contents store' state;
       mock_slots := mock_slots (adapter_of store a) |}
  /\ holds store' a'
  /\ (forall r, r ∈ owned a' -> r ∈ owned a \/ (length (cells store) <= r)%nat)
  /\ (forall r, (length (cells store) <= r)%nat -> r <> state -> r ∉ owned a').
Proof.
  intros Ha Hpre Hstate a'. split; [|split; [|split]].
  - unfold adapter_of, a'. cbn [state_ref slot_refs mock_slots]. f_equal.
    by apply slots_grow.
  - unfold holds, owned, a'. cbn [state_ref slot_refs].
    apply Forall_cons. split; [lia|].
    apply (holds_grow _ store' _) in Ha; [|exact Hpre].
    by apply Forall_cons in Ha as [_ Ha].
  - unfold owned at 1, a'. cbn [state_ref slot_refs].
    intros r Hr. apply elem_of_cons in Hr as [->|Hr]; [right; lia|].
    left. by apply list_elem_of_further.
  - unfold owned, a'. cbn [state_ref slot_refs].
    intros r Hr Hne Hin. apply elem_of_cons in Hin as [->|Hin]; [done|].
    pose proof (holds_slots _ _ _ Ha Hin). lia.
Qed.

Lemma shared_perform_spec (c : Call) a store (reply : Reply) (ref : option Ref)
    a' store' :
  holds store a ->
  shared_perform c a store = (reply, ref, a', store') ->
  perform c (adapter_of store a) = (reply, adapter_of store' a')
  /\ cells store `prefix_of` cells store'
  /\ holds store' a'
  /\ (forall r, r ∈ owned a' -> r ∈ owned a \/ (length (cells store) <= r)%nat)
  /\ (forall r, ref = Some r ->
        (length (cells store) <= r < length (cells store'))%nat /\ r ∉ owned a').
Proof.
  intros Ha. destruct store as [objects others].
  destruct c as [| |request|slotId|slotId|].
  - unfold shared_perform, Shared.getVisibleState, mbind, Heap_bind, mret, Heap_ret.
    rewrite deepClone_run. cbn [cells generators seen].
    unfold mbind, Heap_bind, mret, Heap_ret, read. cbn [cells handed id].
    rewrite lookup_fresh. change (default EMPTY_STATE (Some ?v)) with v.
    intros [= <- <- <- <-].
    set (store' := {| cells := objects ++ _ |}).
    assert (Hpre : objects `prefix_of` cells store') by (by eexists).
    split; [|split; [exact Hpre|split; [|split]]].
    + rewrite (adapter_of_grow _ store' a Ha Hpre). reflexivity.
    + exact (holds_grow _ store' a Ha Hpre).
    + intros r Hr. by left.
    + intros r [= <-]. unfold store'. cbn [cells]. rewrite length_app. cbn [length].
      split; [lia|]. apply (holds_fresh _ _ _ Ha). cbn [cells]. lia.
  - unfold shared_perform, Shared.getActions, mbind, Heap_bind, mret, Heap_ret, read.
    intros [= <- <- <- <-].
    split; [reflexivity|]. split; [reflexivity|]. split; [exact Ha|].
    split; [by left | done].
  - unfold shared_perform, Shared.applyAction, mbind, Heap_bind.
    cbn [perform]. unfold Mock.applyAction.
    change (mock_state (adapter_of ?s a)) with (contents s (state_ref a)).
    pose proof (applyMockAction_run (state_ref a) (action_id request)
                  {| cells := objects; generators := others |}) as Hrun.
    destruct (applyMockAction _ (action_id request)) as [[v result]|e];
      [rewrite Hrun | destruct Hrun as [given_up ->]].
    + rewrite !deepClone_run. cbn [cells generators visible_state action_result].
      rewrite <- !app_assoc. cbn [app]. rewrite !contents_fresh.
      unfold mret, Heap_ret. cbn [fmap Completion_fmap seen].
      unfold mbind, Heap_bind, read, mret, Heap_ret. cbn [cells handed fst].
      rewrite !length_app. cbn [length].
      rewrite (lookup_app_r objects) by lia.
      replace (length objects + 2 - length objects)%nat with 2%nat by lia.
      change (default EMPTY_STATE ([v; v; v] !! 2%nat)) with v.
      intros [= <- <- <- <-].
      set (store' := {| cells := objects ++ _ |}).
      assert (Hpre : objects `prefix_of` cells store') by (by eexists).
      destruct (state_replaced _ store' a (length objects + 1) Ha Hpre)
        as (Hadapter & Hholds & Hold & Hnew).
      { unfold store'. cbn [cells]. rewrite length_app. cbn [length]. lia. }
      split; [|split; [exact Hpre|split; [exact Hholds|split; [exact Hold|]]]].
      * rewrite Hadapter. unfold prod_map. cbn [fst snd id]. do 2 f_equal.
        unfold store', contents. cbn [cells]. rewrite lookup_app_r by lia.
        by replace (length objects + 1 - length objects)%nat with 1%nat by lia.
      * intros r [= <-]. unfold store'. cbn [cells]. rewrite length_app. cbn [length].
        split; [lia|]. apply Hnew; cbn [cells]; lia.
    + unfold mret, Heap_ret. cbn [fmap Completion_fmap seen handed].
      intros [= <- <- <- <-].
      set (store' := {| cells := objects ++ _ |}).
      assert (Hpre : objects `prefix_of` cells store') by (by eexists).
      split; [|split; [exact Hpre|split; [|split]]].
      * rewrite (adapter_of_grow _ store' a Ha Hpre). reflexivity.
      * exact (holds_grow _ store' a Ha Hpre).
      * intros r Hr. by left.
      * done.
  - unfold shared_perform, Shared.saveSlot, mbind, Heap_bind, mret, Heap_ret.
    rewrite deepClone_run. cbn [cells generators].
    intros [= <- <- <- <-].
    set (store' := {| cells := objects ++ _ |}).
    assert (Hpre : objects `prefix_of` cells store') by (by eexists).
    split; [|split; [exact Hpre|split; [|split]]].
    + cbn [perform]. unfold Mock.saveSlot, prod_map. cbn [fst snd id]. f_equal.
      unfold adapter_of. cbn [state_ref slot_refs mock_state mock_slots].
      assert (Hstate : contents store' (state_ref a)
                       = contents {| cells := objects; generators := others |}
                           (state_ref a)).
      { apply contents_prefix; [exact Hpre|].
        unfold holds in Ha. apply Forall_cons in Ha as [Ha _]. exact Ha. }
      rewrite slots_set_fmap, (slots_grow _ store' a Ha Hpre), Hstate. do 2 f_equal.
      symmetry. apply contents_fresh.
    + pose proof (holds_grow _ store' a Ha Hpre) as Ha'.
      unfold holds, owned in *. cbn [state_ref slot_refs].
      apply Forall_cons in Ha' as [Hstate Hslots].
      apply Forall_cons. split; [exact Hstate|].
      apply Forall_forall. intros r Hr. apply slots_set_refs in Hr as [->|Hr].
      * unfold store'. cbn [cells]. rewrite length_app. cbn [length]. lia.
      * rewrite Forall_forall in Hslots. by apply Hslots.
    + unfold owned. cbn [state_ref slot_refs cells]. intros r Hr.
      apply elem_of_cons in Hr as [->|Hr]; [left; apply list_elem_of_here|].
      apply slots_set_refs in Hr as [->|Hr]; [right; lia|].
      left. by apply list_elem_of_further.
    + done.
  - unfold shared_perform, Shared.loadSlot. cbn [perform]. unfold Mock.loadSlot.
    unfold adapter_of at 1. cbn [mock_slots]. rewrite slots_get_fmap.
    destruct (slots_get slotId (slot_refs a)) as [snapshot|] eqn:Eget.
    + assert (Hsnap : (snapshot < length objects)%nat).
      { apply (holds_slots _ a _ Ha). by eapply slots_get_refs. }
      unfold mbind, Heap_bind, mret, Heap_ret.
      rewrite !deepClone_run. cbn [cells generators seen].
      unfold mbind, Heap_bind, read, mret, Heap_ret. cbn [cells handed id].
      rewrite <- !app_assoc. cbn [app].
      rewrite lookup_app_r by (rewrite length_app; cbn [length]; lia).
      rewrite length_app. cbn [length].
      replace (length objects + 1 - length objects)%nat with 1%nat by lia.
      match goal with
      | |- context [[?v; contents ?s snapshot]] =>
          replace (contents s snapshot) with v
            by (symmetry; apply contents_prefix; [by eexists | exact Hsnap])
      end.
      change (default EMPTY_STATE ([?v; _] !! 1%nat)) with v.
      intros [= <- <- <- <-].
      set (store' := {| cells := objects ++ _ |}).
      assert (Hpre : objects `prefix_of` cells store') by (by eexists).
      destruct (state_replaced _ store' a (length objects) Ha Hpre)
        as (Hadapter & Hholds & Hold & Hnew).
      { unfold store'. cbn [cells]. rewrite length_app. cbn [length]. lia. }
      split; [|split; [exact Hpre|split; [exact Hholds|split; [exact Hold|]]]].
      * rewrite Hadapter. unfold prod_map. cbn [fst snd id fmap option_fmap option_map].
        do 2 f_equal. unfold store'. symmetry. apply contents_fresh.
      * intros r [= <-]. unfold store'. cbn [cells]. rewrite length_app. cbn [length].
        split; [lia|]. apply Hnew; cbn [cells]; lia.
    + unfold mbind, Heap_bind, mret, Heap_ret. cbn [seen handed].
      unfold mret, Heap_ret. intros [= <- <- <- <-].
      split; [reflexivity|]. split; [reflexivity|]. split; [exact Ha|].
      split; [by left | done].
  - unfold shared_perform, Shared.listSlots, mbind, Heap_bind, mret, Heap_ret.
    intros [= <- <- <- <-].
    split; [|split; [reflexivity|split; [exact Ha|split; [by left | done]]]].
    cbn [perform]. unfold Mock.listSlots, prod_map. cbn [fst snd id].
    unfold adapter_of at 1. cbn [mock_slots]. by rewrite slots_keys_fmap.
Qed.


(** *** Sessions

    [apart] holds throughout a session: a call keeps it, and so does a
    caller who changes an object it was handed. *)

Lemma apart_invoke store adapters log h b (c : Call) (reply : Reply)
    (ref : option Ref) b' store' :
  apart store adapters log ->
  adapters !! h = Some b ->
  shared_perform c b store = (reply, ref, b', store') ->
  apart store' (<[h := b']> adapters) (log ++ [(h, reply, ref)]).
Proof.
  intros [Hholds Hlog] Hb Hperform.
  destruct (shared_perform_spec c b store reply ref b' store' (Hholds h b Hb) Hperform)
    as (_ & Hpre & Hb' & Hold & Hnew).
  assert (Hlen : (length (cells store) <= length (cells store'))%nat)
    by (by apply prefix_length).
  split.
  - intros h' a Ha. destruct (decide (h' = h)) as [->|Hne].
    + rewrite list_lookup_insert_eq in Ha by (by eapply lookup_lt_Some).
      by injection Ha as <-.
    + rewrite list_lookup_insert_ne in Ha by done.
      eapply holds_grow; [by eapply Hholds | exact Hpre].
  - intros k e r Hk. apply lookup_app_Some in Hk as [Hk|[_ Hk]].
    + destruct (Hlog k e r Hk) as [Hr Hout]. split; [lia|].
      intros h' a Ha Hin. destruct (decide (h' = h)) as [->|Hne].
      * rewrite list_lookup_insert_eq in Ha by (by eapply lookup_lt_Some).
        injection Ha as <-. destruct (Hold r Hin) as [Hin'|Hfresh]; [|lia].
        exact (Hout h b Hb Hin').
      * rewrite list_lookup_insert_ne in Ha by done. exact (Hout h' a Ha Hin).
    + apply list_lookup_singleton_Some in Hk as [_ [= <- ->]].
      destruct (Hnew r eq_refl) as [Hr Hout]. split; [lia|].
      intros h' a Ha Hin. destruct (decide (h' = h)) as [->|Hne].
      * rewrite list_lookup_insert_eq in Ha by (by eapply lookup_lt_Some).
        injection Ha as <-. exact (Hout Hin).
      * rewrite list_lookup_insert_ne in Ha by done.
        apply (holds_fresh store a r); [by eapply Hholds | lia | exact Hin].
Qed.

Lemma contents_write store (ref r : Ref) (v : VisibleState) :
  r <> ref -> contents (write ref v store).2 r = contents store r.
Proof.
  intros Hne. unfold contents, write. cbn [snd cells].
  by rewrite list_lookup_insert_ne by done.
Qed.

(** A caller's change is real: the object it holds has the new contents.
    No adapter sees it ([shared_run_logs]). *)
Lemma assign_lands store (ref : Ref) (f : VisibleState -> VisibleState) :
  (ref < length (cells store))%nat ->
  contents (assign ref f store).2 ref = f (contents store ref).
Proof.
  intros Href. unfold contents, assign, mbind, Heap_bind, read, write.
  cbn [snd cells]. by rewrite list_lookup_insert_eq by exact Href.
Qed.

Lemma apart_mutate store adapters log (ref : Ref) (v : VisibleState) :
  apart store adapters log ->
  apart (write ref v store).2 adapters log.
Proof.
  intros [Hholds Hlog].
  assert (Hlen : length (cells (write ref v store).2) = length (cells store)).
  { unfold write. cbn [snd cells]. apply length_insert. }
  split.
  - intros h a Ha. unfold holds. rewrite Hlen. by eapply Hholds.
  - intros k e r Hk. rewrite Hlen. by eapply Hlog.
Qed.

Lemma logged_for_snoc h (log : list Entry) h' (reply : Reply) (ref : option Ref) :
  logged_for h (log ++ [(h', reply, ref)])
  = logged_for h log ++ (if decide (h' = h) then [reply] else []).
Proof.
  unfold logged_for. rewrite omap_app. f_equal. cbn. by destruct (decide (h' = h)).
Qed.

(** What is logged for an adapter is what it replies on its own to the
    calls made on it. *)
Lemma shared_run_logs (schedule : list Step) store adapters log h a :
  apart store adapters log ->
  adapters !! h = Some a ->
  logged_for h (shared_run store adapters log schedule)
  = logged_for h log ++ run_single (adapter_of store a) (invoked_on h schedule).
Proof.
  revert store adapters log a.
  induction schedule as [|[h' c|k f] rest IH]; intros store adapters log a Hap Ha.
  - cbn. by rewrite app_nil_r.
  - cbn [shared_run]. destruct (adapters !! h') as [b|] eqn:Hb.
    + destruct (shared_perform c b store) as [[[reply ref] b'] store'] eqn:Hperform.
      pose proof (apart_invoke _ _ _ _ _ _ _ _ _ _ Hap Hb Hperform) as Hap'.
      destruct (shared_perform_spec c b store reply ref b' store'
                  (proj1 Hap h' b Hb) Hperform) as (Hsim & Hpre & _).
      unfold invoked_on. cbn [omap list_omap]. fold (invoked_on h rest).
      destruct (decide (h' = h)) as [->|Hne].
      * assert (b = a) as -> by congruence.
        rewrite (IH store' (<[h := b']> adapters) _ b' Hap')
          by (apply list_lookup_insert_eq; by eapply lookup_lt_Some).
        rewrite logged_for_snoc, decide_True by done.
        cbn [run_single]. rewrite Hsim. by rewrite <- app_assoc.
      * rewrite (IH store' (<[h' := b']> adapters) _ a Hap')
          by (by rewrite list_lookup_insert_ne).
        rewrite logged_for_snoc, decide_False, app_nil_r by done.
        by rewrite (adapter_of_grow store store' a (proj1 Hap h a Ha) Hpre).
    + unfold invoked_on. cbn [omap list_omap]. fold (invoked_on h rest).
      destruct (decide (h' = h)) as [->|Hne]; [congruence|].
      by apply IH.
  - cbn [shared_run]. unfold invoked_on. cbn [omap list_omap]. fold (invoked_on h rest).
    destruct (log !! k) as [[[h0 r0] [ref|]]|] eqn:Hk; try (by apply IH).
    change (assign ref f store).2
      with (write ref (f (default EMPTY_STATE (cells store !! ref))) store).2.
    rewrite (IH _ adapters log a (apart_mutate store adapters log ref _ Hap) Ha).
    f_equal. f_equal. apply adapter_of_agree. intros r Hr.
    apply contents_write. intros ->.
    by apply (proj2 (proj2 Hap k (h0, r0) ref Hk) h a Ha).
Qed.

Lemma createMockAdapter_run (seed : Z) store :
  exists value,
    Shared.createMockAdapter seed store
    = ({| state_ref := length (cells store); slot_refs := [] |},
       {| cells := cells store ++ [createInitialMockState seed];
          generators := generators store ++ [value] |}).
Proof.
  destruct (createInitialMockState_alloc seed store) as [value E].
  exists value. unfold Shared.createMockAdapter, mbind, Heap_bind. by rewrite E.
Qed.

(** Every adapter is created as [createMockAdapter] says, whatever was
    created before it and after it. *)
Lemma create_all_spec (seeds : list Z) store adapters store' :
  create_all seeds store = (adapters, store') ->
  cells store `prefix_of` cells store'
  /\ Forall2 (fun seed a => holds store' a /\ adapter_of store' a = createMockAdapter seed)
       seeds adapters.
Proof.
  revert store adapters store'.
  induction seeds as [|seed rest IH]; intros store adapters store'.
  - intros [= <- <-]. split; [reflexivity | constructor].
  - cbn [create_all]. unfold mbind at 1, Heap_bind at 1.
    destruct (createMockAdapter_run seed store) as [value ->].
    set (store1 := {| cells := cells store ++ _ |}).
    unfold mbind, Heap_bind.
    destruct (create_all rest store1) as [others store2] eqn:Erest.
    intros [= <- <-].
    destruct (IH _ _ _ Erest) as [Hpre Hall].
    assert (Hpre1 : cells store `prefix_of` cells store1) by (by eexists).
    split; [by etrans|].
    constructor; [|exact Hall].
    set (a := {| state_ref := length (cells store) |}).
    assert (Ha : holds store1 a).
    { apply Forall_cons. split; [|constructor].
      unfold a, store1. cbn [state_ref cells]. rewrite length_app. cbn [length]. lia. }
    split; [exact (holds_grow _ _ _ Ha Hpre)|].
    rewrite (adapter_of_grow _ _ _ Ha Hpre).
    unfold adapter_of, createMockAdapter, a, store1.
    cbn [state_ref slot_refs fmap list_fmap]. f_equal.
    destruct store as [objects generators]. apply contents_fresh.
Qed.

Lemma visible_states_applies_length (a : MockAdapter) (A : list JsString) :
  length (visible_states
            (run_single a ((fun x => CallApplyAction {| action_id := x |}) <$> A)))
  = length A.
Proof.
  revert a. induction A as [|x A IH]; intros a; [reflexivity|].
  rewrite fmap_cons. simpl run_single.
  destruct (Mock.applyAction {| action_id := x |} a) as [r a'].
  simpl. f_equal. apply IH.
Qed.

Lemma visible_states_replay_length (a : MockAdapter) (A : list JsString) :
  length (visible_states (run_single a (replay_calls A))) = Datatypes.S (length A).
Proof.
  unfold replay_calls. simpl. f_equal. apply visible_states_applies_length.
Qed.

(** C1. Two mock engine instances created from the same seed and driven
    through the same sequence of action ids hand out the same sequence of
    visible states, the initial one read by getVisibleState included.  The
    instances are objects in one store, created among any number of others;
    their calls may be interleaved with one another and with calls on the
    others in any order, and the callers may change, at any time and in any
    way, the objects they were handed.  Each sequence is the one
    [createMockAdapter] produces on contents alone. *)
Theorem mock_replay_deterministic
    (S : Z) (A : list JsString) (seeds : list Z) (schedule : list Step) (h1 h2 : nat) :
  seeds !! h1 = Some S ->
  seeds !! h2 = Some S ->
  invoked_on h1 schedule = replay_calls A ->
  invoked_on h2 schedule = replay_calls A ->
  let log := shared_session seeds schedule in
  visible_states (logged_for h1 log) = visible_states (logged_for h2 log)
  /\ visible_states (logged_for h1 log)
     = visible_states (run_single (createMockAdapter S) (replay_calls A))
  /\ length (visible_states (logged_for h1 log)) = Datatypes.S (length A).
Proof.
  intros Hs1 Hs2 Hc1 Hc2 log. unfold log, shared_session.
  destruct (create_all seeds _) as [adapters store] eqn:Ecreate.
  destruct (create_all_spec _ _ _ _ Ecreate) as [_ Hall].
  assert (Hap : apart store adapters []).
  { split; [|done]. intros h a Ha.
    destruct (Forall2_lookup_r _ _ _ _ _ Hall Ha) as (seed & _ & Hholds & _).
    exact Hholds. }
  assert (Hlogged : forall h, seeds !! h = Some S ->
            invoked_on h schedule = replay_calls A ->
            logged_for h (shared_run store adapters [] schedule)
            = run_single (createMockAdapter S) (replay_calls A)).
  { intros h Hs Hc.
    destruct (Forall2_lookup_l _ _ _ _ _ Hall Hs) as (a & Ha & _ & Hadapter).
    by rewrite (shared_run_logs schedule store adapters [] h a Hap Ha), Hadapter, Hc. }
  rewrite (Hlogged h1 Hs1 Hc1), (Hlogged h2 Hs2 Hc2).
  split; [reflexivity|]. split; [reflexivity|].
  apply visible_states_replay_length.
Qed.

Lemma mock_replay_deterministic_witness :
  let A := [js "remove_evidence"; js "seal_archive"; js "unknown_action"] in
  let schedule :=
    [ Invoke 0 CallGetVisibleState;
      Mutate 0 raise_turn;
      Invoke 1 (CallSaveSlot (js "page-a"));
      Invoke 2 CallGetVisibleState;
      Invoke 2 (CallApplyAction {| action_id := js "remove_evidence" |});
      Mutate 3 raise_turn;
      Invoke 0 (CallApplyAction {| action_id := js "remove_evidence" |});
      Invoke 1 (CallApplyAction {| action_id := js "delay_briefing" |});
      Mutate 4 raise_turn;
      Invoke 0 (CallApplyAction {| action_id := js "seal_archive" |});
      Invoke 0 (CallApplyAction {| action_id := js "unknown_action" |});
      Mutate 2 raise_turn;
      Invoke 2 (CallApplyAction {| action_id := js "seal_archive" |});
      Invoke 2 (CallApplyAction {| action_id := js "unknown_action" |}) ] in
  let log := shared_session [42; 7; 42] schedule in
  visible_states (logged_for 0 log) = visible_states (logged_for 2 log)
  /\ visible_states (logged_for 0 log)
     = visible_states (run_single (createMockAdapter 42) (replay_calls A))
  /\ length (visible_states (logged_for 0 log)) = 4%nat.
Proof.
  intros A schedule.
  apply (mock_replay_deterministic 42 A [42; 7; 42] schedule 0 2); reflexivity.
Defined.

End Determinism.

Section SnapshotStore.

Context `{JsRuntime}.

Implicit Types (m : SlotMap) (name slotId : JsString).

Lemma slots_get_set_ne m name slotId (v : VisibleState) :
  slotId <> name -> slots_get name (slots_set slotId v m) = slots_get name m.
Proof.
  intros Hne. induction m as [|[k w] m IH]; simpl.
  - by rewrite decide_False.
  - destruct (decide (k = slotId)) as [->|Hk]; simpl.
    + by rewrite !decide_False.
    + destruct (decide (k = name)); [reflexivity | exact IH].
Qed.

Lemma slots_get_set_eq m slotId (v : VisibleState) :
  slots_get slotId (slots_set slotId v m) = Some v.
Proof.
  induction m as [|[k w] m IH]; simpl.
  - by rewrite decide_True.
  - destruct (decide (k = slotId)) as [->|Hk]; simpl.
    + by rewrite decide_True.
    + by rewrite decide_False.
Qed.

Lemma slots_keys_set m slotId (v : VisibleState) name :
  name ∈ slots_keys (slots_set slotId v m) <-> name = slotId \/ name ∈ slots_keys m.
Proof.
  unfold slots_keys. induction m as [|[k w] m IH]; simpl.
  - rewrite list_elem_of_singleton. split; [auto|].
    intros [?|Hn]; [assumption | by apply elem_of_nil in Hn].
  - destruct (decide (k = slotId)) as [->|Hk]; simpl; rewrite !elem_of_cons.
    + tauto.
    + rewrite IH. tauto.
Qed.

(** A name the store has never been asked to save has no snapshot. *)
Lemma mock_never_saved (a : MockAdapter) (cs : list Call) name :
  slots_get name (mock_slots a) = None ->
  CallSaveSlot name ∉ cs ->
  slots_get name (mock_slots (after a cs)) = None.
Proof.
  revert a. induction cs as [|c cs IH]; intros a Ha Hcs; [exact Ha|].
  unfold after. simpl foldl. apply IH.
  - destruct c; simpl; try exact Ha.
    + unfold Mock.applyAction.
      destruct (applyMockAction _ _); simpl; exact Ha.
    + rewrite slots_get_set_ne; [exact Ha|].
      intros ->. apply Hcs. left.
    + unfold Mock.loadSlot. destruct (slots_get slotId _); simpl; exact Ha.
  - intros Hin. apply Hcs. by right.
Qed.

Lemma live_never_saved (a : LiveAdapter) (cs : list LiveCall) name :
  slots_get name (live_slots a) = None ->
  LiveSaveSlot name ∉ cs ->
  slots_get name (live_slots (live_after a cs)) = None.
Proof.
  revert a. induction cs as [|c cs IH]; intros a Ha Hcs; [exact Ha|].
  unfold live_after. simpl foldl. apply IH.
  - destruct c; simpl; try exact Ha.
    + unfold Live.getVisibleState.
      destruct fetched as [payload|]; [|exact Ha].
      destruct (sanitizeVisibleState payload); exact Ha.
    + unfold Live.getActions. destruct fetched; simpl; exact Ha.
    + unfold Live.applyAction.
      destruct fetched as [raw|]; [|exact Ha].
      destruct raw; try exact Ha; destruct (sanitizeVisibleState _); exact Ha.
    + unfold Live.saveSlot. destruct (live_current a); simpl; [|exact Ha].
      rewrite slots_get_set_ne; [exact Ha|].
      intros ->. apply Hcs. left.
    + unfold Live.loadSlot. destruct (slots_get slotId _); simpl; exact Ha.
  - intros Hin. apply Hcs. by right.
Qed.

(** C9. Loading a slot name under which nothing was ever saved is reported
    as an EngineAdapterError with the unknown-slot message, on the mock and on
    the live adapter alike, after any history of calls that holds no saveSlot
    of that name; the adapter is left exactly as it was, working state and
    slots. *)
Theorem loadSlot_unknown
    (seed : Z) (apiBase : JsString) (history : list Call)
    (live_history : list LiveCall) (name : JsString) :
  CallSaveSlot name ∉ history ->
  LiveSaveSlot name ∉ live_history ->
  let a := after (createMockAdapter seed) history in
  let b := live_after (createLiveAdapter apiBase) live_history in
  Mock.loadSlot name a = (Throw (EngineAdapterError (unknown_slot_message name)), a)
  /\ Live.loadSlot name b = (Throw (EngineAdapterError (unknown_slot_message name)), b).
Proof.
  intros Hm Hl a b. subst a b. split.
  - unfold Mock.loadSlot.
    by rewrite (mock_never_saved (createMockAdapter seed) history name).
  - unfold Live.loadSlot.
    by rewrite (live_never_saved (createLiveAdapter apiBase) live_history name).
Qed.

Lemma array_from_set_acc (acc l : list JsString) (x : JsString) :
  x ∈ foldl (fun acc x => if decide (x ∈ acc) then acc else acc ++ [x]) acc l
  <-> x ∈ acc \/ x ∈ l.
Proof.
  revert acc. induction l as [|y l IH]; intros acc; simpl.
  - split; [auto|]. intros [?|Hn]; [assumption | by apply elem_of_nil in Hn].
  - rewrite IH, elem_of_cons. destruct (decide (y ∈ acc)) as [Hy|Hy].
    + split; [tauto|]. intros [?|[->|?]]; auto.
    + rewrite elem_of_app, list_elem_of_singleton. tauto.
Qed.

Lemma array_from_set_NoDup (acc l : list JsString) :
  NoDup acc ->
  NoDup (foldl (fun acc x => if decide (x ∈ acc) then acc else acc ++ [x]) acc l).
Proof.
  revert acc. induction l as [|y l IH]; intros acc Hacc; simpl; [exact Hacc|].
  apply IH. destruct (decide (y ∈ acc)) as [Hy|Hy]; [exact Hacc|].
  apply NoDup_app. split; [exact Hacc|]. split.
  - intros x Hx Hx'. apply list_elem_of_singleton in Hx'. by subst.
  - apply NoDup_singleton.
Qed.

Lemma array_from_set_prefix (acc l : list JsString) :
  acc `prefix_of`
    foldl (fun acc x => if decide (x ∈ acc) then acc else acc ++ [x]) acc l.
Proof.
  revert acc. induction l as [|y l IH]; intros acc; simpl; [reflexivity|].
  destruct (decide (y ∈ acc)); [apply IH|].
  etrans; [|apply IH]. by apply prefix_app_r.
Qed.

Lemma mock_saved_names (a : MockAdapter) (cs : list Call) name :
  name ∈ slots_keys (mock_slots (after a cs))
  <-> name ∈ slots_keys (mock_slots a) \/ CallSaveSlot name ∈ cs.
Proof.
  revert a. induction cs as [|c cs IH]; intros a.
  - simpl. split; [auto|]. intros [?|Hn]; [assumption | by apply elem_of_nil in Hn].
  - unfold after. simpl foldl. fold (after (perform c a).2 cs).
    rewrite IH, elem_of_cons.
    destruct c; simpl;
      try (split; [intros [?|?]; auto | intros [?|[?|?]]; auto; discriminate]).
    + unfold Mock.applyAction. destruct (applyMockAction _ _); simpl;
        (split; [intros [?|?]; auto | intros [?|[?|?]]; auto; discriminate]).
    + rewrite slots_keys_set. split.
      * intros [[->|?]|?]; auto.
      * intros [?|[E|?]]; auto. injection E as ->. auto.
    + unfold Mock.loadSlot. destruct (slots_get slotId _); simpl;
        (split; [intros [?|?]; auto | intros [?|[?|?]]; auto; discriminate]).
Qed.

(** X14. On the mock adapter, after any calls, listSlots returns the three
    default names first and then every other name that was saved, each once;
    a name is listed exactly when it is a default name or was saved.  The
    call leaves the adapter as it is. *)
Lemma mock_listSlots_merged (seed : Z) (history : list Call) :
  exists names,
    Mock.listSlots (after (createMockAdapter seed) history)
      = (Normal names, after (createMockAdapter seed) history)
    /\ NoDup names
    /\ DEFAULT_SLOTS `prefix_of` names
    /\ forall name, name ∈ names <-> name ∈ DEFAULT_SLOTS \/ CallSaveSlot name ∈ history.
Proof.
  exists (array_from_set
            (DEFAULT_SLOTS
               ++ slots_keys (mock_slots (after (createMockAdapter seed) history)))).
  split; [reflexivity|]. unfold array_from_set.
  split; [|split].
  - apply array_from_set_NoDup. constructor.
  - rewrite foldl_app. change (foldl _ [] DEFAULT_SLOTS) with DEFAULT_SLOTS.
    apply array_from_set_prefix.
  - intros name. rewrite array_from_set_acc, elem_of_app, mock_saved_names.
    simpl. rewrite elem_of_nil. tauto.
Qed.

(** The live adapter answers listSlots with the default names only. *)
Lemma live_listSlots_defaults (a : LiveAdapter) :
  Live.listSlots a = (Normal DEFAULT_SLOTS, a).
Proof. reflexivity. Qed.

End SnapshotStore.

Lemma loadSlot_unknown_witness :
  let history :=
    [CallSaveSlot (js "page-a");
     CallApplyAction {| action_id := js "reframe_priority" |};
     CallLoadSlot (js "page-a")] in
  let live_history :=
    [LiveGetVisibleState (Normal JNull); LiveSaveSlot (js "page-a")] in
  let a := after (createMockAdapter 42) history in
  let b := live_after (createLiveAdapter (js "http://localhost:8000")) live_history in
  Mock.loadSlot (js "page-z") a
    = (Throw (EngineAdapterError (unknown_slot_message (js "page-z"))), a)
  /\ Live.loadSlot (js "page-z") b
    = (Throw (EngineAdapterError (unknown_slot_message (js "page-z"))), b).
Proof.
  intros history live_history.
  apply (loadSlot_unknown 42 (js "http://localhost:8000") history live_history
           (js "page-z")).
  - intros Hin. unfold history in Hin.
    repeat (apply elem_of_cons in Hin as [Hin|Hin]; [vm_compute in Hin; discriminate|]).
    by apply elem_of_nil in Hin.
  - intros Hin. unfold live_history in Hin.
    repeat (apply elem_of_cons in Hin as [Hin|Hin]; [vm_compute in Hin; discriminate|]).
    by apply elem_of_nil in Hin.
Defined.

(** C8. listSlots does not merge the saved names on the live adapter: after
    a state has been fetched and saved under "page-z", the snapshot is there
    (loadSlot returns it), yet listSlots answers with the three default names
    alone; the mock adapter lists "page-z" after the same save. *)
Theorem live_listSlots_omits_saved :
  let b := live_after (createLiveAdapter (js "http://localhost:8000"))
             [LiveGetVisibleState (Normal JNull); LiveSaveSlot (js "page-z")] in
  let a := after (createMockAdapter 1) [CallSaveSlot (js "page-z")] in
  sanitizeVisibleState JNull = Normal EMPTY_STATE
  /\ (Live.loadSlot (js "page-z") b).1 = Normal EMPTY_STATE
  /\ (Live.listSlots b).1 = Normal [js "page-a"; js "page-b"; js "page-c"]
  /\ (Mock.listSlots a).1
     = Normal [js "page-a"; js "page-b"; js "page-c"; js "page-z"].
Proof.
  vm_compute. repeat split; reflexivity.
Qed.

Section Sanitizer.

Context `{JsRuntime}.

(** *** Timeline length *)

Lemma ToString_converts (v : JsValue) :
  if converts v then exists text, ToString v = Normal text
  else ToString v = Throw TypeError.
Proof.
  revert v. fix IH 1. intros [| | b | n | text | items | fields];
    try (cbn; by eexists).
  - cbn [converts ToString].
    induction items as [|x items IHitems]; [cbn; by eexists|].
    cbn [forallb].
    assert (Hx : if converts x
                 then exists first,
                        match x with
                        | JUndefined | JNull => Normal []
                        | _ => ToString x
                        end = Normal first
                 else match x with
                      | JUndefined | JNull => Normal []
                      | _ => ToString x
                      end = Throw TypeError).
    { pose proof (IH x) as Hx.
      destruct x; try exact Hx; cbn; by eexists. }
    destruct (converts x); cbn [andb].
    + destruct Hx as [first ->].
      destruct (forallb converts items).
      * destruct IHitems as [rest Hrest].
        destruct items; [by eexists|]. rewrite Hrest. by eexists.
      * destruct items; [discriminate|]. by rewrite IHitems.
    + by rewrite Hx.
  - cbn. destruct (hasOwn fields "toString"); cbn; [reflexivity | by eexists].
Qed.

Lemma ToNumber_converts (v : JsValue) :
  if converts v then exists rawTurn, ToNumber v = Normal rawTurn
  else ToNumber v = Throw TypeError.
Proof.
  pose proof (ToString_converts v) as Hs.
  destruct v; try (cbn; by eexists).
  - unfold ToNumber. destruct (converts (JArray items)).
    + destruct Hs as [text ->]. by eexists.
    + by rewrite Hs.
  - cbn. destruct (hasOwn fields "toString"); cbn; [reflexivity | by eexists].
Qed.

(** The sanitizer returns for a turn that converts, and throws the TypeError
    of the conversion for one that does not. *)
Lemma sanitizeVisibleState_returns (input : JsValue) :
  converts (get input "turn") = true ->
  exists rawTurn o,
    ToNumber (get input "turn") = Normal rawTurn
    /\ sanitizeVisibleState input = Normal o.
Proof.
  intros Hc. pose proof (ToNumber_converts (get input "turn")) as Hn.
  rewrite Hc in Hn. destruct Hn as [rawTurn Hn].
  exists rawTurn. unfold sanitizeVisibleState. rewrite Hn. by eexists.
Qed.

Lemma sanitizeVisibleState_throws (input : JsValue) :
  converts (get input "turn") = false ->
  sanitizeVisibleState input = Throw TypeError.
Proof.
  intros Hc. pose proof (ToNumber_converts (get input "turn")) as Hn.
  rewrite Hc in Hn. unfold sanitizeVisibleState. by rewrite Hn.
Qed.

(** C2 (amended). Where the turn of the input converts to a number, the
    sanitizer returns a state whose timeline has one entry for each element
    of the input's timeline array, however many there are, and none when
    that field is not an array; the sanitizer does not cap it.  The evidence
    is treated alike. *)
Theorem sanitizeVisibleState_timeline_length (input : JsValue) :
  converts (get input "turn") = true ->
  exists o,
    sanitizeVisibleState input = Normal o
    /\ length (timeline o) = length (arrayOrEmpty (get input "timeline"))
    /\ length (evidence o) = length (arrayOrEmpty (get input "evidence")).
Proof.
  intros Hc.
  destruct (sanitizeVisibleState_returns input Hc) as (rawTurn & o & Hn & E).
  exists o. split; [exact E|].
  unfold sanitizeVisibleState in E. rewrite Hn in E. injection E as <-.
  cbn [timeline evidence]. by rewrite !length_imap.
Qed.

(** *** Substrings *)

Lemma startsWith_spec (needle hay : JsString) :
  startsWith needle hay = true <-> exists post, hay = needle ++ post.
Proof.
  revert hay. induction needle as [|a needle IH]; intros hay; simpl.
  - split; [intros _; by exists hay | done].
  - destruct hay as [|b hay].
    + split; [done | intros [post E]; discriminate].
    + rewrite andb_true_iff, N.eqb_eq, IH. split.
      * intros [-> [post ->]]. by exists post.
      * intros [post E]. injection E as -> ->. split; [done | by exists post].
Qed.

Lemma includes_spec (hay needle : JsString) :
  includes hay needle = true <-> occurs_in needle hay.
Proof.
  unfold occurs_in. induction hay as [|b hay IH]; simpl.
  - rewrite orb_false_r, startsWith_spec. split.
    + intros [post E]. by exists [], post.
    + intros (pre & post & E). symmetry in E.
      apply app_eq_nil in E as [-> E]. exists post. by rewrite E.
  - rewrite orb_true_iff, startsWith_spec, IH. split.
    + intros [[post E] | (pre & post & E)].
      * by exists [], post.
      * exists (b :: pre), post. by rewrite E.
    + intros ([|c pre] & post & E).
      * left. by exists post.
      * right. injection E as _ E. by exists pre, post.
Qed.

(** *** Descriptors *)

(** The candidate [sanitizeDescriptor] examines for a string input. *)
Lemma sanitizeDescriptor_candidate (value fallback : JsString) :
  normalize value <> [] ->
  clampText (JString value) fallback 64 false = take 64 (normalize value).
Proof.
  intros Hn. unfold clampText. by rewrite bool_decide_false.
Qed.

(** C4 (amended). [sanitizeDescriptor] returns the supplied fallback whenever
    the candidate it examines holds a digit or one of the substrings "seed",
    "rng", "debug", "belief", "hypothesis".  For a string input the candidate
    is made of the first 64 units of the trimmed, white-space-collapsed
    input, lower-cased, with white space turned into underscores: what lies
    beyond the 64th unit is cut off before the checks, digit or not. *)
Theorem sanitizeDescriptor_fallback (value fallback : JsString) :
  let candidate :=
    replaceWhiteSpace (js "_") (toLowerCase (take 64 (normalize value))) in
  (exists c, c ∈ candidate /\ (48 <= c <= 57)%N)
  \/ (exists token, token ∈ descriptor_tokens /\ occurs_in token candidate) ->
  sanitizeDescriptor (JString value) fallback = fallback.
Proof.
  intros candidate Hc.
  assert (Hn : normalize value <> []).
  { intros E. unfold candidate in Hc. rewrite E in Hc. simpl in Hc.
    rewrite toLowerCase_ascii in Hc by constructor. simpl in Hc.
    destruct Hc as [(c & Hc & _) | (token & Ht & pre & post & E')].
    - by apply elem_of_nil in Hc.
    - symmetry in E'. apply app_eq_nil in E' as [_ E'].
      apply app_eq_nil in E' as [-> _].
      unfold descriptor_tokens in Ht.
      repeat (apply elem_of_cons in Ht as [Ht|Ht]; [discriminate|]).
      by apply elem_of_nil in Ht. }
  unfold sanitizeDescriptor. rewrite (sanitizeDescriptor_candidate _ _ Hn).
  fold candidate.
  destruct Hc as [(c & Hc & Hd) | (token & Ht & Hocc)].
  - assert (E : existsb isDigit candidate = true).
    { apply existsb_exists. exists c. split; [by apply list_elem_of_In|].
      unfold isDigit, in_range. apply andb_true_iff.
      split; apply N.leb_le; lia. }
    by rewrite E.
  - destruct (existsb isDigit candidate); [reflexivity|].
    apply includes_spec in Hocc.
    unfold descriptor_tokens in Ht.
    repeat (apply elem_of_cons in Ht as [->|Ht];
            [rewrite Hocc, ?orb_true_r; reflexivity|]).
    by apply elem_of_nil in Ht.
Qed.

End Sanitizer.

(** C2 (counterexample). An input with thirteen timeline entries is
    sanitized to a state with thirteen timeline entries. *)
Lemma sanitizeVisibleState_timeline_uncapped :
  exists o,
    sanitizeVisibleState thirteen_events = Normal o
    /\ ~ (length (timeline o) <= 12)%nat.
Proof.
  eexists. split; [vm_compute; reflexivity|].
  cbn [timeline length]. lia.
Qed.

Lemma sanitizeVisibleState_timeline_length_witness :
  converts (get thirteen_events "turn") = true
  /\ exists o,
       sanitizeVisibleState thirteen_events = Normal o
       /\ length (timeline o) = 13%nat.
Proof.
  assert (Hc : converts (get thirteen_events "turn") = true) by reflexivity.
  split; [exact Hc|].
  destruct (sanitizeVisibleState_timeline_length thirteen_events Hc)
    as (o & E & Hl & _).
  exists o. split; [exact E|]. rewrite Hl. reflexivity.
Defined.

Lemma sanitizeDescriptor_fallback_witness :
  sanitizeDescriptor (JString (js "  Case SEED  7 ")) (js "uncertain") = js "uncertain".
Proof.
  apply (sanitizeDescriptor_fallback (js "  Case SEED  7 ") (js "uncertain")).
  left. exists 55%N. split; [|lia]. vm_compute. repeat constructor.
Defined.

(** C4 (counterexample). A digit that sits beyond the 64th unit of the input
    does not lead to the fallback: the sixty-four letters before it are
    returned. *)
Lemma sanitizeDescriptor_digit_beyond_limit :
  (exists c, c ∈ long_descriptor /\ (48 <= c <= 57)%N)
  /\ sanitizeDescriptor (JString long_descriptor) (js "uncertain") = replicate 64 97%N
  /\ sanitizeDescriptor (JString long_descriptor) (js "uncertain") <> js "uncertain".
Proof.
  split; [|split].
  - exists 49%N. split; [|lia].
    unfold long_descriptor. apply elem_of_app. right. vm_compute. left.
  - vm_compute. reflexivity.
  - vm_compute. discriminate.
Qed.

Ltac unfold_classes :=
  unfold isWordAt, isWordChar, isDigit, isWhiteSpace, ascii_lower, in_range in *.

Ltac class_props :=
  unfold is_ascii, isWordAt, isWordChar, isDigit, isWhiteSpace, in_range in *;
  rewrite ?orb_true_iff, ?andb_true_iff, ?orb_false_iff, ?andb_false_iff,
    ?N.leb_le, ?N.leb_gt, ?N.eqb_eq, ?N.eqb_neq in *;
  lia.

Ltac solve_class :=
  unfold_classes;
  repeat match goal with
         | |- context [(?a <=? ?b)%N] => destruct (N.leb_spec a b)
         | |- context [(?a <? ?b)%N] => destruct (N.ltb_spec a b)
         | |- context [(?a =? ?b)%N] => destruct (N.eqb_spec a b)
         | H : context [(?a <=? ?b)%N] |- _ => destruct (N.leb_spec a b)
         | H : context [(?a <? ?b)%N] |- _ => destruct (N.ltb_spec a b)
         | H : context [(?a =? ?b)%N] |- _ => destruct (N.eqb_spec a b)
         end;
  simpl in *; try discriminate; try reflexivity; try lia.

Section Matcher.

Implicit Types (r : Regex) (prev : option N) (s : JsString) (k : Continuation).

Lemma plusLoop_spec (p : N -> bool) s k prev :
  plusLoop p s k = true
  <-> exists prev' s', Matches (RPlus p) prev s prev' s' /\ k prev' s' = true.
Proof.
  induction s as [|c s IH]; simpl.
  - split; [done|]. intros (? & ? & (? & ? & ? & _) & _). discriminate.
  - rewrite andb_true_iff, orb_true_iff, IH. split.
    + intros [Hc [(p' & s' & (d & ds & -> & Hds & ->) & Hk) | Hk]].
      * exists (last (c :: d :: ds)), s'. split; [|exact Hk].
        exists c, (d :: ds). split; [reflexivity|]. split; [|reflexivity].
        by constructor.
      * exists (Some c), s. split; [|exact Hk].
        exists c, []. split; [reflexivity|]. split; [|reflexivity].
        by repeat constructor.
    + intros (p' & s' & (d & ds & E & Hds & ->) & Hk).
      injection E as <- ->. apply Forall_cons in Hds as [Hc Hds].
      split; [exact Hc|]. destruct ds as [|d ds].
      * right. exact Hk.
      * left. exists (last (d :: ds)), s'. split; [|exact Hk].
        exists d, ds. split; [reflexivity|]. split; [exact Hds | reflexivity].
Qed.

(** The matcher finds a match that its continuation accepts exactly when
    there is one. *)
Lemma matchRegex_spec r prev s k :
  matchRegex r prev s k = true
  <-> exists prev' s', Matches r prev s prev' s' /\ k prev' s' = true.
Proof.
  revert prev s k. induction r as [p | a IHa b IHb | a IHa b IHb | a IHa | p |];
    intros prev s k; simpl.
  - destruct s as [|c s].
    + split; [done|]. intros (? & ? & (? & ? & _) & _). discriminate.
    + rewrite andb_true_iff. split.
      * intros [Hp Hk]. exists (Some c), s. split; [|exact Hk]. by exists c.
      * intros (p' & s' & (c' & E & Hp & ->) & Hk). injection E as <- <-. done.
  - rewrite IHa. split.
    + intros (p1 & s1 & Ha & Hb). apply IHb in Hb as (p2 & s2 & Hb & Hk).
      exists p2, s2. split; [|exact Hk]. by exists p1, s1.
    + intros (p2 & s2 & (p1 & s1 & Ha & Hb) & Hk).
      exists p1, s1. split; [exact Ha|]. apply IHb. by exists p2, s2.
  - rewrite orb_true_iff, IHa, IHb. split.
    + intros [(p' & s' & Hm & Hk) | (p' & s' & Hm & Hk)];
        exists p', s'; (split; [|exact Hk]); [by left | by right].
    + intros (p' & s' & [Hm|Hm] & Hk); [left | right]; by exists p', s'.
  - rewrite orb_true_iff, IHa. split.
    + intros [(p' & s' & Hm & Hk) | Hk].
      * exists p', s'. split; [by left | exact Hk].
      * exists prev, s. split; [by right | exact Hk].
    + intros (p' & s' & [Hm | [-> ->]] & Hk); [left; by exists p', s' | by right].
  - apply (plusLoop_spec p s k prev).
  - rewrite andb_true_iff. split.
    + intros [Hx Hk]. by exists prev, s.
    + intros (p' & s' & (Hx & -> & ->) & Hk). done.
Qed.

Lemma testFrom_spec r prev s :
  testFrom r prev s = true
  <-> exists pre rest prev' s',
        s = pre ++ rest /\ Matches r (before prev pre) rest prev' s'.
Proof.
  revert prev. induction s as [|c s IH]; intros prev; simpl.
  - rewrite orb_false_r, matchRegex_spec. split.
    + intros (p' & s' & Hm & _). by exists [], [], p', s'.
    + intros (pre & rest & p' & s' & E & Hm). symmetry in E.
      apply app_eq_nil in E as [-> ->]. by exists p', s'.
  - rewrite orb_true_iff, matchRegex_spec, IH. split.
    + intros [(p' & s' & Hm & _) | (pre & rest & p' & s' & -> & Hm)].
      * by exists [], (c :: s), p', s'.
      * exists (c :: pre), rest, p', s'. split; [reflexivity|].
        unfold before in *. rewrite last_cons. by destruct (last pre).
    + intros ([|c' pre] & rest & p' & s' & E & Hm).
      * left. simpl in E. subst rest. by exists p', s'.
      * right. injection E as <- ->. exists pre, rest, p', s'.
        split; [reflexivity|]. unfold before in *. rewrite last_cons in Hm.
        by destruct (last pre).
Qed.

Lemma test_spec r s :
  test r s = true
  <-> exists pre rest prev' s', s = pre ++ rest /\ Matches r (last pre) rest prev' s'.
Proof.
  unfold test. rewrite testFrom_spec.
  split; intros (pre & rest & p' & s' & E & Hm); exists pre, rest, p', s';
    (split; [exact E|]); unfold before in *; by destruct (last pre).
Qed.

(** *** The restricted-text pattern *)

Lemma isDigit_spec (c : N) : isDigit c = true <-> (48 <= c <= 57)%N.
Proof. split; intros Hc; solve_class. Qed.

Lemma unitI_letter (x c : N) :
  lower_letter c ->
  (x <? 128)%N && (ascii_lower x =? ascii_lower c)%N = true <-> ascii_lower x = c.
Proof. unfold lower_letter. intros Hc. split; intros Hx; solve_class. Qed.

Lemma lower_letter_word (x c : N) :
  lower_letter c -> ascii_lower x = c -> isWordChar x = true.
Proof. unfold lower_letter. intros Hc Hx. solve_class. Qed.

Lemma Matches_RWordI (token : JsString) prev s prev' s' :
  token <> [] -> Forall lower_letter token ->
  Matches (RWordI token) prev s prev' s'
  <-> exists w, s = w ++ s' /\ ascii_lower <$> w = token /\ prev' = last w.
Proof.
  intros Hne Hl. revert prev s. induction token as [|c token IH]; [done|].
  intros prev s. apply Forall_cons in Hl as [Hc Hl].
  destruct token as [|d token].
  - simpl. split.
    + intros (x & -> & Hx & ->). apply (unitI_letter x c Hc) in Hx.
      exists [x]. simpl. by rewrite Hx.
    + intros (w & -> & Hw & ->).
      destruct w as [|x [|y w]]; try discriminate.
      injection Hw as Hx. exists x. split; [reflexivity|].
      split; [by apply unitI_letter | reflexivity].
  - change (RWordI (c :: d :: token)) with (RSeq (RUnitI c) (RWordI (d :: token))).
    cbn [Matches]. split.
    + intros (p1 & s1 & (x & -> & Hx & ->) & Hm).
      apply (unitI_letter x c Hc) in Hx.
      apply IH in Hm as (w & -> & Hw & ->); [|done | exact Hl].
      exists (x :: w). split; [reflexivity|]. split.
      * by rewrite fmap_cons, Hx, Hw.
      * destruct w; [discriminate | reflexivity].
    + intros (w & -> & Hw & ->). destruct w as [|x w]; [discriminate|].
      injection Hw as Hx Hw.
      exists (Some x), (w ++ s'). split.
      * exists x. split; [reflexivity|]. split; [by apply unitI_letter | reflexivity].
      * apply IH; [done | exact Hl |]. exists w. split; [reflexivity|].
        split; [exact Hw|]. destruct w; [discriminate | reflexivity].
Qed.

Lemma Matches_RAlts (rs : list Regex) prev s prev' s' :
  Matches (RAlts rs) prev s prev' s' <-> exists r, r ∈ rs /\ Matches r prev s prev' s'.
Proof.
  induction rs as [|r rs IH].
  - simpl. split.
    + intros (c & _ & Hc & _). discriminate.
    + intros (r & Hr & _). by apply elem_of_nil in Hr.
  - destruct rs as [|r' rs].
    + simpl. split.
      * intros Hm. exists r. split; [left | exact Hm].
      * intros (r0 & Hr & Hm). apply list_elem_of_singleton in Hr. by subst.
    + change (RAlts (r :: r' :: rs)) with (RAlt r (RAlts (r' :: rs))).
      cbn [Matches]. rewrite IH. split.
      * intros [Hm | (r0 & Hr & Hm)].
        -- exists r. split; [left | exact Hm].
        -- exists r0. split; [by right | exact Hm].
      * intros (r0 & Hr & Hm). apply elem_of_cons in Hr as [->|Hr].
        -- by left.
        -- right. by exists r0.
Qed.

Lemma restricted_tokens_letters :
  Forall (fun token => token <> [] /\ Forall lower_letter token) restricted_tokens.
Proof.
  unfold restricted_tokens. repeat constructor; try discriminate;
    unfold lower_letter; vm_compute; split; discriminate.
Qed.

Lemma Matches_token_alternatives prev s prev' s' :
  Matches (RAlts (RWordI <$> restricted_tokens)) prev s prev' s'
  <-> exists token w,
        token ∈ restricted_tokens /\ s = w ++ s'
        /\ ascii_lower <$> w = token /\ prev' = last w.
Proof.
  pose proof restricted_tokens_letters as Hl. rewrite Forall_forall in Hl.
  rewrite Matches_RAlts. split.
  - intros (r & Hr & Hm). apply list_elem_of_fmap in Hr as (token & -> & Ht).
    destruct (Hl token Ht) as [Hne Hlet].
    apply Matches_RWordI in Hm as (w & ? & ? & ?); [|exact Hne | exact Hlet].
    by exists token, w.
  - intros (token & w & Ht & Hs & Hw & Hp).
    exists (RWordI token). split; [by apply list_elem_of_fmap_2|].
    destruct (Hl token Ht) as [Hne Hlet].
    apply Matches_RWordI; [exact Hne | exact Hlet |]. by exists w.
Qed.

Lemma Matches_RPlus_digits prev s prev' s' :
  Matches (RPlus isDigit) prev s prev' s'
  <-> exists ds, all_digits ds /\ s = ds ++ s' /\ prev' = last ds.
Proof.
  simpl. split.
  - intros (c & ds & -> & Hds & ->). exists (c :: ds).
    split; [|done]. split; [done|].
    eapply Forall_impl; [exact Hds|]. intros x. apply isDigit_spec.
  - intros (ds & [Hne Hds] & -> & ->). destruct ds as [|c ds]; [done|].
    exists c, ds. split; [reflexivity|]. split; [|reflexivity].
    eapply Forall_impl; [exact Hds|]. intros x. apply isDigit_spec.
Qed.

(** The pattern matches somewhere in a text exactly when the text holds
    restricted content. *)
Theorem test_restricted_text (text : JsString) :
  test RESTRICTED_TEXT_PATTERN text = true <-> restricted_text text.
Proof.
  rewrite test_spec. unfold RESTRICTED_TEXT_PATTERN, restricted_text.
  generalize Matches_token_alternatives Matches_RPlus_digits.
  generalize (RAlts (RWordI <$> restricted_tokens)) (RPlus isDigit).
  intros tok digs Htok Hdigs. cbn [Matches RUnit]. split.
  - intros (pre & rest & p' & s' & -> & [Hm | Hm]).
    + left. destruct Hm as (p1 & s1 & (Hb1 & -> & ->) & p2 & s2 & Hm & Hb2 & -> & ->).
      apply Htok in Hm as (token & w & Ht & Hs & Hw & Hp). subst rest p2.
      exists pre, w, s2, token. split; [reflexivity|]. split; [exact Ht|].
      split; [exact Hw|].
      pose proof restricted_tokens_letters as Hl. rewrite Forall_forall in Hl.
      destruct (Hl token Ht) as [Hne Hlet].
      destruct w as [|x w]; [by subst token|].
      assert (Hx : isWordChar x = true).
      { subst token. apply Forall_cons in Hlet as [Hc _].
        by eapply lower_letter_word. }
      assert (Hlast : isWordAt (last (x :: w)) = true).
      { destruct (last (x :: w)) as [y|] eqn:Ey;
          [|by apply last_None in Ey].
        apply last_Some in Ey as [l' Ey].
        assert (Hy : y ∈ x :: w) by (rewrite Ey; apply elem_of_app; right; left).
        apply (list_elem_of_fmap_2 ascii_lower) in Hy. rewrite Hw in Hy.
        rewrite Forall_forall in Hlet. simpl. eapply lower_letter_word; [|reflexivity].
        by apply Hlet. }
      rewrite Hlast in Hb2. simpl in Hb1. rewrite Hx in Hb1.
      split.
      * by destruct (isWordAt (last pre)).
      * by destruct (isWordAt (head s2)).
    + right. destruct Hm as (p1 & s1 & Hm & p2 & s2 & Hopt & c & Hs2 & Hc & Hp).
      apply N.eqb_eq in Hc. subst c s2 p'.
      apply Hdigs in Hm as (whole & Hwhole & Hrest & Hp1). subst rest p1.
      destruct Hopt as [(p3 & s3 & (c & Hs1 & Hc & Hp3) & Hm) | [Hp2 Hs1]].
      * apply N.eqb_eq in Hc. subst c s1 p3.
        apply Hdigs in Hm as (ds & Hds & Hs3 & Hp2). subst s3 p2.
        exists pre, whole, (46%N :: ds), s'. split.
        -- reflexivity.
        -- split; [exact Hwhole|]. right. by exists ds.
      * subst s1 p2.
        exists pre, whole, [], s'. split; [reflexivity|]. split; [exact Hwhole | by left].
  - intros [(pre & w & post & token & -> & Ht & Hw & Hb1 & Hb2)
           | (pre & whole & frac & post & -> & Hwhole & Hfrac)].
    + pose proof restricted_tokens_letters as Hl. rewrite Forall_forall in Hl.
      destruct (Hl token Ht) as [Hne Hlet].
      destruct w as [|x w]; [by subst token|].
      assert (Hx : isWordChar x = true).
      { subst token. apply Forall_cons in Hlet as [Hc _].
        by eapply lower_letter_word. }
      assert (Hlast : isWordAt (last (x :: w)) = true).
      { destruct (last (x :: w)) as [y|] eqn:Ey;
          [|by apply last_None in Ey].
        apply last_Some in Ey as [l' Ey].
        assert (Hy : y ∈ x :: w) by (rewrite Ey; apply elem_of_app; right; left).
        apply (list_elem_of_fmap_2 ascii_lower) in Hy. rewrite Hw in Hy.
        rewrite Forall_forall in Hlet. simpl. eapply lower_letter_word; [|reflexivity].
        by apply Hlet. }
      exists pre, ((x :: w) ++ post), (last (x :: w)), post.
      split; [reflexivity|]. left.
      exists (last pre), ((x :: w) ++ post). split.
      * split; [|done]. simpl. by rewrite Hb1, Hx.
      * exists (last (x :: w)), post. split.
        -- apply Htok. by exists token, (x :: w).
        -- split; [|done]. by rewrite Hlast, Hb2.
    + exists pre, (whole ++ frac ++ 37%N :: post), (Some 37%N), post.
      split; [reflexivity|]. right.
      exists (last whole), (frac ++ 37%N :: post). split.
      * apply Hdigs. by exists whole.
      * destruct Hfrac as [-> | (ds & -> & Hds)].
        -- exists (last whole), (37%N :: post). split; [by right|].
           exists 37%N. by rewrite N.eqb_refl.
        -- exists (last ds), (37%N :: post). split.
           ++ left. exists (Some 46%N), (ds ++ 37%N :: post). split.
              ** exists 46%N. by rewrite N.eqb_refl.
              ** apply Hdigs. by exists ds.
           ++ exists 37%N. by rewrite N.eqb_refl.
Qed.

End Matcher.

Section Redaction.

Context `{JsRuntime}.

Lemma restricted_text_nonempty (text : JsString) : restricted_text text -> text <> [].
Proof.
  intros Hr ->. apply test_restricted_text in Hr. vm_compute in Hr. discriminate.
Qed.

Lemma clampText_redacts (text fallback : JsString) (limit : nat) :
  restricted_text (normalize text) ->
  clampText (JString text) fallback limit true = js "Restricted in visible state.".
Proof.
  intros Hr. unfold clampText.
  rewrite bool_decide_false by (by apply restricted_text_nonempty).
  apply test_restricted_text in Hr. by rewrite Hr.
Qed.

(** C3 (amended). A string that, once trimmed and its white space collapsed,
    holds a restricted token or a numeric percentage is replaced by the
    marker "Restricted in visible state." in an evidence summary, in timeline
    details and in an action description; in the disabled_reason of an action
    it is replaced by the marker when the action is not enabled, and the
    field is absent when the action is enabled. *)
Theorem redaction (text : JsString) (item : JsValue) (index : nat) :
  restricted_text (normalize text) ->
  (get item "summary" = JString text ->
   ev_summary (sanitizeEvidence item index) = js "Restricted in visible state.")
  /\ (get item "details" = JString text ->
      details (sanitizeTimeline item index) = js "Restricted in visible state.")
  /\ (get item "desc" = JString text ->
      desc (sanitizeAction item index) = js "Restricted in visible state.")
  /\ (get item "disabled_reason" = JString text ->
      disabled_reason (sanitizeAction item index)
      = if ToBoolean (get item "enabled") then None
        else Some (js "Restricted in visible state.")).
Proof.
  intros Hr. repeat split; intros E.
  - unfold sanitizeEvidence. cbn [ev_summary]. rewrite E. by apply clampText_redacts.
  - unfold sanitizeTimeline. cbn [details]. rewrite E. by apply clampText_redacts.
  - unfold sanitizeAction. cbn [desc]. rewrite E. by apply clampText_redacts.
  - unfold sanitizeAction. cbn [disabled_reason]. rewrite E.
    destruct (ToBoolean _); [reflexivity|]. f_equal. by apply clampText_redacts.
Qed.

End Redaction.

Lemma redaction_witness :
  let text := js "  model   Confidence: 63.5% " in
  let item :=
    JObject [ (js "summary", JString text); (js "details", JString text);
              (js "desc", JString text); (js "disabled_reason", JString text);
              (js "enabled", JBool false) ] in
  ev_summary (sanitizeEvidence item 0) = js "Restricted in visible state."
  /\ details (sanitizeTimeline item 0) = js "Restricted in visible state."
  /\ desc (sanitizeAction item 0) = js "Restricted in visible state."
  /\ disabled_reason (sanitizeAction item 0) = Some (js "Restricted in visible state.").
Proof.
  intros text item.
  assert (Hr : restricted_text (normalize text)).
  { right. exists (js "model Confidence: "), (js "63"), (js ".5"), [].
    split; [vm_compute; reflexivity|]. split.
    - split; [discriminate|]. repeat constructor; vm_compute; discriminate.
    - right. exists (js "5"). split; [reflexivity|].
      split; [discriminate|]. repeat constructor; vm_compute; discriminate. }
  destruct (redaction text item 0 Hr) as (H1 & H2 & H3 & H4).
  split; [exact (H1 eq_refl)|]. split; [exact (H2 eq_refl)|].
  split; [exact (H3 eq_refl)|]. exact (H4 eq_refl).
Defined.

(** C3 (counterexample). The disabled_reason of an enabled action holds the
    restricted token "seed", and the sanitized field is absent, not the
    marker. *)
Lemma redaction_skips_enabled_action :
  get enabled_action "disabled_reason" = JString (js "seed 42 forces this")
  /\ restricted_text (normalize (js "seed 42 forces this"))
  /\ disabled_reason (sanitizeAction enabled_action 0) = None
  /\ disabled_reason (sanitizeAction enabled_action 0)
     <> Some (js "Restricted in visible state.").
Proof.
  split; [reflexivity|]. split; [|split].
  - apply test_restricted_text. vm_compute. reflexivity.
  - vm_compute. reflexivity.
  - vm_compute. discriminate.
Qed.

Ltac list_of_length l H :=
  simpl in H;
  repeat (destruct l as [|? l]; simpl in H; [try discriminate H | try discriminate H]).

Section Dates.

Import JsDate.

(** *** Decimal digits *)

Lemma digitsValue_snoc (l : JsString) (c : N) :
  digitsValue (l ++ [c])
  = n ← digitsValue l;
    if isDigit c then Some (10 * n + Z.of_N (c - 48)) else None.
Proof. unfold digitsValue. by rewrite foldl_app. Qed.

Lemma decimal_value (fuel : nat) (n : Z) :
  0 <= n < 2 ^ Z.of_nat fuel -> digitsValue (decimal fuel n) = Some n.
Proof.
  revert n. induction fuel as [|fuel IH]; intros n Hn.
  - simpl in *. assert (n = 0) by lia. by subst.
  - cbn [decimal]. rewrite digitsValue_snoc.
    assert (Hd : isDigit (Z.to_N (48 + n mod 10)) = true).
    { apply isDigit_spec. pose proof (Z.mod_pos_bound n 10). lia. }
    rewrite Hd. destruct (Z.ltb_spec n 10) as [Hlt|Hge].
    + cbn. f_equal. rewrite Z.mod_small by lia. lia.
    + rewrite IH.
      * cbn. f_equal. pose proof (Z.mod_pos_bound n 10).
        pose proof (Z.div_mod n 10). lia.
      * rewrite Nat2Z.inj_succ, Z.pow_succ_r in Hn by lia.
        split; [apply Z.div_pos; lia|].
        apply Z.div_lt_upper_bound; lia.
Qed.

Lemma decimal_digits (fuel : nat) (n : Z) :
  Forall (fun c => (48 <= c <= 57)%N) (decimal fuel n).
Proof.
  revert n. induction fuel as [|fuel IH]; intros n; cbn [decimal]; [constructor|].
  apply Forall_app. split.
  - destruct (n <? 10); [constructor | apply IH].
  - repeat constructor; pose proof (Z.mod_pos_bound n 10); lia.
Qed.

Lemma decimal_length (fuel : nat) (n : Z) (k : nat) :
  0 <= n < 10 ^ Z.of_nat k -> (1 <= k)%nat -> (length (decimal fuel n) <= k)%nat.
Proof.
  revert n k. induction fuel as [|fuel IH]; intros n k Hn Hk; cbn [decimal].
  - simpl. lia.
  - rewrite length_app. simpl. destruct (Z.ltb_spec n 10) as [Hlt|Hge].
    + simpl. lia.
    + destruct k as [|[|k]]; [lia | simpl in Hn; lia |].
      specialize (IH (n / 10) (S k)).
      rewrite (Nat2Z.inj_succ (S k)), Z.pow_succ_r in Hn by lia.
      assert (0 <= n / 10 < 10 ^ Z.of_nat (S k)).
      { split; [apply Z.div_pos; lia|]. apply Z.div_lt_upper_bound; lia. }
      specialize (IH ltac:(assumption) ltac:(lia)). lia.
Qed.

Lemma String_ofZ_nonneg (n : Z) :
  0 <= n -> String_ofZ n = decimal (S (Z.to_nat (Z.log2 n))) n.
Proof. intros Hn. unfold String_ofZ. by rewrite (proj2 (Z.ltb_ge _ _)). Qed.

Lemma String_ofZ_value (n : Z) : 0 <= n -> digitsValue (String_ofZ n) = Some n.
Proof.
  intros Hn. rewrite String_ofZ_nonneg by exact Hn. apply decimal_value.
  split; [exact Hn|]. rewrite Nat2Z.inj_succ, Z2Nat.id by apply Z.log2_nonneg.
  destruct (Z.eq_dec n 0) as [->|Hne]; [reflexivity|].
  apply Z.log2_spec. lia.
Qed.

Lemma digitsValue_zeros (k : nat) (l : JsString) :
  digitsValue (replicate k 48%N ++ l) = digitsValue l.
Proof.
  unfold digitsValue. rewrite foldl_app. f_equal.
  induction k as [|k IH]; [reflexivity|].
  rewrite replicate_S_end, foldl_app, IH. reflexivity.
Qed.

(** A number printed on [w] digits reads back as itself. *)
Lemma digits_spec (w : nat) (n : Z) :
  0 <= n < 10 ^ Z.of_nat w -> (1 <= w)%nat ->
  length (digits w n) = w
  /\ digitsValue (digits w n) = Some n
  /\ Forall (fun c => (48 <= c <= 57)%N) (digits w n).
Proof.
  intros Hn Hw. unfold digits, padStart.
  assert (Hlen : (length (String_ofZ n) <= w)%nat).
  { rewrite String_ofZ_nonneg by lia. by apply decimal_length. }
  split; [|split].
  - rewrite length_app, length_replicate. lia.
  - rewrite digitsValue_zeros. apply String_ofZ_value. lia.
  - apply Forall_app. split.
    + apply Forall_replicate. lia.
    + rewrite String_ofZ_nonneg by lia. apply decimal_digits.
Qed.

(** *** The calendar *)

Lemma daysFromCivil_civilFromDays (z : Z) :
  let '(y, m, d) := civilFromDays z in
  daysFromCivil y m d = z /\ 1 <= m <= 12 /\ 1 <= d <= 31
  /\ (z + 719468) / 146097 * 400 <= y <= (z + 719468) / 146097 * 400 + 400.
Proof.
  unfold civilFromDays, daysFromCivil. cbv zeta.
  set (z' := z + 719468).
  set (era := z' / 146097).
  set (doe := z' - era * 146097).
  assert (Hdoe : 0 <= doe < 146097).
  { unfold doe, era. pose proof (Z.div_mod z' 146097 ltac:(lia)).
    pose proof (Z.mod_pos_bound z' 146097 ltac:(lia)). lia. }
  assert (Edoe : doe = z' - era * 146097) by reflexivity.
  clearbody doe.
  set (yoe := (doe - doe / 1460 + doe / 36524 - doe / 146096) / 365).
  assert (Hyoe : 0 <= yoe <= 399)
    by (unfold yoe; Z.to_euclidean_division_equations; lia).
  set (doy := doe - (365 * yoe + yoe / 4 - yoe / 100)).
  assert (Hdoy : 0 <= doy <= 365)
    by (unfold doy, yoe; Z.to_euclidean_division_equations; lia).
  clearbody yoe.
  set (mp := (5 * doy + 2) / 153).
  assert (Hmp : 0 <= mp <= 11)
    by (unfold mp; Z.to_euclidean_division_equations; lia).
  set (d := doy - (153 * mp + 2) / 5 + 1).
  assert (Hd : 1 <= d <= 31)
    by (unfold d, mp; Z.to_euclidean_division_equations; lia).
  set (m := if mp <? 10 then mp + 3 else mp - 9).
  set (y := if m <=? 2 then yoe + era * 400 + 1 else yoe + era * 400).
  assert (Hm : 1 <= m <= 12 /\ (if m >? 2 then m - 3 else m + 9) = mp
               /\ (if m <=? 2 then y - 1 else y) = yoe + era * 400
               /\ era * 400 <= y <= era * 400 + 400).
  { unfold y, m. destruct (Z.ltb_spec mp 10).
    - rewrite (proj2 (Z.gtb_lt _ _)) by lia. destruct (Z.leb_spec (mp + 3) 2); lia.
    - destruct (Z.gtb_spec (mp - 9) 2); [lia|]. destruct (Z.leb_spec (mp - 9) 2); lia. }
  destruct Hm as (Hm & Hmp' & Hy & Hyb).
  split; [|split; [|split]]; try assumption.
  rewrite Hy, Hmp'.
  replace ((yoe + era * 400) / 400) with era
    by (Z.to_euclidean_division_equations; lia).
  replace (yoe + era * 400 - era * 400) with yoe by lia.
  replace ((153 * mp + 2) / 5 + d - 1) with doy by (unfold d; lia).
  unfold doy. unfold z' in Edoe. lia.
Qed.

(** *** Reading back what [toISOString] prints *)

Lemma readIsoFields_shape (sign : Z) (sgn Y MM DD HH MI SS MS : JsString) :
  (sgn = [] /\ sign = 1 /\ length Y = 4%nat
   /\ Forall (fun c => (48 <= c <= 57)%N) Y)
  \/ (sgn = [43%N] /\ sign = 1 /\ length Y = 6%nat)
  \/ (sgn = [45%N] /\ sign = -1 /\ length Y = 6%nat) ->
  length MM = 2%nat -> length DD = 2%nat -> length HH = 2%nat ->
  length MI = 2%nat -> length SS = 2%nat -> length MS = 3%nat ->
  readIsoFields
    (sgn ++ Y ++ js "-" ++ MM ++ js "-" ++ DD ++ js "T" ++ HH ++ js ":" ++ MI
         ++ js ":" ++ SS ++ js "." ++ MS ++ js "Z")
  = (y ← digitsValue Y; mo ← digitsValue MM; d ← digitsValue DD;
     hh ← digitsValue HH; mi ← digitsValue MI; ss ← digitsValue SS;
     ms ← digitsValue MS;
     Some (MakeDate (daysFromCivil (sign * y) mo d) (MakeTime hh mi ss ms))).
Proof.
  intros Hy HMM HDD HHH HMI HSS HMS.
  list_of_length MM HMM. list_of_length DD HDD. list_of_length HH HHH.
  list_of_length MI HMI. list_of_length SS HSS. list_of_length MS HMS.
  destruct Hy as [(-> & -> & HY & Hd) | [(-> & -> & HY) | (-> & -> & HY)]];
    list_of_length Y HY.
  - apply Forall_cons in Hd as [Hd _].
    unfold readIsoFields. cbn [app js fmap list_fmap list_ascii_of_string].
    rewrite (proj2 (N.eqb_neq _ _)) by lia.
    rewrite (proj2 (N.eqb_neq _ _)) by lia.
    reflexivity.
  - reflexivity.
  - reflexivity.
Qed.

Lemma isoYear_shape (y : Z) :
  - 1000000 < y < 1000000 ->
  exists sign sgn Y,
    isoYear y = sgn ++ Y
    /\ digitsValue Y = Some (Z.abs y) /\ sign * Z.abs y = y
    /\ ((sgn = [] /\ sign = 1 /\ length Y = 4%nat
         /\ Forall (fun c => (48 <= c <= 57)%N) Y)
        \/ (sgn = [43%N] /\ sign = 1 /\ length Y = 6%nat)
        \/ (sgn = [45%N] /\ sign = -1 /\ length Y = 6%nat)).
Proof.
  intros Hy. unfold isoYear.
  destruct ((0 <=? y) && (y <=? 9999)) eqn:E.
  - apply andb_true_iff in E as [E1%Z.leb_le E2%Z.leb_le].
    destruct (digits_spec 4 y) as (Hl & Hv & Hd); [simpl; lia | lia |].
    exists 1, [], (digits 4 y). split; [reflexivity|].
    split; [by rewrite Z.abs_eq|]. split; [lia|]. left. done.
  - destruct (digits_spec 6 (Z.abs y)) as (Hl & Hv & Hd); [simpl; lia | lia |].
    destruct (Z.ltb_spec y 0).
    + exists (-1), [45%N], (digits 6 (Z.abs y)).
      split; [reflexivity|]. split; [exact Hv|]. split; [lia|]. right; right. done.
    + exists 1, [43%N], (digits 6 (Z.abs y)).
      split; [reflexivity|]. split; [exact Hv|]. split; [lia|]. right; left. done.
Qed.

Lemma readIsoFields_isoFormat (t : Z) :
  Z.abs t <= maxTime -> readIsoFields (isoFormat t) = Some t.
Proof.
  intros Ht. unfold isoFormat, maxTime in *.
  pose proof (daysFromCivil_civilFromDays (t / msPerDay)) as Hc.
  destruct (civilFromDays (t / msPerDay)) as [[y m] d].
  destruct Hc as (Hday & Hm & Hd & Hy).
  assert (Hyb : -1000000 < y < 1000000).
  { assert (-700 <= (t / msPerDay + 719468) / 146097 <= 700)
      by (unfold msPerDay; Z.to_euclidean_division_equations; lia).
    lia. }
  destruct (isoYear_shape y Hyb) as (sign & sgn & Y & EY & HvY & Hsign & Hshape).
  pose proof (Z.mod_pos_bound t msPerDay ltac:(unfold msPerDay; lia)) as Htod.
  set (tod := t mod msPerDay) in *. unfold msPerDay in Htod.
  destruct (digits_spec 2 m) as (L1 & V1 & _); [simpl; lia | lia |].
  destruct (digits_spec 2 d) as (L2 & V2 & _); [simpl; lia | lia |].
  destruct (digits_spec 2 (tod / 3600000)) as (L3 & V3 & _);
    [simpl; Z.to_euclidean_division_equations; lia | lia |].
  destruct (digits_spec 2 (tod / 60000 mod 60)) as (L4 & V4 & _);
    [simpl; Z.to_euclidean_division_equations; lia | lia |].
  destruct (digits_spec 2 (tod / 1000 mod 60)) as (L5 & V5 & _);
    [simpl; Z.to_euclidean_division_equations; lia | lia |].
  destruct (digits_spec 3 (tod mod 1000)) as (L6 & V6 & _);
    [simpl; Z.to_euclidean_division_equations; lia | lia |].
  rewrite EY, <- app_assoc.
  rewrite (readIsoFields_shape sign sgn Y _ _ _ _ _ _ Hshape L1 L2 L3 L4 L5 L6).
  rewrite HvY, V1, V2, V3, V4, V5, V6. cbn [mbind option_bind].
  rewrite Hsign, Hday. f_equal. unfold MakeDate, MakeTime.
  pose proof (Z.div_mod t msPerDay ltac:(unfold msPerDay; lia)) as Et.
  fold tod in Et.
  assert (Htime : tod / 3600000 * 3600000 + tod / 60000 mod 60 * 60000
                  + tod / 1000 mod 60 * 1000 + tod mod 1000 = tod).
  { clearbody tod. clear -Htod. Z.to_euclidean_division_equations. lia. }
  rewrite Htime. lia.
Qed.

(** The time value of every valid date is read back from its ISO text. *)
Lemma parse_isoFormat (other : JsString -> option Z) (t : Z) :
  Z.abs t <= maxTime -> parse other (isoFormat t) = Some t.
Proof.
  intros Ht. unfold parse, parseIso.
  rewrite (readIsoFields_isoFormat t Ht). cbn [mbind option_bind].
  rewrite bool_decide_true by reflexivity.
  by rewrite (proj2 (Z.leb_le _ _) Ht).
Qed.

(** A date that was parsed is a valid one. *)
Lemma parse_valid (other : JsString -> option Z) (text : JsString) (t : Z) :
  parse other text = Some t -> Z.abs t <= maxTime.
Proof.
  unfold parse, parseIso, TimeClip.
  destruct (readIsoFields text) as [t0|]; cbn [mbind option_bind].
  - destruct (bool_decide _ && (Z.abs t0 <=? maxTime)) eqn:E.
    + intros [= <-]. apply andb_true_iff in E as [_ E]. by apply Z.leb_le.
    + destruct (other text) as [t1|]; cbn; [|discriminate].
      destruct (Z.leb_spec (Z.abs t1) maxTime); [|discriminate]. by intros [= <-].
  - destruct (other text) as [t1|]; cbn; [|discriminate].
    destruct (Z.leb_spec (Z.abs t1) maxTime); [|discriminate]. by intros [= <-].
Qed.

(** An ISO text has twenty-four or twenty-seven units, none of them white
    space. *)
Lemma isoFormat_shape (t : Z) :
  Z.abs t <= maxTime ->
  (length (isoFormat t) <= 27)%nat
  /\ isoFormat t <> []
  /\ Forall (fun c => isWhiteSpace c = false) (isoFormat t).
Proof.
  intros Ht. unfold isoFormat, maxTime in *.
  pose proof (daysFromCivil_civilFromDays (t / msPerDay)) as Hc.
  destruct (civilFromDays (t / msPerDay)) as [[y m] d].
  destruct Hc as (Hday & Hm & Hd & Hy).
  assert (Hyb : -1000000 < y < 1000000).
  { assert (-700 <= (t / msPerDay + 719468) / 146097 <= 700)
      by (unfold msPerDay; Z.to_euclidean_division_equations; lia).
    lia. }
  destruct (isoYear_shape y Hyb) as (sign & sgn & Y & EY & HvY & Hsign & Hshape).
  pose proof (Z.mod_pos_bound t msPerDay ltac:(unfold msPerDay; lia)) as Htod.
  set (tod := t mod msPerDay) in *. unfold msPerDay in Htod.
  destruct (digits_spec 2 m) as (L1 & _ & D1); [simpl; lia | lia |].
  destruct (digits_spec 2 d) as (L2 & _ & D2); [simpl; lia | lia |].
  destruct (digits_spec 2 (tod / 3600000)) as (L3 & _ & D3);
    [simpl; Z.to_euclidean_division_equations; lia | lia |].
  destruct (digits_spec 2 (tod / 60000 mod 60)) as (L4 & _ & D4);
    [simpl; Z.to_euclidean_division_equations; lia | lia |].
  destruct (digits_spec 2 (tod / 1000 mod 60)) as (L5 & _ & D5);
    [simpl; Z.to_euclidean_division_equations; lia | lia |].
  destruct (digits_spec 3 (tod mod 1000)) as (L6 & _ & D6);
    [simpl; Z.to_euclidean_division_equations; lia | lia |].
  assert (Hws : forall l : JsString,
             Forall (fun c => (48 <= c <= 57)%N) l ->
             Forall (fun c => isWhiteSpace c = false) l).
  { intros l Hl. eapply Forall_impl; [exact Hl|]. intros c Hc. class_props. }
  assert (HY : (length (isoYear y) <= 7)%nat
               /\ Forall (fun c => isWhiteSpace c = false) (isoYear y)).
  { unfold isoYear. destruct ((0 <=? y) && (y <=? 9999)) eqn:E.
    - apply andb_true_iff in E as [E1%Z.leb_le E2%Z.leb_le].
      destruct (digits_spec 4 y) as (Hl & _ & Hdig); [simpl; lia | lia |].
      split; [lia | by apply Hws].
    - destruct (digits_spec 6 (Z.abs y)) as (Hl & _ & Hdig); [simpl; lia | lia |].
      split.
      + rewrite length_app, Hl. destruct (y <? 0); simpl; lia.
      + apply Forall_app. split; [|by apply Hws].
        destruct (y <? 0); by repeat constructor. }
  destruct HY as [HYl HYw].
  split; [|split].
  - rewrite !length_app, L1, L2, L3, L4, L5, L6. simpl. lia.
  - intros E. apply (f_equal length) in E.
    rewrite !length_app, L1 in E. simpl in E. lia.
  - rewrite !Forall_app.
    repeat split; try (by apply Hws); try exact HYw; by repeat constructor.
Qed.

End Dates.

Section Tidy.

Implicit Types (s : JsString) (c : N).

Lemma dropWhile_keep (p : N -> bool) s :
  (forall c, head s = Some c -> p c = false) -> dropWhile p s = s.
Proof.
  destruct s as [|c s]; [reflexivity|]. intros Hc. simpl.
  by rewrite (Hc c eq_refl).
Qed.

Lemma dropWhile_head (p : N -> bool) s c :
  head (dropWhile p s) = Some c -> p c = false.
Proof.
  induction s as [|d s IH]; [discriminate|]. simpl.
  destruct (p d) eqn:E; [exact IH|]. simpl. by intros [= <-].
Qed.

Lemma dropWhile_suffix (p : N -> bool) s : exists k, s = k ++ dropWhile p s.
Proof.
  induction s as [|d s [k IH]]; [by exists []|]. simpl.
  destruct (p d).
  - exists (d :: k). simpl. by f_equal.
  - by exists [].
Qed.

(** What is left after trimming neither starts nor ends with white space. *)
Lemma trim_ends s :
  (forall c, head (trim s) = Some c -> isWhiteSpace c = false)
  /\ (forall c, last (trim s) = Some c -> isWhiteSpace c = false).
Proof.
  unfold trim. set (a := dropWhile isWhiteSpace s).
  set (b := dropWhile isWhiteSpace (reverse a)). split; intros c Hc.
  - rewrite head_reverse in Hc.
    destruct (dropWhile_suffix isWhiteSpace (reverse a)) as [k Hk]. fold b in Hk.
    destruct b as [|x b'] eqn:Eb; [discriminate|].
    assert (Hl : last (reverse a) = Some c).
    { rewrite Hk. by rewrite last_app, Hc. }
    rewrite last_reverse in Hl. by apply (dropWhile_head isWhiteSpace s).
  - rewrite last_reverse in Hc. by apply (dropWhile_head isWhiteSpace (reverse a)).
Qed.

Lemma spaced_last s c : spaced s = true -> last s = Some c -> isWhiteSpace c = false.
Proof.
  induction s as [|d s IH]; [discriminate|]. simpl.
  intros [Hd Hs]%andb_true_iff. destruct s as [|e s].
  - intros [= <-]. simpl in Hd. rewrite andb_false_r, orb_false_r in Hd.
    by apply negb_true_iff.
  - intros Hl. by apply IH.
Qed.

Lemma replaceRuns_tidy_in s :
  spaced s = true -> replaceRuns [32%N] false s = s.
Proof.
  induction s as [|c s IH]; [reflexivity|]. simpl.
  intros [Hc Hs]%andb_true_iff. specialize (IH Hs).
  destruct (isWhiteSpace c) eqn:Ec.
  - simpl in Hc. apply andb_true_iff in Hc as [->%N.eqb_eq Hb].
    destruct s as [|d s]; [discriminate|]. simpl in Hb.
    apply negb_true_iff in Hb. simpl in *. rewrite Hb in *.
    by rewrite IH.
  - by rewrite IH.
Qed.

(** A tidy text is left alone by [normalize]. *)
Lemma normalize_tidy s : tidy s = true -> normalize s = s.
Proof.
  unfold tidy, normalize, replaceWhiteSpace.
  intros [Hh Hs]%andb_true_iff.
  assert (Et : trim s = s).
  { unfold trim. rewrite (dropWhile_keep _ s).
    - rewrite (dropWhile_keep _ (reverse s)); [apply reverse_involutive|].
      intros c Hc. rewrite head_reverse in Hc. by eapply spaced_last.
    - destruct s as [|d s]; [discriminate|]. intros c [= <-].
      by apply negb_true_iff. }
  rewrite Et. by apply replaceRuns_tidy_in.
Qed.

Lemma replaceRuns_spaced s (b : bool) :
  (forall c, last s = Some c -> isWhiteSpace c = false) ->
  spaced (replaceRuns [32%N] b s) = true
  /\ (b = true -> s <> [] -> startsBlank (replaceRuns [32%N] b s) = false).
Proof.
  revert b. induction s as [|c s IH]; intros b Hl; [done|].
  assert (Hl' : s <> [] -> forall d, last s = Some d -> isWhiteSpace d = false).
  { intros Hne d Hd. apply Hl. destruct s; [done | exact Hd]. }
  simpl. destruct (isWhiteSpace c) eqn:Ec.
  - assert (Hne : s <> []).
    { intros ->. specialize (Hl c eq_refl). congruence. }
    destruct (IH true (Hl' Hne)) as [Hs Hb]. specialize (Hb eq_refl Hne).
    destruct b.
    + split; [exact Hs | by intros _ _].
    + split; [|discriminate]. cbn [app spaced]. rewrite Hs, Hb. reflexivity.
  - assert (Hs : spaced (replaceRuns [32%N] false s) = true).
    { destruct s as [|d s']; [reflexivity|]. by apply (IH false), Hl'. }
    split.
    + cbn [spaced]. by rewrite Ec, Hs.
    + intros _ _. exact Ec.
Qed.

(** [normalize] yields a tidy text. *)
Lemma tidy_normalize s : tidy (normalize s) = true.
Proof.
  unfold normalize, replaceWhiteSpace.
  destruct (trim_ends s) as [Hh Hl]. revert Hh Hl.
  generalize (trim s) as t. intros t Hh Hl.
  unfold tidy. apply andb_true_iff. split; [|by apply replaceRuns_spaced].
  destruct t as [|c t]; [reflexivity|]. simpl.
  rewrite (Hh c eq_refl). simpl. by rewrite (Hh c eq_refl).
Qed.

(** Cutting a tidy text keeps it tidy unless the cut falls after a space. *)
Lemma spaced_take s (n : nat) :
  spaced s = true -> last (take n s) <> Some 32%N -> spaced (take n s) = true.
Proof.
  revert n. induction s as [|c s IH]; intros n Hs Hl; [by destruct n|].
  destruct n as [|n]; [reflexivity|]. simpl in *.
  apply andb_true_iff in Hs as [Hc Hs].
  assert (Hl' : last (take n s) <> Some 32%N).
  { intros E. apply Hl. destruct (take n s); [discriminate | exact E]. }
  rewrite (IH n Hs Hl'), andb_true_r.
  destruct (isWhiteSpace c) eqn:Ec; [|reflexivity]. simpl in *.
  apply andb_true_iff in Hc as [Hc Hb]. rewrite Hc. simpl.
  apply N.eqb_eq in Hc. subst c.
  destruct s as [|d s]; [discriminate|]. destruct n as [|n]; [by destruct Hl|].
  exact Hb.
Qed.

Lemma tidy_take s (n : nat) :
  tidy s = true -> last (take n s) <> Some 32%N -> tidy (take n s) = true.
Proof.
  unfold tidy. intros [Hh Hs]%andb_true_iff Hl.
  rewrite (spaced_take s n Hs Hl), andb_true_r.
  destruct s as [|c s]; [by destruct n|]. by destruct n.
Qed.

Lemma tidy_solid s : Forall (fun c => isWhiteSpace c = false) s -> tidy s = true.
Proof.
  intros Hs. unfold tidy. apply andb_true_iff. split.
  - destruct s as [|c s]; [reflexivity|]. apply Forall_cons in Hs as [Hc _].
    by rewrite Hc.
  - induction Hs as [|c s Hc Hs IH]; [reflexivity|]. simpl. by rewrite Hc, IH.
Qed.

(** A tidy prefix followed by a run without white space is tidy. *)
Lemma tidy_app_solid (pre s : JsString) :
  tidy (pre ++ [120%N]) = true -> s <> [] ->
  Forall (fun c => isWhiteSpace c = false) s -> tidy (pre ++ s) = true.
Proof.
  intros Hpre Hne Hs.
  destruct s as [|d s]; [done|]. apply Forall_cons in Hs as [Hd Hs].
  assert (Hsolid : spaced (d :: s) = true).
  { pose proof (tidy_solid (d :: s)) as Ht. unfold tidy in Ht.
    apply andb_true_iff in Ht as [_ Ht]; [exact Ht|]. by constructor. }
  unfold tidy in *. apply andb_true_iff in Hpre as [Hh Hsp].
  apply andb_true_iff. split.
  - destruct pre as [|c pre]; simpl; [by rewrite Hd | exact Hh].
  - clear Hh. induction pre as [|c pre IH]; [exact Hsolid|].
    cbn [app spaced] in *. apply andb_true_iff in Hsp as [Hc Hsp].
    rewrite (IH Hsp), andb_true_r.
    destruct pre as [|e pre]; [|exact Hc].
    simpl in *. by rewrite Hd.
Qed.

Lemma dropWhile_length (p : N -> bool) s : (length (dropWhile p s) <= length s)%nat.
Proof.
  destruct (dropWhile_suffix p s) as [k Hk].
  rewrite Hk at 2. rewrite length_app. lia.
Qed.

Lemma normalize_length s : (length (normalize s) <= length s)%nat.
Proof.
  unfold normalize, replaceWhiteSpace.
  assert (Hr : forall (b : bool) t, (length (replaceRuns [32%N] b t) <= length t)%nat).
  { intros b t. revert b. induction t as [|c t IH]; intros b; [reflexivity|].
    simpl. destruct (isWhiteSpace c); [destruct b|]; simpl;
      first [specialize (IH true); lia | specialize (IH false); lia]. }
  etrans; [apply Hr|]. unfold trim.
  rewrite length_reverse. etrans; [apply dropWhile_length|].
  rewrite length_reverse. apply dropWhile_length.
Qed.

(** Trimming shortens a text that ends in white space. *)
Lemma normalize_shortens s c :
  last s = Some c -> isWhiteSpace c = true -> (length (normalize s) < length s)%nat.
Proof.
  intros Hl Hc. unfold normalize, replaceWhiteSpace.
  assert (Hr : forall (b : bool) t, (length (replaceRuns [32%N] b t) <= length t)%nat).
  { intros b t. revert b. induction t as [|d t IH]; intros b; [reflexivity|].
    simpl. destruct (isWhiteSpace d); [destruct b|]; simpl;
      first [specialize (IH true); lia | specialize (IH false); lia]. }
  eapply Nat.le_lt_trans; [apply Hr|]. unfold trim. rewrite length_reverse.
  destruct (dropWhile_suffix isWhiteSpace s) as [k Hk].
  set (a := dropWhile isWhiteSpace s) in *.
  assert (Ha : (length a <= length s)%nat) by apply dropWhile_length.
  destruct a as [|x a'] eqn:Ea.
  - simpl. destruct s; [discriminate | simpl; lia].
  - assert (Hla : last (x :: a') = Some c).
    { rewrite Hk, last_app in Hl.
      destruct (last (x :: a')) eqn:El; [exact Hl | by apply last_None in El]. }
    rewrite <- head_reverse in Hla.
    destruct (reverse (x :: a')) as [|y r] eqn:Er; [discriminate|].
    injection Hla as ->. simpl. rewrite Hc.
    pose proof (dropWhile_length isWhiteSpace r).
    apply (f_equal length) in Er. rewrite length_reverse in Er. simpl in *. lia.
Qed.

End Tidy.

Section SecondPass.

Context `{JsRuntime}.

Implicit Types (t fallback d : JsString) (limit : nat) (redact : bool).

(** *** Text fields *)

Lemma not_restricted_test t : ~ restricted_text t -> test RESTRICTED_TEXT_PATTERN t = false.
Proof.
  intros Hn. destruct (test RESTRICTED_TEXT_PATTERN t) eqn:E; [|reflexivity].
  by apply test_restricted_text in E.
Qed.

Lemma clampText_settled t fallback limit redact :
  tidy t = true -> t <> [] -> (length t <= limit)%nat ->
  (redact = true -> ~ restricted_text t) ->
  clampText (JString t) fallback limit redact = t.
Proof.
  intros Ht Hne Hl Hr. unfold clampText.
  rewrite (normalize_tidy t Ht), bool_decide_false by exact Hne.
  destruct redact.
  - rewrite (not_restricted_test t (Hr eq_refl)). simpl. by apply take_ge.
  - simpl. by apply take_ge.
Qed.

Lemma clampText_cases (v : JsValue) fallback limit redact :
  clampText v fallback limit redact = fallback
  \/ (redact = true
      /\ clampText v fallback limit redact = js "Restricted in visible state.")
  \/ exists value, normalize value <> []
                   /\ clampText v fallback limit redact = take limit (normalize value).
Proof.
  destruct v; try (by left). unfold clampText.
  case_bool_decide as Hn; [by left|].
  destruct (redact && test _ _) eqn:E.
  - right; left. apply andb_true_iff in E as [-> _]. done.
  - right; right. by exists s.
Qed.

Lemma clampText_length (v : JsValue) fallback limit redact :
  (length fallback <= limit)%nat -> (redact = true -> 28 <= limit)%nat ->
  (length (clampText v fallback limit redact) <= limit)%nat.
Proof.
  intros Hf Hm.
  destruct (clampText_cases v fallback limit redact)
    as [-> | [[Hr ->] | (value & _ & ->)]].
  - exact Hf.
  - exact (Hm Hr).
  - rewrite length_take. lia.
Qed.

(** A text field comes out of a second pass unchanged, unless the cut left
    a space at its end or exposed restricted content. *)
Lemma clampText_twice (v : JsValue) fallback limit redact :
  tidy fallback = true -> fallback <> [] -> (length fallback <= limit)%nat ->
  (redact = true -> ~ restricted_text fallback) ->
  (redact = true -> 28 <= limit)%nat -> (1 <= limit)%nat ->
  settled_text redact (clampText v fallback limit redact) ->
  clampText (JString (clampText v fallback limit redact)) fallback limit redact
  = clampText v fallback limit redact.
Proof.
  intros Ht Hne Hl Hr Hm H1 [Hlast Hres].
  destruct (clampText_cases v fallback limit redact)
    as [E | [[-> E] | (value & Hn & E)]]; rewrite E in *.
  - by apply clampText_settled.
  - apply clampText_settled; [reflexivity | discriminate | exact (Hm eq_refl) |].
    intros _ Hx. apply test_restricted_text in Hx. vm_compute in Hx. discriminate.
  - apply clampText_settled; [| | rewrite length_take; lia | exact Hres].
    + apply tidy_take; [apply tidy_normalize | exact Hlast].
    + destruct (normalize value); [done|]. by destruct limit; [lia|].
Qed.

(** Conversely, a text that a pass leaves alone is settled. *)
Lemma clampText_fixed t fallback limit redact :
  tidy fallback = true -> (redact = true -> ~ restricted_text fallback) ->
  clampText (JString t) fallback limit redact = t ->
  settled_text redact t.
Proof.
  intros Hfb Hres E.
  assert (Hmarker : settled_text redact (js "Restricted in visible state.")).
  { split; [discriminate|]. intros _ Hx. apply test_restricted_text in Hx.
    vm_compute in Hx. discriminate. }
  assert (Htidy : forall x, tidy x = true -> last x <> Some 32%N).
  { intros x Hx Hl. apply andb_true_iff in Hx as [_ Hx].
    by pose proof (spaced_last x 32%N Hx Hl). }
  unfold clampText in E. case_bool_decide as Hn.
  - subst t. split; [by apply Htidy | exact Hres].
  - destruct (redact && test _ _) eqn:Et; [by rewrite <- E|].
    assert (Hlast : last t <> Some 32%N).
    { intros Hl. pose proof (normalize_shortens t 32%N Hl eq_refl) as Hs.
      apply (f_equal length) in E. rewrite length_take in E. lia. }
    split; [exact Hlast|]. intros -> Hx. simpl in Et.
    assert (Ht : tidy t = true).
    { rewrite <- E. apply tidy_take; [apply tidy_normalize | by rewrite E]. }
    rewrite (normalize_tidy t Ht) in Et.
    apply test_restricted_text in Hx. congruence.
Qed.

(** *** Descriptors *)

Lemma descriptorShape_units d :
  descriptorShape d = true ->
  d <> [] /\ Forall (fun c => in_range 97 122 c || (c =? 95)%N || (c =? 45)%N = true) d.
Proof.
  unfold descriptorShape. intros [Hn Hf]%andb_true_iff. split.
  - intros ->. discriminate.
  - apply Forall_forall. intros c Hc. rewrite forallb_forall in Hf.
    apply Hf. by apply list_elem_of_In.
Qed.

Lemma replaceRuns_solid (rep : JsString) (b : bool) (s : JsString) :
  Forall (fun c => isWhiteSpace c = false) s -> replaceRuns rep b s = s.
Proof.
  intros Hs. revert b. induction Hs as [|c s Hc Hs IH]; intros b; [reflexivity|].
  simpl. by rewrite Hc, IH.
Qed.

Lemma replaceRuns_keeps (rep : JsString) (b : bool) (s : JsString) (x : N) :
  x ∈ s -> isWhiteSpace x = true \/ x ∈ replaceRuns rep b s.
Proof.
  revert b. induction s as [|c s IH]; intros b Hx; [by apply elem_of_nil in Hx|].
  apply elem_of_cons in Hx as [->|Hx]; simpl.
  - destruct (isWhiteSpace c) eqn:Ec; [by left|]. right. left.
  - destruct (isWhiteSpace c); [destruct b|].
    + apply (IH true Hx).
    + destruct (IH true Hx) as [?|?]; [by left|]. right.
      apply elem_of_app. by right.
    + destruct (IH false Hx) as [?|?]; [by left|]. right. by right.
Qed.

Lemma replaceRuns_length (rep : JsString) (b : bool) (s : JsString) :
  (length rep <= 1)%nat -> (length (replaceRuns rep b s) <= length s)%nat.
Proof.
  intros Hr. revert b. induction s as [|c s IH]; intros b; [reflexivity|].
  simpl. destruct (isWhiteSpace c); [destruct b|].
  - specialize (IH true). lia.
  - rewrite length_app. specialize (IH true). lia.
  - simpl. specialize (IH false). lia.
Qed.

(** A descriptor that passes the checks passes them again, unchanged. *)
Lemma sanitizeDescriptor_ok d fallback :
  descriptor_ok d -> sanitizeDescriptor (JString d) fallback = d.
Proof.
  intros (Hshape & Htok & Hlen).
  destruct (descriptorShape_units d Hshape) as [Hne Hunits].
  assert (Hsolid : Forall (fun c => isWhiteSpace c = false) d).
  { eapply Forall_impl; [exact Hunits|]. intros c Hc. class_props. }
  assert (Hascii : Forall is_ascii d).
  { eapply Forall_impl; [exact Hunits|]. intros c Hc. class_props. }
  assert (Hlow : ascii_lower <$> d = d).
  { rewrite <- (list_fmap_id d) at 2. apply Forall_fmap_ext_1.
    eapply Forall_impl; [exact Hunits|]. intros c Hc. solve_class. }
  assert (Hdig : existsb isDigit d = false).
  { apply not_true_is_false. intros E. apply existsb_exists in E as (c & Hc & Hd).
    rewrite Forall_forall in Hunits. apply list_elem_of_In in Hc.
    specialize (Hunits c Hc). class_props. }
  unfold sanitizeDescriptor.
  rewrite clampText_settled;
    [| by apply tidy_solid | exact Hne | exact Hlen | discriminate].
  rewrite (toLowerCase_ascii d Hascii), Hlow.
  unfold replaceWhiteSpace. rewrite (replaceRuns_solid _ _ _ Hsolid).
  rewrite Hdig, Hshape.
  unfold descriptor_tokens in Htok.
  repeat (apply Forall_cons in Htok as [-> Htok]). reflexivity.
Qed.

(** What [sanitizeDescriptor] returns passes its own checks. *)
Lemma sanitizeDescriptor_output (v : JsValue) fallback :
  descriptor_ok fallback -> descriptor_ok (sanitizeDescriptor v fallback).
Proof.
  intros Hfb. unfold sanitizeDescriptor.
  set (c1 := clampText v fallback 64 false).
  set (candidate := replaceWhiteSpace (js "_") (toLowerCase c1)).
  destruct (existsb isDigit candidate); [exact Hfb|].
  destruct (includes candidate (js "seed") || _ || _ || _ || _) eqn:Etok; [exact Hfb|].
  destruct (descriptorShape candidate) eqn:Eshape; [|exact Hfb]. simpl.
  split; [exact Eshape|]. split.
  - repeat (apply orb_false_iff in Etok as [Etok ?]).
    unfold descriptor_tokens. by repeat constructor.
  - destruct (descriptorShape_units candidate Eshape) as [_ Hunits].
    assert (Hdot : 0x307%N ∉ toLowerCase c1).
    { intros Hin.
      destruct (replaceRuns_keeps (js "_") false _ _ Hin) as [Hw | Hc].
      - vm_compute in Hw. discriminate.
      - rewrite Forall_forall in Hunits. specialize (Hunits _ Hc).
        vm_compute in Hunits. discriminate. }
    pose proof (replaceRuns_length (js "_") false (toLowerCase c1)) as Hl.
    rewrite (toLowerCase_length c1 Hdot) in Hl.
    assert (length c1 <= 64)%nat.
    { apply clampText_length; [by destruct Hfb as (_ & _ & ?) | discriminate]. }
    unfold candidate, replaceWhiteSpace. simpl in Hl. lia.
Qed.

Lemma sanitizeDescriptor_twice (v : JsValue) fallback :
  descriptor_ok fallback ->
  sanitizeDescriptor (JString (sanitizeDescriptor v fallback)) fallback
  = sanitizeDescriptor v fallback.
Proof.
  intros Hfb. by apply sanitizeDescriptor_ok, sanitizeDescriptor_output.
Qed.

Ltac side_fact := first [reflexivity | discriminate | simpl; lia].

Ltac descriptor_ok_closed :=
  split; [vm_compute; reflexivity | split; [by repeat constructor | simpl; lia]].

(** *** Closed vocabularies *)

Lemma sanitizeStatus_twice (v : JsValue) :
  sanitizeStatus (JString (sanitizeStatus v)) = sanitizeStatus v.
Proof.
  assert (Hterm : forall t, t ∈ STATUS_TERMS -> sanitizeStatus (JString t) = t).
  { intros t Ht. unfold sanitizeStatus.
    assert (Hok : descriptor_ok t).
    { unfold STATUS_TERMS in Ht.
      repeat (apply elem_of_cons in Ht as [->|Ht]; [descriptor_ok_closed|]).
      by apply elem_of_nil in Ht. }
    rewrite (sanitizeDescriptor_ok t _ Hok). by rewrite bool_decide_true. }
  apply Hterm. unfold sanitizeStatus. case_bool_decide; [assumption|].
  unfold STATUS_TERMS. left.
Qed.

Lemma evidence_state_twice (v : JsValue) :
  let state_of v :=
    let state := sanitizeDescriptor v (js "logged") in
    if bool_decide (state ∈ EVIDENCE_STATES) then state else js "logged" in
  state_of (JString (state_of v)) = state_of v.
Proof.
  intros state_of.
  assert (Hterm : forall t, t ∈ EVIDENCE_STATES -> state_of (JString t) = t).
  { intros t Ht. unfold state_of.
    assert (Hok : descriptor_ok t).
    { unfold EVIDENCE_STATES in Ht.
      repeat (apply elem_of_cons in Ht as [->|Ht]; [descriptor_ok_closed|]).
      by apply elem_of_nil in Ht. }
    rewrite (sanitizeDescriptor_ok t _ Hok). by rewrite bool_decide_true. }
  apply Hterm. unfold state_of. case_bool_decide; [assumption|].
  unfold EVIDENCE_STATES. right; left.
Qed.

Lemma sanitizePressure_name (l : PressureLabel) :
  sanitizePressure (JString (PressureLabel_name l)) = l.
Proof.
  unfold sanitizePressure.
  rewrite sanitizeDescriptor_ok; [by destruct l|].
  destruct l; descriptor_ok_closed.
Qed.

(** *** Turn *)

Lemma flooredTurn_nonneg (n : JsNumber) : 0 <= flooredTurn n.
Proof.
  destruct n as [| |m e]; simpl; try lia.
  destruct (Z.leb_spec 0 m); [|lia]. by apply Z.shiftl_nonneg.
Qed.

Lemma flooredTurn_twice (n : JsNumber) :
  flooredTurn <$> ToNumber (JNumber (Finite (flooredTurn n) 0))
  = Normal (flooredTurn n).
Proof.
  cbn. f_equal. rewrite (proj2 (Z.leb_le _ _) (flooredTurn_nonneg n)).
  apply Z.shiftl_0_r.
Qed.

(** *** Time stamps *)

(** Both calls of [toISOString] in [sanitizeIsoTime] are on valid dates: the
    result is the ISO text of a time value within the range of dates. *)
Lemma sanitizeIsoTime_valid_dates (v : JsValue) :
  exists tv : Z, Z.abs tv <= JsDate.maxTime /\ sanitizeIsoTime v = JsDate.isoFormat tv.
Proof.
  unfold sanitizeIsoTime.
  assert (Hepoch : exists tv : Z, Z.abs tv <= JsDate.maxTime
            /\ returned (JsDate.toISOString (JsDate.UTC 2026 1 1 0 0 0))
               = JsDate.isoFormat tv).
  { exists 1769904000000. split; [unfold JsDate.maxTime; lia | reflexivity]. }
  case_bool_decide; [exact Hepoch|].
  destruct (JsDate.parse _ _) as [tv|] eqn:E; [|exact Hepoch].
  exists tv. split; [by eapply parse_valid | reflexivity].
Qed.

Lemma sanitizeIsoTime_twice (v : JsValue) :
  sanitizeIsoTime (JString (sanitizeIsoTime v)) = sanitizeIsoTime v.
Proof.
  destruct (sanitizeIsoTime_valid_dates v) as (tv & Ht & ->).
  destruct (isoFormat_shape tv Ht) as (Hlen & Hne & Hsolid).
  unfold sanitizeIsoTime.
  rewrite clampText_settled;
    [| by apply tidy_solid | exact Hne | lia | discriminate].
  rewrite bool_decide_false by exact Hne.
  by rewrite (parse_isoFormat _ tv Ht).
Qed.

(** *** Fallback names built from an index *)

Lemma index_text (pre : JsString) (index limit : nat) :
  tidy (pre ++ [120%N]) = true -> (length pre + 10 <= limit)%nat ->
  Z.of_nat index < 2 ^ 32 ->
  let text := pre ++ String_ofZ (Z.of_nat index + 1) in
  tidy text = true /\ text <> [] /\ (length text <= limit)%nat.
Proof.
  intros Hpre Hlim Hi text. unfold text.
  rewrite String_ofZ_nonneg by lia.
  set (fuel := Z.to_nat (Z.log2 (Z.of_nat index + 1))).
  assert (Hlen : (1 <= length (decimal (S fuel) (Z.of_nat index + 1)) <= 10)%nat).
  { split.
    - cbn [decimal]. rewrite length_app. simpl. lia.
    - apply decimal_length; [|lia].
      change (10 ^ Z.of_nat 10) with 10000000000.
      change (2 ^ 32) with 4294967296 in Hi. lia. }
  split; [|split].
  - apply tidy_app_solid; [exact Hpre | |].
    + intros E. rewrite E in Hlen. simpl in Hlen. lia.
    + eapply Forall_impl; [apply decimal_digits|]. intros c Hc. class_props.
  - intros E. apply (f_equal length) in E. rewrite length_app in E.
    change (length (@nil N)) with 0%nat in E. lia.
  - rewrite length_app. lia.
Qed.

(** *** Records *)

Lemma get_EvidenceItem (e : EvidenceItem) :
  get (EvidenceItem_toJs e) "id" = JString (ev_id e)
  /\ get (EvidenceItem_toJs e) "label" = JString (ev_label e)
  /\ get (EvidenceItem_toJs e) "category" = JString (category e)
  /\ get (EvidenceItem_toJs e) "state" = JString (ev_state e)
  /\ get (EvidenceItem_toJs e) "summary" = JString (ev_summary e).
Proof. repeat split; reflexivity. Qed.

Lemma get_TimelineItem (i : TimelineItem) :
  get (TimelineItem_toJs i) "time" = JString (time i)
  /\ get (TimelineItem_toJs i) "label" = JString (tl_label i)
  /\ get (TimelineItem_toJs i) "details" = JString (details i).
Proof. repeat split; reflexivity. Qed.

Lemma get_VisibleState (o : VisibleState) :
  get (VisibleState_toJs o) "case_id" = JString (case_id o)
  /\ get (VisibleState_toJs o) "crime_type" = JString (crime_type o)
  /\ get (VisibleState_toJs o) "turn" = JNumber (Finite (turn o) 0)
  /\ get (VisibleState_toJs o) "status" = JString (status o)
  /\ get (VisibleState_toJs o) "evidence" = JArray (EvidenceItem_toJs <$> evidence o)
  /\ get (VisibleState_toJs o) "timeline" = JArray (TimelineItem_toJs <$> timeline o)
  /\ get (VisibleState_toJs o) "investigator_signals"
     = InvestigatorSignals_toJs (investigator_signals o)
  /\ get (VisibleState_toJs o) "pressure" = PressureState_toJs (pressure o).
Proof. repeat split; reflexivity. Qed.

Lemma get_signals (i : InvestigatorSignals) :
  let signals := orEmptyObject (InvestigatorSignals_toJs i) in
  get signals "priority" = JString (priority i)
  /\ get signals "demeanour" = JString (demeanour i)
  /\ get signals "recent_shift" = JString (recent_shift i).
Proof. repeat split; reflexivity. Qed.

Lemma get_pressure (p : PressureState) :
  let pressure := orEmptyObject (PressureState_toJs p) in
  get pressure "public" = JString (PressureLabel_name (public p))
  /\ get pressure "institutional" = JString (PressureLabel_name (institutional p))
  /\ get pressure "personal" = JString (PressureLabel_name (personal p)).
Proof. repeat split; reflexivity. Qed.

Lemma constant_not_restricted (t : JsString) :
  test RESTRICTED_TEXT_PATTERN t = false -> ~ restricted_text t.
Proof. intros E Hr. apply test_restricted_text in Hr. congruence. Qed.

Lemma sanitizeEvidence_twice (item : JsValue) (index : nat) :
  Z.of_nat index < 2 ^ 32 ->
  let e := sanitizeEvidence item index in
  settled_text false (ev_id e) -> settled_text false (ev_label e) ->
  settled_text true (ev_summary e) ->
  sanitizeEvidence (EvidenceItem_toJs e) index = e.
Proof.
  intros Hi e Hid Hlabel Hsummary.
  destruct (get_EvidenceItem e) as (G1 & G2 & G3 & G4 & G5).
  unfold sanitizeEvidence at 1. rewrite G1, G2, G3, G4, G5. clear G1 G2 G3 G4 G5.
  destruct (index_text (js "e") index 32) as (T1 & N1 & L1);
    [reflexivity | simpl; lia | exact Hi |].
  destruct (index_text (js "Evidence ") index 70) as (T2 & N2 & L2);
    [reflexivity | simpl; lia | exact Hi |].
  subst e. unfold sanitizeEvidence in *. cbn [ev_id ev_label ev_summary ev_state category] in *.
  f_equal.
  - apply clampText_twice; [exact T1 | exact N1 | exact L1 | ..| exact Hid]; side_fact.
  - apply clampText_twice; [exact T2 | exact N2 | exact L2 | ..| exact Hlabel];
      side_fact.
  - apply sanitizeDescriptor_twice. descriptor_ok_closed.
  - apply evidence_state_twice.
  - apply clampText_twice; [reflexivity | discriminate | simpl; lia | | lia | lia
                            | exact Hsummary].
    intros _. by apply constant_not_restricted.
Qed.

Lemma sanitizeTimeline_twice (item : JsValue) (index : nat) :
  Z.of_nat index < 2 ^ 32 ->
  let i := sanitizeTimeline item index in
  settled_text false (tl_label i) -> settled_text true (details i) ->
  sanitizeTimeline (TimelineItem_toJs i) index = i.
Proof.
  intros Hi i Hlabel Hdetails.
  destruct (get_TimelineItem i) as (G1 & G2 & G3).
  unfold sanitizeTimeline at 1. rewrite G1, G2, G3. clear G1 G2 G3.
  destruct (index_text (js "event_") index 60) as (T1 & N1 & L1);
    [reflexivity | simpl; lia | exact Hi |].
  subst i. unfold sanitizeTimeline in *. cbn [time tl_label details] in *.
  f_equal.
  - apply sanitizeIsoTime_twice.
  - apply clampText_twice; [exact T1 | exact N1 | exact L1 | ..| exact Hlabel];
      side_fact.
  - apply clampText_twice; [reflexivity | discriminate | simpl; lia | | lia | lia
                            | exact Hdetails].
    intros _. by apply constant_not_restricted.
Qed.

(** C10 (amended). A second pass of [sanitizeVisibleState] over its own
    output returns that output, provided no text field of the output
    (case_id; id, label and summary of the evidence; label and details of the
    timeline) ends in a space and no summary or details holds restricted
    content, for inputs whose arrays have fewer than 2^32 elements.
    Descriptors, status, pressure labels, evidence states, the turn and the
    ISO time stamps are always left as they are. *)
Theorem sanitizeVisibleState_idempotent (input : JsValue) (o : VisibleState) :
  array_sized input ->
  sanitizeVisibleState input = Normal o ->
  settled o ->
  sanitizeVisibleState (VisibleState_toJs o) = Normal o.
Proof.
  intros [Hev Htl] E0 (Hcase & Hevidence & Htimeline).
  destruct (get_VisibleState o) as (G1 & G2 & G3 & G4 & G5 & G6 & G7 & G8).
  unfold sanitizeVisibleState at 1.
  rewrite G1, G2, G3, G4, G5, G6, G7, G8. clear G1 G2 G3 G4 G5 G6 G7 G8.
  destruct (get_signals (investigator_signals o)) as (S1 & S2 & S3).
  destruct (get_pressure (pressure o)) as (P1 & P2 & P3).
  cbv zeta in S1, S2, S3, P1, P2, P3.
  rewrite S1, S2, S3, P1, P2, P3. clear S1 S2 S3 P1 P2 P3.
  cbn [arrayOrEmpty ToNumber].
  unfold sanitizeVisibleState in E0.
  destruct (ToNumber (get input "turn")) as [rawTurn|] eqn:Hn; [|discriminate].
  unfold mbind, Completion_bind, mret, Completion_ret in *. injection E0 as <-.
  cbn [case_id crime_type turn status evidence timeline investigator_signals
       pressure priority demeanour recent_shift public institutional personal] in *.
  f_equal. f_equal.
  - apply clampText_twice; [..| exact Hcase]; side_fact.
  - apply sanitizeDescriptor_twice. descriptor_ok_closed.
  - pose proof (flooredTurn_twice rawTurn) as Ht. cbn in Ht. by injection Ht.
  - apply sanitizeStatus_twice.
  - apply list_eq. intros i.
    rewrite list_lookup_imap, list_lookup_fmap, list_lookup_imap.
    destruct (arrayOrEmpty (get input "evidence") !! i) as [item|] eqn:E;
      [|reflexivity].
    cbn [fmap option_fmap option_map]. f_equal.
    rewrite Forall_lookup in Hevidence.
    destruct (Hevidence i (sanitizeEvidence item i)) as (H1 & H2 & H3).
    { by rewrite list_lookup_imap, E. }
    apply sanitizeEvidence_twice; try assumption.
    apply lookup_lt_Some in E. lia.
  - apply list_eq. intros i.
    rewrite list_lookup_imap, list_lookup_fmap, list_lookup_imap.
    destruct (arrayOrEmpty (get input "timeline") !! i) as [item|] eqn:E;
      [|reflexivity].
    cbn [fmap option_fmap option_map]. f_equal.
    rewrite Forall_lookup in Htimeline.
    destruct (Htimeline i (sanitizeTimeline item i)) as (H1 & H2).
    { by rewrite list_lookup_imap, E. }
    apply sanitizeTimeline_twice; try assumption.
    apply lookup_lt_Some in E. lia.
  - f_equal; apply sanitizeDescriptor_twice; descriptor_ok_closed.
  - f_equal; apply sanitizePressure_name.
Qed.

(** The condition of the theorem is the exact one: where a second pass
    returns the output, every text field of the output is settled. *)
Lemma sanitizeVisibleState_fixed_settled (input : JsValue) (o : VisibleState) :
  array_sized input ->
  sanitizeVisibleState input = Normal o ->
  sanitizeVisibleState (VisibleState_toJs o) = Normal o ->
  settled o.
Proof.
  intros [Hev Htl] E0 E.
  unfold sanitizeVisibleState in E. cbv zeta in E.
  unfold mbind, Completion_bind, mret, Completion_ret in E. injection E as E.
  pose proof (f_equal case_id E) as Ecase.
  pose proof (f_equal evidence E) as Eevidence.
  pose proof (f_equal timeline E) as Etimeline.
  clear E.
  cbn [evidence timeline] in Eevidence, Etimeline.
  change (clampText (JString (case_id o)) (js "case_001") 40 false = case_id o)
    in Ecase.
  unfold sanitizeVisibleState in E0.
  destruct (ToNumber (get input "turn")) as [rawTurn|] eqn:Hn; [|discriminate].
  unfold mbind, Completion_bind, mret, Completion_ret in E0. injection E0 as E0.
  set (first_pass := sanitizeVisibleState input).
  assert (Hlev : length (evidence o) = length (arrayOrEmpty (get input "evidence")))
    by (rewrite <- E0; cbn [evidence]; apply length_imap).
  assert (Hltl : length (timeline o) = length (arrayOrEmpty (get input "timeline")))
    by (rewrite <- E0; cbn [timeline]; apply length_imap).
  clear E0 first_pass.
  split; [|split].
  - eapply clampText_fixed; [| |exact Ecase]; side_fact.
  - apply Forall_lookup. intros i e Hie.
    pose proof (f_equal (fun l => l !! i) Eevidence) as Ei. cbn beta in Ei.
    rewrite list_lookup_imap, list_lookup_fmap, Hie in Ei.
    cbn [fmap option_fmap option_map] in Ei. injection Ei as Ei.
    destruct (get_EvidenceItem e) as (F1 & F2 & _ & _ & F5).
    assert (Hi : Z.of_nat i < 2 ^ 32).
    { apply lookup_lt_Some in Hie. lia. }
    destruct (index_text (js "e") i 32) as (T1 & _ & _);
      [reflexivity | simpl; lia | exact Hi |].
    destruct (index_text (js "Evidence ") i 70) as (T2 & _ & _);
      [reflexivity | simpl; lia | exact Hi |].
    pose proof (f_equal ev_id Ei) as E1.
    pose proof (f_equal ev_label Ei) as E2.
    pose proof (f_equal ev_summary Ei) as E3.
    unfold sanitizeEvidence in E1, E2, E3. cbn [ev_id ev_label ev_summary] in E1, E2, E3.
    rewrite F1 in E1. rewrite F2 in E2. rewrite F5 in E3.
    split; [|split].
    + eapply clampText_fixed; [exact T1 | | exact E1]. discriminate.
    + eapply clampText_fixed; [exact T2 | | exact E2]. discriminate.
    + eapply clampText_fixed; [| | exact E3]; [reflexivity|].
      intros _. by apply constant_not_restricted.
  - apply Forall_lookup. intros i e Hie.
    pose proof (f_equal (fun l => l !! i) Etimeline) as Ei. cbn beta in Ei.
    rewrite list_lookup_imap, list_lookup_fmap, Hie in Ei.
    cbn [fmap option_fmap option_map] in Ei. injection Ei as Ei.
    destruct (get_TimelineItem e) as (_ & F2 & F3).
    assert (Hi : Z.of_nat i < 2 ^ 32).
    { apply lookup_lt_Some in Hie. lia. }
    destruct (index_text (js "event_") i 60) as (T1 & _ & _);
      [reflexivity | simpl; lia | exact Hi |].
    pose proof (f_equal tl_label Ei) as E2.
    pose proof (f_equal details Ei) as E3.
    unfold sanitizeTimeline in E2, E3. cbn [tl_label details] in E2, E3.
    rewrite F2 in E2. rewrite F3 in E3.
    split.
    + eapply clampText_fixed; [exact T1 | | exact E2]. discriminate.
    + eapply clampText_fixed; [| | exact E3]; [reflexivity|].
      intros _. by apply constant_not_restricted.
Qed.

End SecondPass.

Lemma sanitizeVisibleState_idempotent_witness :
  exists o,
    array_sized sample_payload
    /\ sanitizeVisibleState sample_payload = Normal o
    /\ settled o
    /\ sanitizeVisibleState (VisibleState_toJs o) = Normal o.
Proof.
  assert (Hsize : array_sized sample_payload) by (split; reflexivity).
  eexists. split; [exact Hsize|].
  assert (E0 : sanitizeVisibleState sample_payload = Normal _)
    by (vm_compute; reflexivity).
  split; [exact E0|].
  match type of E0 with _ = Normal ?o => set (out := o) in * end.
  assert (Hsettled : settled out).
  { assert (Hplain : forall t : JsString,
               last t <> Some 32%N -> settled_text false t)
      by (intros t Ht; split; [exact Ht | discriminate]).
    assert (Hchecked : forall t : JsString,
               last t <> Some 32%N -> test RESTRICTED_TEXT_PATTERN t = false ->
               settled_text true t).
    { intros t Ht Hr. split; [exact Ht|]. intros _ Hx.
      apply test_restricted_text in Hx. rewrite Hx in Hr. discriminate. }
    split; [|split].
    - apply Hplain. vm_compute. discriminate.
    - repeat constructor;
        first [ apply Hplain; vm_compute; discriminate
              | apply Hchecked; [vm_compute; discriminate | vm_compute; reflexivity] ].
    - repeat constructor;
        first [ apply Hplain; vm_compute; discriminate
              | apply Hchecked; [vm_compute; discriminate | vm_compute; reflexivity] ]. }
  split; [exact Hsettled|].
  exact (sanitizeVisibleState_idempotent sample_payload out Hsize E0 Hsettled).
Defined.

(** C10 (counterexample). A case id of thirty-nine letters, a space and a
    letter is cut after the space; the second pass trims that space away. *)
Lemma sanitizeVisibleState_second_pass_differs :
  exists o o',
    sanitizeVisibleState padded_case_id = Normal o
    /\ case_id o = replicate 39 97%N ++ [32%N]
    /\ sanitizeVisibleState (VisibleState_toJs o) = Normal o'
    /\ case_id o' = replicate 39 97%N
    /\ sanitizeVisibleState (VisibleState_toJs o) <> Normal o.
Proof.
  eexists _, _. split; [vm_compute; reflexivity|].
  split; [vm_compute; reflexivity|].
  split; [vm_compute; reflexivity|].
  split; [vm_compute; reflexivity|].
  intros E. vm_compute in E. discriminate.
Qed.

(** * Further properties *)

Section MockGenerator.

Lemma ToUint32_range (x : Z) : 0 <= ToUint32 x < 4294967296.
Proof. unfold ToUint32. apply Z.mod_pos_bound. lia. Qed.

Lemma rng_range (value : Z) : 0 <= fst (rng value) < 4294967296.
Proof. unfold rng. cbn [fst]. apply ToUint32_range. Qed.

Lemma rng_floor_times_range (n value : Z) :
  0 < n -> 0 <= fst (rng_floor_times n value) < n.
Proof.
  intros Hn. unfold rng_floor_times, mbind, Rng_bind, mret, Rng_ret.
  pose proof (rng_range value) as Hr. destruct (rng value) as [u value'].
  cbn [fst] in *. split.
  - apply Z.div_pos; nia.
  - apply Z.div_lt_upper_bound; nia.
Qed.

Lemma pickFrom_in `{Inhabited A} (items : list A) (value : Z) :
  items <> [] -> fst (pickFrom items value) ∈ items.
Proof.
  intros Hne. unfold pickFrom, mbind, Rng_bind, mret, Rng_ret.
  pose proof (rng_floor_times_range (Z.of_nat (length items)) value) as Hr.
  destruct (rng_floor_times _ value) as [i value']. cbn [fst] in *.
  assert (0 < Z.of_nat (length items)) by (destruct items; [done | simpl; lia]).
  apply list_elem_of_lookup_total_2. lia.
Qed.

(** X1. Whatever the state of the generator, a draw is a number in [0, 1)
    (its numerator over 2^32 is in [0, 2^32)), and [pickFrom] on an array that
    is not empty returns one of its elements: the index it computes is never
    out of range. *)
Theorem pickFrom_elem `{Inhabited A} (items : list A) (value : Z) :
  items <> [] ->
  0 <= fst (rng value) < 4294967296
  /\ fst (pickFrom items value) ∈ items.
Proof.
  intros Hne. split; [apply rng_range | by apply pickFrom_in].
Qed.

Lemma pickFrom_elem_witness :
  0 <= fst (rng 7) < 4294967296
  /\ fst (pickFrom [low; moderate; elevated] 7) ∈ [low; moderate; elevated].
Proof. apply (pickFrom_elem [low; moderate; elevated] 7). discriminate. Defined.

End MockGenerator.

Ltac draw_all :=
  repeat match goal with
         | |- context [pickFrom ?l ?v] =>
             let Hp := fresh "Hp" in
             pose proof (pickFrom_in l v ltac:(discriminate)) as Hp;
             destruct (pickFrom l v) as [? ?]; cbn [fst] in Hp
         | |- context [rng_gt_half ?v] => destruct (rng_gt_half v) as [? ?]
         | |- context [rng_floor_times 3 ?v] =>
             let Hp := fresh "Hp" in
             pose proof (rng_floor_times_range 3 v ltac:(lia)) as Hp;
             destruct (rng_floor_times 3 v) as [? ?]; cbn [fst] in Hp
         end.

Section InitialState.

(** X2. For every seed the initial state of the mock engine has the same
    make-up: a crime type out of four, a turn from 1 to 3, status "active",
    the four evidence items e1..e4 of which e1 is surfaced, e3 under review,
    e2 surfaced or logged and e4 logged or under review, the three fixed
    timeline entries, signals drawn from their lists, and pressure labels on
    the lower part of the ordered scale. *)
Theorem createInitialMockState_shape (seed : Z) :
  let s := createInitialMockState seed in
  crime_type s ∈ [js "murder"; js "fraud"; js "arson"; js "kidnapping"]
  /\ 1 <= turn s <= 3
  /\ status s = js "active"
  /\ (ev_id <$> evidence s) = [js "e1"; js "e2"; js "e3"; js "e4"]
  /\ (exists x2 x4, (ev_state <$> evidence s) = [js "surfaced"; x2; js "review"; x4]
                    /\ x2 ∈ [js "surfaced"; js "logged"]
                    /\ x4 ∈ [js "logged"; js "review"])
  /\ (tl_label <$> timeline s)
     = [js "incident"; js "first_response"; js "evidence_intake"]
  /\ priority (investigator_signals s) ∈ priorities
  /\ demeanour (investigator_signals s)
     ∈ [js "controlled"; js "impatient"; js "guarded"; js "methodical"]
  /\ recent_shift (investigator_signals s)
     ∈ [js "attention_narrowing"; js "scope_balancing"; js "risk_avoidance"]
  /\ public (pressure s) ∈ [low; moderate; elevated]
  /\ institutional (pressure s) ∈ [low; moderate]
  /\ personal (pressure s) ∈ [moderate; elevated].
Proof.
  unfold createInitialMockState, mbind, Rng_bind, mret, Rng_ret. cbv zeta.
  draw_all. cbn [fst crime_type turn status evidence timeline investigator_signals
                 pressure priority demeanour recent_shift public institutional
                 personal].
  repeat split; try assumption; try lia.
  match goal with
  | |- context [if ?b2 then js "surfaced" else js "logged"] =>
      match goal with
      | |- context [if ?b4 then js "logged" else js "review"] =>
          exists (if b2 then js "surfaced" else js "logged"),
                 (if b4 then js "logged" else js "review");
          split; [reflexivity|]; split;
          [destruct b2; [left | right; left] | destruct b4; [left | right; left]]
      end
  end.
Qed.

(** X3. For a seed that is not negative the case id is "case_" followed by
    exactly three digits, which spell 100 + (seed mod 900). *)
Theorem createInitialMockState_case_id (seed : Z) :
  0 <= seed ->
  exists ds,
    case_id (createInitialMockState seed) = js "case_" ++ ds
    /\ length ds = 3%nat
    /\ JsDate.digitsValue ds = Some (100 + seed mod 900).
Proof.
  intros Hs. exists (JsDate.digits 3 (100 + seed mod 900)).
  pose proof (Z.mod_pos_bound seed 900 ltac:(lia)).
  destruct (digits_spec 3 (100 + seed mod 900)) as (Hl & Hv & _);
    [simpl; lia | lia |].
  split; [|split; assumption].
  unfold createInitialMockState, mbind, Rng_bind, mret, Rng_ret. cbv zeta.
  draw_all. cbn [fst case_id]. unfold JsDate.digits.
  rewrite Z.rem_mod_nonneg by lia. by rewrite Z.add_comm.
Qed.

Lemma createInitialMockState_case_id_witness :
  exists ds,
    case_id (createInitialMockState 1942) = js "case_" ++ ds
    /\ length ds = 3%nat
    /\ JsDate.digitsValue ds = Some (100 + 1942 mod 900).
Proof. apply (createInitialMockState_case_id 1942). lia. Defined.

End InitialState.

Ltac elem_of_literal :=
  solve [repeat first [apply list_elem_of_here | apply list_elem_of_further]].

Section MockActions.

Implicit Types (s : VisibleState) (a : MockAdapter).

Lemma appendTimeline_Normal s (label details : JsString) tl :
  appendTimeline s label details = Normal tl ->
  tl = slice_last 12 (timeline s ++ [timeline_entry (turn s) label details]).
Proof.
  unfold appendTimeline. rewrite UTC_eventTime. unfold JsDate.TimeClip.
  destruct (Z.abs _ <=? _); simpl; [|discriminate].
  intros [= <-]. reflexivity.
Qed.

Lemma appendTimeline_in_window s (label details : JsString) :
  0 <= turn s <= last_turn + 1 ->
  appendTimeline s label details
  = Normal (slice_last 12 (timeline s ++ [timeline_entry (turn s) label details])).
Proof.
  intros H. unfold appendTimeline, last_turn in *.
  rewrite UTC_eventTime_in_window by lia. reflexivity.
Qed.

Lemma appendTimeline_past_window s (label details : JsString) :
  last_turn + 1 < turn s ->
  appendTimeline s label details = Throw (RangeError (js "Invalid time value")).
Proof.
  intros H. unfold appendTimeline, last_turn in *.
  rewrite UTC_eventTime_past_window by lia. reflexivity.
Qed.

Lemma slice_last_snoc {A} (l : list A) (x : A) :
  length (slice_last 12 (l ++ [x])) = Nat.min 12 (length l + 1)
  /\ last (slice_last 12 (l ++ [x])) = Some x
  /\ ((length l < 12)%nat -> slice_last 12 (l ++ [x]) = l ++ [x])
  /\ ((12 <= length l)%nat ->
      slice_last 12 (l ++ [x]) = drop (length l - 11) l ++ [x]).
Proof.
  unfold slice_last. rewrite length_app. cbn [length].
  split; [rewrite length_drop, length_app; cbn [length]; lia|].
  split.
  - rewrite drop_app_le by lia. apply last_snoc.
  - split; intros Hl.
    + replace (length l + 1 - 12)%nat with 0%nat by lia. reflexivity.
    + rewrite drop_app_le by lia. f_equal. f_equal. lia.
Qed.

(** X4. Up to the last representable date, [appendTimeline] returns the
    timeline with one entry appended, carrying the given label and details
    and stamped ten past the hour, [20 + turn] hours into 1 February 2026.
    The result holds at most twelve entries: below twelve nothing is dropped,
    from twelve on only the last eleven old entries stay, and the new entry
    is always the last.  Its time stamp reads back as the instant it was
    printed from. *)
Theorem appendTimeline_cap s (label details : JsString) (other : JsString -> option Z) :
  0 <= turn s <= last_turn + 1 ->
  let entry := timeline_entry (turn s) label details in
  exists tl,
    appendTimeline s label details = Normal tl
    /\ length tl = Nat.min 12 (length (timeline s) + 1)
    /\ last tl = Some entry
    /\ ((length (timeline s) < 12)%nat -> tl = timeline s ++ [entry])
    /\ ((12 <= length (timeline s))%nat ->
        tl = drop (length (timeline s) - 11) (timeline s) ++ [entry])
    /\ JsDate.parse other (time entry) = Some (eventTime_ms (turn s)).
Proof.
  intros H entry. eexists. split; [by apply appendTimeline_in_window|].
  destruct (slice_last_snoc (timeline s) entry) as (H1 & H2 & H3 & H4).
  repeat split; try assumption.
  apply parse_isoFormat. unfold eventTime_ms, JsDate.maxTime, last_turn in *. lia.
Qed.

Lemma appendTimeline_cap_witness :
  let s := createInitialMockState 42 in
  0 <= turn s <= last_turn + 1
  /\ exists tl,
       appendTimeline s (js "briefing_delayed") (js "Pushed.") = Normal tl
       /\ length tl = 4%nat.
Proof.
  intros s.
  assert (Hturn : 0 <= turn s <= last_turn + 1) by (vm_compute; split; discriminate).
  split; [exact Hturn|].
  destruct (appendTimeline_cap s (js "briefing_delayed") (js "Pushed.")
              (fun _ => None) Hturn) as (tl & E & Hl & _).
  exists tl. split; [exact E|]. rewrite Hl. reflexivity.
Defined.


Lemma guard_fails_dec s (actionId : JsString) : Decision (guard_fails s actionId).
Proof. unfold guard_fails. apply _. Defined.

Lemma findIndex_state_Some (st : JsString) (l : list EvidenceItem) i e :
  findIndex_state st l = Some (i, e) ->
  l !! i = Some e /\ ev_state e = st
  /\ (forall j e', l !! j = Some e' -> (j < i)%nat -> ev_state e' <> st).
Proof.
  unfold findIndex_state. intros E. apply list_find_Some in E as (Hi & He & Hfirst).
  split; [exact Hi|]. split; [exact He|]. intros j e' Hj Hlt. exact (Hfirst j e' Hj Hlt).
Qed.

Lemma findIndex_state_not_Forall (st : JsString) (l : list EvidenceItem) i e :
  findIndex_state st l = Some (i, e) ->
  ~ Forall (fun item => ev_state item <> st) l.
Proof.
  intros E H. apply findIndex_state_Some in E as (Hi & He & _).
  rewrite Forall_lookup in H. exact (H i e Hi He).
Qed.

Lemma next_index (p : JsString) :
  priorities !!! Z.to_nat
    (if indexOf p priorities <? 0 then 0
     else (indexOf p priorities + 1) mod Z.of_nat (length priorities))
  = next_priority p.
Proof.
  unfold next_priority, indexOf, priorities.
  destruct (decide (p = js "forensics")) as [->|N1]; [reflexivity|].
  destruct (decide (p = js "interviews")) as [->|N2]; [reflexivity|].
  destruct (decide (p = js "financial")) as [->|N3]; [reflexivity|].
  destruct (decide (p = js "surveillance")) as [->|N4]; [reflexivity|].
  cbn [list_find].
  rewrite !decide_False by congruence. reflexivity.
Qed.



(** The common shape of the branches of [applyMockAction] that go through:
    the state is advanced, the entry stamped, the answer built. *)
Lemma applyMockAction_passes s (actionId : JsString) :
  ~ guard_fails s actionId ->
  exists next (label details : JsString) res,
    applyMockAction s actionId
    = (tl ← appendTimeline next label details;
       mret {| visible_state := set_timeline tl next; action_result := res |})
    /\ turn next = turn s + 1
    /\ timeline next = timeline s
    /\ success res = true
    /\ advances s
         (set_timeline
            (slice_last 12
               (timeline s ++ [timeline_entry (turn s + 1) label details])) next).
Proof.
  intros G.
  assert (Hin : actionId ∈ catalogue).
  { destruct (decide (actionId ∈ catalogue)) as [?|N]; [done|].
    exfalso. apply G. by do 3 right. }
  unfold catalogue in Hin.
  repeat (apply elem_of_cons in Hin as [-> | Hin]); [..| by apply elem_of_nil in Hin].
  - unfold applyMockAction. rewrite decide_True by reflexivity.
    destruct (findIndex_state _ _) as [[i e]|] eqn:Ei.
    2:{ exfalso. apply G. left. split; [reflexivity|].
        unfold findIndex_state in Ei. by apply list_find_None in Ei. }
    apply findIndex_state_Some in Ei as (Hi & He & _).
    cbv zeta. eexists _, _, _, _. split; [reflexivity|].
    do 3 (split; [reflexivity|]). unfold advances. cbn.
    repeat split; try reflexivity; try elem_of_literal.
    + by eexists _, _.
    + right. exists i, e, (js "suppressed"),
        (js "Access restricted pending compliance review.").
      split; [exact Hi|]. split; [elem_of_literal | reflexivity].
    + by left.
  - unfold applyMockAction. rewrite decide_False by (vm_compute; discriminate).
    rewrite decide_True by reflexivity.
    destruct (decide (public (pressure s) = critical)) as [Hc|Hc].
    { exfalso. apply G. right; left. by split. }
    cbv zeta. eexists _, _, _, _. split; [reflexivity|].
    do 3 (split; [reflexivity|]). unfold advances. cbn.
    repeat split; try reflexivity; try elem_of_literal.
    + by eexists _, _.
    + by left.
    + by left.
  - unfold applyMockAction. do 2 rewrite decide_False by (vm_compute; discriminate).
    rewrite decide_True by reflexivity.
    cbv zeta. rewrite next_index. eexists _, _, _, _. split; [reflexivity|].
    do 3 (split; [reflexivity|]). unfold advances. cbn.
    repeat split; try reflexivity; try elem_of_literal.
    + by eexists _, _.
    + by left.
    + right. by split.
  - unfold applyMockAction. do 3 rewrite decide_False by (vm_compute; discriminate).
    rewrite decide_True by reflexivity.
    destruct (findIndex_state _ _) as [[i e]|] eqn:Ei.
    2:{ exfalso. apply G. right; right; left. split; [reflexivity|].
        unfold findIndex_state in Ei. by apply list_find_None in Ei. }
    apply findIndex_state_Some in Ei as (Hi & He & _).
    cbv zeta. eexists _, _, _, _. split; [reflexivity|].
    do 3 (split; [reflexivity|]). unfold advances. cbn.
    repeat split; try reflexivity; try elem_of_literal.
    + by eexists _, _.
    + right. exists i, e, (js "archived"), (js "Record sealed in archive.").
      split; [exact Hi|]. split; [elem_of_literal | reflexivity].
    + by left.
Qed.

(** What a call of [applyMockAction] that returns has done. *)
Lemma applyMockAction_Normal s (actionId : JsString) r :
  applyMockAction s actionId = Normal r ->
  (guard_fails s actionId /\ r = rejected s actionId)
  \/ (~ guard_fails s actionId
      /\ success (action_result r) = true
      /\ advances s (visible_state r)).
Proof.
  destruct (guard_fails_dec s actionId) as [G | G].
  { rewrite (applyMockAction_guard_fails s actionId G). intros [= <-]. by left. }
  destruct (applyMockAction_passes s actionId G)
    as (next & label & details & res & -> & Ht & Htl & Hs & Ha).
  destruct (appendTimeline next label details) as [tl|] eqn:Et; [|discriminate].
  apply appendTimeline_Normal in Et. rewrite Ht, Htl in Et. subst tl.
  unfold mbind, Completion_bind, mret, Completion_ret.
  intros [= <-]. right. split; [exact G|]. split; [exact Hs | exact Ha].
Qed.

Lemma applyMockAction_returns s (actionId : JsString) :
  0 <= turn s <= last_turn -> exists r, applyMockAction s actionId = Normal r.
Proof.
  intros Hturn. destruct (guard_fails_dec s actionId) as [G | G].
  { rewrite (applyMockAction_guard_fails s actionId G). by eexists. }
  destruct (applyMockAction_passes s actionId G)
    as (next & label & details & res & -> & Ht & _).
  rewrite appendTimeline_in_window by lia. by eexists.
Qed.

Lemma applyMockAction_past_window s (actionId : JsString) :
  last_turn < turn s -> ~ guard_fails s actionId ->
  applyMockAction s actionId = Throw (RangeError (js "Invalid time value")).
Proof.
  intros Hturn G.
  destruct (applyMockAction_passes s actionId G)
    as (next & label & details & res & -> & Ht & _).
  rewrite appendTimeline_past_window by lia. reflexivity.
Qed.


Ltac stamp_in_window :=
  rewrite appendTimeline_in_window by (cbn; unfold last_turn in *; lia).

(** What [shiftPressure] does with the two deltas the engine uses. *)
Lemma shiftPressure_one_step (p : PressureLabel) :
  shiftPressure p 1 = one_step_up p /\ shiftPressure p (-1) = one_step_down p.
Proof. by destruct p. Qed.

(** X5. On a state with a surfaced item, up to the last turn,
    remove_evidence succeeds: the first surfaced item becomes "suppressed"
    with the fixed summary and keeps its id, label and category; the turn
    grows by one; the public pressure is moved one step up the scale low,
    moderate, elevated, high, critical (critical stays critical, a label off
    the scale becomes "uncertain"); the entry "evidence_removed" is appended
    to the timeline; nothing else changes. *)
Theorem remove_evidence_effect s :
  Exists (fun item => ev_state item = js "surfaced") (evidence s) ->
  0 <= turn s <= last_turn ->
  exists i e,
    evidence s !! i = Some e
    /\ ev_state e = js "surfaced"
    /\ (forall j e', evidence s !! j = Some e' -> (j < i)%nat ->
                     ev_state e' <> js "surfaced")
    /\ applyMockAction s (js "remove_evidence")
       = Normal
           {| visible_state :=
                {| case_id := case_id s; crime_type := crime_type s;
                   turn := turn s + 1; status := status s;
                   evidence := <[i := suppressed_item e]> (evidence s);
                   timeline :=
                     slice_last 12
                       (timeline s ++
                          [timeline_entry (turn s + 1) (js "evidence_removed")
                             (js "One surfaced evidence item moved into restricted review.")]);
                   investigator_signals := investigator_signals s;
                   pressure :=
                     {| public := one_step_up (public (pressure s));
                        institutional := institutional (pressure s);
                        personal := personal (pressure s) |} |};
              action_result :=
                {| success := true;
                   summary :=
                     js "Evidence moved to restricted review for this cycle." |} |}.
Proof.
  intros Hex Hturn.
  destruct (Exists_findIndex_state _ _ Hex) as (i & e & E).
  exists i, e. destruct (findIndex_state_Some _ _ _ _ E) as (Hi & He & Hfirst).
  split; [exact Hi|]. split; [exact He|]. split; [exact Hfirst|].
  unfold applyMockAction. rewrite decide_True by reflexivity.
  rewrite E. cbv zeta. stamp_in_window.
  rewrite <- (proj1 (shiftPressure_one_step (public (pressure s)))). reflexivity.
Qed.

Lemma remove_evidence_effect_witness :
  let s := createInitialMockState 42 in
  Exists (fun item => ev_state item = js "surfaced") (evidence s)
  /\ 0 <= turn s <= last_turn
  /\ exists i e,
       evidence s !! i = Some e
       /\ ev_state e = js "surfaced"
       /\ success (action_result
            (match applyMockAction s (js "remove_evidence") with
             | Normal r => r
             | Throw _ => rejected s (js "remove_evidence")
             end)) = true.
Proof.
  intros s.
  assert (Hex : Exists (fun item => ev_state item = js "surfaced") (evidence s)).
  { eapply bool_decide_eq_true_1. vm_compute. reflexivity. }
  assert (Hturn : 0 <= turn s <= last_turn) by (vm_compute; split; discriminate).
  split; [exact Hex|]. split; [exact Hturn|].
  destruct (remove_evidence_effect s Hex Hturn) as (i & e & Hi & He & _ & E).
  exists i, e. split; [exact Hi|]. split; [exact He|]. rewrite E. reflexivity.
Defined.

(** X6. Unless the public pressure is critical, up to the last turn,
    delay_briefing succeeds: the turn grows by one; on the scale low,
    moderate, elevated, high, critical the public pressure is moved one step
    down (low stays low) and the institutional pressure one step up (critical
    stays critical), a label off the scale becoming "uncertain"; the entry
    "briefing_delayed" is appended to the timeline; evidence, signals and
    personal pressure are kept. *)
Theorem delay_briefing_effect s :
  public (pressure s) <> critical ->
  0 <= turn s <= last_turn ->
  applyMockAction s (js "delay_briefing")
  = Normal
      {| visible_state :=
           {| case_id := case_id s; crime_type := crime_type s;
              turn := turn s + 1; status := status s;
              evidence := evidence s;
              timeline :=
                slice_last 12
                  (timeline s ++
                     [timeline_entry (turn s + 1) (js "briefing_delayed")
                        (js "Official briefing pushed by one operational cycle.")]);
              investigator_signals := investigator_signals s;
              pressure :=
                {| public := one_step_down (public (pressure s));
                   institutional := one_step_up (institutional (pressure s));
                   personal := personal (pressure s) |} |};
         action_result :=
           {| success := true;
              summary := js "Briefing delayed; institutional pressure increased." |} |}.
Proof.
  intros Hc Hturn.
  unfold applyMockAction. rewrite decide_False by (vm_compute; discriminate).
  rewrite decide_True by reflexivity. rewrite (decide_False _ _ Hc).
  cbv zeta. stamp_in_window.
  rewrite <- (proj2 (shiftPressure_one_step (public (pressure s)))).
  rewrite <- (proj1 (shiftPressure_one_step (institutional (pressure s)))).
  reflexivity.
Qed.

Lemma delay_briefing_effect_witness :
  let s := createInitialMockState 42 in
  public (pressure s) <> critical
  /\ 0 <= turn s <= last_turn
  /\ success (action_result
       (match applyMockAction s (js "delay_briefing") with
        | Normal r => r
        | Throw _ => rejected s (js "delay_briefing")
        end)) = true.
Proof.
  intros s.
  assert (Hc : public (pressure s) <> critical) by (vm_compute; discriminate).
  assert (Hturn : 0 <= turn s <= last_turn) by (vm_compute; split; discriminate).
  split; [exact Hc|]. split; [exact Hturn|].
  rewrite (delay_briefing_effect s Hc Hturn). reflexivity.
Defined.

Lemma next_priority_cycle (p : JsString) :
  p ∈ priorities ->
  next_priority (next_priority (next_priority (next_priority p))) = p.
Proof.
  unfold priorities. intros Hp.
  repeat (apply elem_of_cons in Hp as [-> | Hp]); [..| by apply elem_of_nil in Hp];
    reflexivity.
Qed.

(** X7. Up to the last turn reframe_priority always succeeds: the priority
    moves to the next of forensics, interviews, financial, surveillance (to
    forensics from surveillance or from any other text), the recent shift
    becomes "attention_realignment", the turn grows by one and the entry
    "priority_reframed" naming the new priority is appended; evidence and
    pressure are kept.  The new priority is always one of the four, and from
    one of the four, four reframings lead back to it. *)
Theorem reframe_priority_effect s :
  0 <= turn s <= last_turn ->
  let chosen := next_priority (priority (investigator_signals s)) in
  applyMockAction s (js "reframe_priority")
  = Normal
      {| visible_state :=
           {| case_id := case_id s; crime_type := crime_type s;
              turn := turn s + 1; status := status s;
              evidence := evidence s;
              timeline :=
                slice_last 12
                  (timeline s ++
                     [timeline_entry (turn s + 1) (js "priority_reframed")
                        (js "Investigator priority shifted to " ++ chosen ++ js ".")]);
              investigator_signals :=
                {| priority := chosen;
                   demeanour := demeanour (investigator_signals s);
                   recent_shift := js "attention_realignment" |};
              pressure := pressure s |};
         action_result :=
           {| success := true;
              summary := js "Priority shifted to " ++ chosen ++ js "." |} |}
  /\ chosen ∈ priorities
  /\ (priority (investigator_signals s) ∈ priorities ->
      next_priority (next_priority (next_priority chosen))
      = priority (investigator_signals s)).
Proof.
  intros Hturn chosen. split; [|split].
  - unfold applyMockAction. do 2 rewrite decide_False by (vm_compute; discriminate).
    rewrite decide_True by reflexivity.
    cbv zeta. rewrite next_index. stamp_in_window. reflexivity.
  - subst chosen. unfold next_priority, priorities.
    repeat case_decide; elem_of_literal.
  - apply next_priority_cycle.
Qed.

Lemma reframe_priority_effect_witness :
  let s := createInitialMockState 42 in
  0 <= turn s <= last_turn
  /\ next_priority (priority (investigator_signals s)) ∈ priorities.
Proof.
  intros s.
  assert (Hturn : 0 <= turn s <= last_turn) by (vm_compute; split; discriminate).
  split; [exact Hturn|].
  exact (proj1 (proj2 (reframe_priority_effect s Hturn))).
Defined.

(** X8. On a state with a suppressed item, up to the last turn, seal_archive
    succeeds: the first suppressed item becomes "archived" with the fixed
    summary and keeps its id, label and category; the turn grows by one; the
    institutional pressure is moved one step down the scale low, moderate,
    elevated, high, critical (low stays low, a label off the scale becomes
    "uncertain"); the entry "archive_sealed" is appended to the timeline;
    nothing else changes. *)
Theorem seal_archive_effect s :
  Exists (fun item => ev_state item = js "suppressed") (evidence s) ->
  0 <= turn s <= last_turn ->
  exists i e,
    evidence s !! i = Some e
    /\ ev_state e = js "suppressed"
    /\ (forall j e', evidence s !! j = Some e' -> (j < i)%nat ->
                     ev_state e' <> js "suppressed")
    /\ applyMockAction s (js "seal_archive")
       = Normal
           {| visible_state :=
                {| case_id := case_id s; crime_type := crime_type s;
                   turn := turn s + 1; status := status s;
                   evidence := <[i := archived e]> (evidence s);
                   timeline :=
                     slice_last 12
                       (timeline s ++
                          [timeline_entry (turn s + 1) (js "archive_sealed")
                             (js "Suppressed record sealed in archive storage.")]);
                   investigator_signals := investigator_signals s;
                   pressure :=
                     {| public := public (pressure s);
                        institutional := one_step_down (institutional (pressure s));
                        personal := personal (pressure s) |} |};
              action_result :=
                {| success := true;
                   summary :=
                     js "Archive seal completed for one restricted record." |} |}.
Proof.
  intros Hex Hturn.
  destruct (Exists_findIndex_state _ _ Hex) as (i & e & E).
  exists i, e. destruct (findIndex_state_Some _ _ _ _ E) as (Hi & He & Hfirst).
  split; [exact Hi|]. split; [exact He|]. split; [exact Hfirst|].
  unfold applyMockAction. do 3 rewrite decide_False by (vm_compute; discriminate).
  rewrite decide_True by reflexivity.
  rewrite E. cbv zeta. stamp_in_window.
  rewrite <- (proj2 (shiftPressure_one_step (institutional (pressure s)))).
  reflexivity.
Qed.

Lemma seal_archive_effect_witness :
  let s := mock_state (after (createMockAdapter 42)
                         [CallApplyAction {| action_id := js "remove_evidence" |}]) in
  Exists (fun item => ev_state item = js "suppressed") (evidence s)
  /\ 0 <= turn s <= last_turn
  /\ exists i e,
       evidence s !! i = Some e
       /\ ev_state e = js "suppressed"
       /\ success (action_result
            (match applyMockAction s (js "seal_archive") with
             | Normal r => r
             | Throw _ => rejected s (js "seal_archive")
             end)) = true.
Proof.
  intros s.
  assert (Hex : Exists (fun item => ev_state item = js "suppressed") (evidence s)).
  { eapply bool_decide_eq_true_1. vm_compute. reflexivity. }
  assert (Hturn : 0 <= turn s <= last_turn) by (vm_compute; split; discriminate).
  split; [exact Hex|]. split; [exact Hturn|].
  destruct (seal_archive_effect s Hex Hturn) as (i & e & Hi & He & _ & E).
  exists i, e. split; [exact Hi|]. split; [exact He|]. rewrite E. reflexivity.
Defined.

(** X9. Up to the last turn every applyAction call on a mock adapter
    returns, whatever the action id, and the adapter takes the state it
    returned and keeps its slots.  Either the guard of the action fails (or
    the id is unknown) and the answer is the rejection with the state
    unchanged, or the action succeeds and the case advances by one step: the
    turn grows by exactly one, exactly one entry stamped with the new turn is
    appended to the timeline (the last twelve kept), at most one evidence
    item has its state and summary rewritten, public and institutional
    pressure move by at most one step, and case id, crime type, status,
    demeanour and personal pressure are kept. *)
Theorem mock_applyAction_step a (actionId : JsString) :
  0 <= turn (mock_state a) <= last_turn ->
  exists r,
    Mock.applyAction {| action_id := actionId |} a
    = (Normal r, {| mock_state := visible_state r; mock_slots := mock_slots a |})
    /\ ((guard_fails (mock_state a) actionId /\ r = rejected (mock_state a) actionId)
        \/ (~ guard_fails (mock_state a) actionId
            /\ success (action_result r) = true
            /\ advances (mock_state a) (visible_state r))).
Proof.
  intros Hturn.
  destruct (applyMockAction_returns (mock_state a) actionId Hturn) as [r E].
  exists r. split.
  - unfold Mock.applyAction. cbn [action_id]. by rewrite E.
  - by apply applyMockAction_Normal.
Qed.

Lemma mock_applyAction_step_witness :
  0 <= turn (mock_state (createMockAdapter 42)) <= last_turn
  /\ exists r,
       Mock.applyAction {| action_id := js "reframe_priority" |} (createMockAdapter 42)
       = (Normal r, {| mock_state := visible_state r;
                       mock_slots := mock_slots (createMockAdapter 42) |}).
Proof.
  assert (H : 0 <= turn (mock_state (createMockAdapter 42)) <= last_turn)
    by (vm_compute; split; discriminate).
  split; [exact H|].
  destruct (mock_applyAction_step (createMockAdapter 42) (js "reframe_priority") H)
    as (r & E & _).
  exists r. exact E.
Defined.

(** X10. The action list and the engine agree: up to the last turn, applying
    an action that [buildMockActions] offers for a state succeeds exactly
    when the action is offered as enabled; and an offered action carries a
    disabled reason exactly when it is not enabled. *)
Theorem offered_enabled_iff_succeeds s (o : ActionOption) :
  o ∈ actions (buildMockActions s) ->
  0 <= turn s <= last_turn ->
  exists r,
    applyMockAction s (act_id o) = Normal r
    /\ success (action_result r) = enabled o
    /\ (enabled o = true <-> disabled_reason o = None).
Proof.
  intros Ho Hturn.
  destruct (applyMockAction_returns s (act_id o) Hturn) as [r E].
  exists r. split; [exact E|].
  pose proof (guard_fails_iff_disabled s o Ho) as Hg.
  split.
  - apply applyMockAction_Normal in E as [[G ->] | (G & Hs & _)].
    + symmetry. by apply Hg.
    + rewrite Hs. destruct (enabled o); [done|]. exfalso. by apply G, Hg.
  - clear Hg E. unfold buildMockActions in Ho. cbv zeta in Ho.
    repeat (apply elem_of_cons in Ho as [-> | Ho]); [..| by apply elem_of_nil in Ho];
      cbn [enabled disabled_reason]; try done;
      match goal with |- context [bool_decide ?P] => destruct (bool_decide P) end;
      split; done.
Qed.

Lemma offered_enabled_iff_succeeds_witness :
  let s := createInitialMockState 42 in
  exists o r,
    o ∈ actions (buildMockActions s)
    /\ act_id o = js "seal_archive"
    /\ applyMockAction s (act_id o) = Normal r
    /\ success (action_result r) = enabled o.
Proof.
  intros s.
  assert (Ho : {| act_id := js "seal_archive"; act_label := js "Seal Archive";
                  enabled := false; cost := Some (163%N :: js "120");
                  desc := js "Seal one suppressed record into archive storage.";
                  disabled_reason :=
                    Some (js "At least one suppressed item is needed before sealing archive.") |}
                ∈ actions (buildMockActions s)).
  { vm_compute. elem_of_literal. }
  destruct (offered_enabled_iff_succeeds s _ Ho) as (r & E & Hs & _).
  - vm_compute. split; discriminate.
  - eexists _, r. split; [exact Ho|]. split; [reflexivity|]. split; [exact E | exact Hs].
Defined.

(** X11. Once the turn has passed the last turn the case can no longer
    advance: an action whose guard fails is still rejected as before, and
    every other action of the catalogue throws a RangeError from the time
    stamp of its timeline entry; in both cases the adapter stays as it
    was. *)
Theorem mock_applyAction_past_window a (actionId : JsString) :
  last_turn < turn (mock_state a) ->
  (guard_fails (mock_state a) actionId ->
   Mock.applyAction {| action_id := actionId |} a
   = (Normal (rejected (mock_state a) actionId), a))
  /\ (~ guard_fails (mock_state a) actionId ->
      Mock.applyAction {| action_id := actionId |} a
      = (Throw (RangeError (js "Invalid time value")), a)).
Proof.
  intros Hturn. unfold Mock.applyAction. cbn [action_id]. split; intros G.
  - rewrite (applyMockAction_guard_fails _ _ G). by destruct a.
  - by rewrite (applyMockAction_past_window _ _ Hturn G).
Qed.

Lemma mock_applyAction_past_window_witness :
  let a := {| mock_state := set_turn (last_turn + 1) (createInitialMockState 42);
              mock_slots := [] |} in
  last_turn < turn (mock_state a)
  /\ Mock.applyAction {| action_id := js "seal_archive" |} a
     = (Normal (rejected (mock_state a) (js "seal_archive")), a).
Proof.
  intros a.
  assert (Hturn : last_turn < turn (mock_state a)) by (vm_compute; reflexivity).
  split; [exact Hturn|].
  apply (proj1 (mock_applyAction_past_window a (js "seal_archive") Hturn)).
  right; right; left. split; [reflexivity|].
  repeat constructor; vm_compute; discriminate.
Defined.

End MockActions.

Section MockSessions.

Implicit Types (s : VisibleState) (a : MockAdapter).

Lemma shiftPressure_on_scale (p : PressureLabel) (delta : Z) :
  p ∈ scale -> shiftPressure p delta ∈ scale.
Proof.
  unfold scale. intros Hp.
  repeat (apply elem_of_cons in Hp as [-> | Hp]); [..| by apply elem_of_nil in Hp];
    unfold shiftPressure; cbn -[Z.max Z.min Z.add];
    match goal with
    | |- context [Z.max 0 ?x] =>
        let n := fresh "n" in
        let Hn := fresh "Hn" in
        remember (Z.max 0 x) as n eqn:Hn;
        assert (n = 0 \/ n = 1 \/ n = 2 \/ n = 3 \/ n = 4) as [->|[->|[->|[->| ->]]]]
          by lia
    end; cbn; elem_of_literal.
Qed.

Lemma next_priority_known (p : JsString) : next_priority p ∈ priorities.
Proof. unfold next_priority, priorities. repeat case_decide; elem_of_literal. Qed.

Lemma advances_plausible s s' : plausible s -> advances s s' -> plausible s'.
Proof.
  intros (Ht & Hev & Htl & Hpr & Hpu & Hin & Hpe)
         (At & _ & _ & _ & (label & details & Atl) & Aev & Apu & Ain & Ape & _ & Asig).
  unfold plausible. repeat split.
  - lia.
  - destruct Aev as [-> | (i & e & st & su & Hi & Hst & ->)]; [exact Hev|].
    apply Forall_insert; [exact Hev|]. cbn [rewritten ev_state].
    unfold EVIDENCE_STATES.
    repeat (apply elem_of_cons in Hst as [-> | Hst]); [..| by apply elem_of_nil in Hst];
      elem_of_literal.
  - rewrite Atl. rewrite (proj1 (slice_last_snoc _ _)). lia.
  - rewrite Atl. rewrite (proj1 (slice_last_snoc _ _)). lia.
  - destruct Asig as [-> | [-> _]]; [exact Hpr | apply next_priority_known].
  - repeat (apply elem_of_cons in Apu as [-> | Apu]); [..| by apply elem_of_nil in Apu];
      [exact Hpu | by apply shiftPressure_on_scale ..].
  - repeat (apply elem_of_cons in Ain as [-> | Ain]); [..| by apply elem_of_nil in Ain];
      [exact Hin | by apply shiftPressure_on_scale ..].
  - by rewrite Ape.
Qed.

Lemma advances_same_case s0 s s' : same_case s0 s -> advances s s' -> same_case s0 s'.
Proof.
  intros (H1 & H2 & H3 & H4 & H5 & H6 & H7 & H8)
         (_ & A1 & A2 & A3 & _ & Aev & _ & _ & Ape & Ade & _).
  unfold same_case. rewrite A1, A2, A3, Ape, Ade.
  do 5 (split; [assumption|]).
  destruct Aev as [-> | (i & e & st & su & Hi & _ & ->)]; [by repeat split|].
  rewrite !list_fmap_insert. cbn [rewritten ev_id ev_label category].
  rewrite <- H6, <- H7, <- H8.
  repeat split; apply list_insert_id; by rewrite list_lookup_fmap, Hi.
Qed.

Lemma initial_plausible (seed : Z) : plausible (createInitialMockState seed).
Proof.
  unfold plausible, createInitialMockState, mbind, Rng_bind, mret, Rng_ret. cbv zeta.
  draw_all. cbn [fst turn evidence timeline investigator_signals pressure priority
                 public institutional personal length].
  unfold scale.
  split; [lia|]. split.
  { unfold EVIDENCE_STATES.
    repeat (apply Forall_cons; split; [cbn [ev_state]|]); [..| by apply Forall_nil];
      try match goal with |- context [if ?b then _ else _] => destruct b end;
      elem_of_literal. }
  split; [lia|]. split; [assumption|].
  repeat split;
    match goal with
    | H : ?x ∈ _ |- ?x ∈ _ =>
        repeat (apply elem_of_cons in H as [-> | H]); [..| by apply elem_of_nil in H];
        elem_of_literal
    end.
Qed.

Lemma same_case_refl s : same_case s s.
Proof. by repeat split. Qed.

Lemma Forall_slots_set (P : VisibleState -> Prop) (slotId : JsString) v
    (m : list (JsString * VisibleState)) :
  P v -> Forall (fun kv => P kv.2) m -> Forall (fun kv => P kv.2) (slots_set slotId v m).
Proof.
  intros Hv Hm. induction Hm as [|[k w] m Hw Hm IH]; cbn.
  - by repeat constructor.
  - destruct (decide (k = slotId)); by constructor.
Qed.

Lemma Forall_slots_get (P : VisibleState -> Prop) (slotId : JsString) v
    (m : list (JsString * VisibleState)) :
  Forall (fun kv => P kv.2) m -> slots_get slotId m = Some v -> P v.
Proof.
  intros Hm. induction Hm as [|[k w] m Hw Hm IH]; cbn; [discriminate|].
  destruct (decide (k = slotId)); [by intros [= <-] | exact IH].
Qed.

(** Whatever holds of the initial state and is kept by every action that
    returns holds of the working state and of every snapshot, after any
    calls. *)
Lemma mock_invariant (P : VisibleState -> Prop) a (cs : list Call) :
  (forall s (actionId : JsString) r,
      P s -> applyMockAction s actionId = Normal r -> P (visible_state r)) ->
  P (mock_state a) -> Forall (fun kv => P kv.2) (mock_slots a) ->
  P (mock_state (after a cs))
  /\ Forall (fun kv => P kv.2) (mock_slots (after a cs)).
Proof.
  intros Hstep. revert a. induction cs as [|c cs IH]; intros a Hs Hm; [by split|].
  rewrite after_cons.
  assert (Hc : P (mock_state (perform c a).2)
               /\ Forall (fun kv => P kv.2) (mock_slots (perform c a).2)).
  { destruct c; cbn; try (by split).
    - unfold Mock.applyAction. destruct (applyMockAction _ _) eqn:E; cbn; [|by split].
      split; [by apply (Hstep _ _ _ Hs E) | assumption].
    - split; [assumption|]. by apply Forall_slots_set.
    - unfold Mock.loadSlot. destruct (slots_get slotId _) as [v|] eqn:E; cbn; [|by split].
      split; [by apply (Forall_slots_get P slotId v _ Hm) | assumption]. }
  destruct Hc. by apply IH.
Qed.

(** X12. Whatever the seed and whatever calls were made on a mock adapter
    (reads, actions that succeed, fail or throw, saves and loads), its
    working state has the case id, crime type, status, demeanour, personal
    pressure and the evidence ids, labels and categories of the initial
    state; its turn is at least 1, every evidence state is one of the five
    known ones, the timeline holds between three and twelve entries, the
    priority is one of the four disciplines and the three pressure labels are
    on the ordered scale (never "uncertain"). *)
Theorem mock_reachable (seed : Z) (history : list Call) :
  let s := mock_state (after (createMockAdapter seed) history) in
  same_case (createInitialMockState seed) s /\ plausible s.
Proof.
  intros s. subst s.
  apply (mock_invariant
           (fun s => same_case (createInitialMockState seed) s /\ plausible s)).
  - intros s actionId r [Hc Hp] E.
    apply applyMockAction_Normal in E as [[_ ->] | (_ & _ & Ha)]; [by split|].
    split; [by apply (advances_same_case _ s) | by apply (advances_plausible s)].
  - split; [apply same_case_refl | apply initial_plausible].
  - constructor.
Qed.

Lemma keeps_slot_get (name : JsString) (c : Call) a :
  keeps_slot name c ->
  slots_get name (mock_slots (perform c a).2) = slots_get name (mock_slots a).
Proof.
  intros Hk. destruct c; cbn; try reflexivity.
  - unfold Mock.applyAction. by destruct (applyMockAction _ _).
  - by apply slots_get_set_ne.
  - unfold Mock.loadSlot. by destruct (slots_get slotId _).
Qed.

(** X13. Saving is a snapshot: after saveSlot under a name, whatever calls
    follow that do not save under that name again (actions, other saves,
    loads), loadSlot of the name returns the state the adapter had when it
    saved, and makes it the working state again; the slots are kept. *)
Theorem mock_save_load a (name : JsString) (cs : list Call) :
  Forall (keeps_slot name) cs ->
  let a' := after (Mock.saveSlot name a).2 cs in
  Mock.loadSlot name a'
  = (Normal (mock_state a),
     {| mock_state := mock_state a; mock_slots := mock_slots a' |}).
Proof.
  intros Hcs a'. subst a'.
  assert (E : slots_get name (mock_slots (after (Mock.saveSlot name a).2 cs))
              = Some (mock_state a)).
  { assert (E0 : slots_get name (mock_slots (Mock.saveSlot name a).2)
                 = Some (mock_state a)) by apply slots_get_set_eq.
    revert E0. generalize ((Mock.saveSlot name a).2). intros b.
    revert b. induction Hcs as [|c cs Hc Hcs IH]; intros b E0; [exact E0|].
    rewrite after_cons. apply IH. by rewrite keeps_slot_get. }
  unfold Mock.loadSlot. by rewrite E.
Qed.

Lemma mock_save_load_witness :
  let a := createMockAdapter 42 in
  let cs := [CallApplyAction {| action_id := js "remove_evidence" |};
             CallSaveSlot (js "page-b");
             CallApplyAction {| action_id := js "seal_archive" |}] in
  Forall (keeps_slot (js "page-a")) cs
  /\ (Mock.loadSlot (js "page-a") (after (Mock.saveSlot (js "page-a") a).2 cs)).1
     = Normal (createInitialMockState 42).
Proof.
  intros a cs.
  assert (Hcs : Forall (keeps_slot (js "page-a")) cs).
  { repeat constructor. cbn. discriminate. }
  split; [exact Hcs|].
  rewrite (mock_save_load a (js "page-a") cs Hcs). reflexivity.
Defined.

End MockSessions.

Section LiveSessions.

Context `{JsRuntime}.

Implicit Types (a : LiveAdapter) (name : JsString).

Lemma live_after_cons a (c : LiveCall) (cs : list LiveCall) :
  live_after a (c :: cs) = live_after (live_perform c a).2 cs.
Proof. reflexivity. Qed.

(** The two ways a call that fetches a state ends: it throws and leaves the
    adapter alone, or it returns a sanitized state and holds it. *)
Lemma live_getVisibleState_cases (fetched : Completion JsValue) a :
  (exists e, Live.getVisibleState fetched a = (Throw e, a))
  \/ (exists payload o,
        fetched = Normal payload
        /\ sanitizeVisibleState payload = Normal o
        /\ Live.getVisibleState fetched a
           = (Normal o, {| live_current := Some o; live_slots := live_slots a |})).
Proof.
  unfold Live.getVisibleState. destruct fetched as [payload|e]; [|left; by eexists].
  destruct (sanitizeVisibleState payload) as [o|e] eqn:E; [|left; by eexists].
  right. by exists payload, o.
Qed.

Lemma live_applyAction_cases (fetched : Completion JsValue)
    (request : ApplyActionRequest) a :
  (exists e, Live.applyAction fetched request a = (Throw e, a))
  \/ (exists raw o,
        fetched = Normal raw
        /\ sanitizeVisibleState (get raw "visible_state") = Normal o
        /\ Live.applyAction fetched request a
           = (Normal {| visible_state := o;
                        action_result :=
                          sanitizeActionResult (get raw "action_result") |},
              {| live_current := Some o; live_slots := live_slots a |})).
Proof.
  unfold Live.applyAction. destruct fetched as [raw|e]; [|left; by eexists].
  destruct raw; try (left; by eexists).
  all: destruct (sanitizeVisibleState _) as [o|e] eqn:E; [|left; by eexists].
  all: right; eexists _, o; split; [reflexivity|]; split; [exact E | reflexivity].
Qed.

Lemma live_keeps_slot_get name (c : LiveCall) a :
  live_keeps_slot name c ->
  slots_get name (live_slots (live_perform c a).2) = slots_get name (live_slots a).
Proof.
  intros Hk. destruct c; cbn.
  - destruct (live_getVisibleState_cases fetched a)
      as [[e ->] | (payload & o & _ & _ & ->)]; reflexivity.
  - unfold Live.getActions. by destruct fetched.
  - destruct (live_applyAction_cases fetched request a)
      as [[e ->] | (raw & o & _ & _ & ->)]; reflexivity.
  - unfold Live.saveSlot. destruct (live_current a); [|done].
    by apply slots_get_set_ne.
  - unfold Live.loadSlot. by destruct (slots_get slotId _).
  - reflexivity.
Qed.

(** X15. On a live adapter that holds a state, saving is a snapshot: after
    saveSlot under a name, whatever calls follow that do not save under that
    name again (fetches that succeed or fail, other saves, loads), loadSlot
    of the name returns the state the adapter held when it saved and makes
    it the current state again. *)
Theorem live_save_load a name (cs : list LiveCall) (current : VisibleState) :
  live_current a = Some current ->
  Forall (live_keeps_slot name) cs ->
  let a' := live_after (Live.saveSlot name a).2 cs in
  Live.loadSlot name a'
  = (Normal current, {| live_current := Some current; live_slots := live_slots a' |}).
Proof.
  intros Hcur Hcs a'. subst a'.
  assert (E : slots_get name (live_slots (live_after (Live.saveSlot name a).2 cs))
              = Some current).
  { assert (E0 : slots_get name (live_slots (Live.saveSlot name a).2) = Some current).
    { unfold Live.saveSlot. rewrite Hcur. apply slots_get_set_eq. }
    revert E0. generalize ((Live.saveSlot name a).2). intros b.
    revert b. induction Hcs as [|c cs Hc Hcs IH]; intros b E0; [exact E0|].
    rewrite live_after_cons. apply IH. by rewrite live_keeps_slot_get. }
  unfold Live.loadSlot. by rewrite E.
Qed.

(** X16. A live adapter that has not yet received a state cannot save:
    as long as every request so far has failed, the adapter is exactly as it
    was created; saveSlot returns without an error and stores nothing, and
    loadSlot of the name just saved is answered with the unknown-slot
    error. *)
Theorem live_save_before_state (apiBase : JsString) (cs : list LiveCall) name :
  Forall brings_no_state cs ->
  let a := live_after (createLiveAdapter apiBase) cs in
  a = createLiveAdapter apiBase
  /\ Live.saveSlot name a = (Normal tt, a)
  /\ Live.loadSlot name (Live.saveSlot name a).2
     = (Throw (EngineAdapterError (unknown_slot_message name)), a).
Proof.
  intros Hcs a.
  assert (Ea : a = createLiveAdapter apiBase).
  { subst a. induction Hcs as [|c cs Hc Hcs IH]; [reflexivity|].
    rewrite live_after_cons.
    assert (Ec : (live_perform c (createLiveAdapter apiBase)).2
                 = createLiveAdapter apiBase).
    { destruct c; cbn in Hc |- *; try reflexivity.
      - by destruct fetched.
      - unfold Live.getActions. by destruct fetched.
      - by destruct fetched as [[| | | | | |]|]. }
    by rewrite Ec. }
  rewrite Ea. by repeat split.
Qed.

(** X17. Whatever calls were made on a live adapter and whatever the engine
    answered, the state it holds and every snapshot in its slots came out of
    [sanitizeVisibleState]: no payload is ever kept as it was received. *)
Theorem live_states_sanitized (apiBase : JsString) (cs : list LiveCall) :
  let a := live_after (createLiveAdapter apiBase) cs in
  (forall current, live_current a = Some current ->
                   exists payload, sanitizeVisibleState payload = Normal current)
  /\ Forall (fun kv => exists payload, sanitizeVisibleState payload = Normal kv.2)
            (live_slots a).
Proof.
  intros a. subst a.
  set (P := fun v : VisibleState =>
              exists payload, sanitizeVisibleState payload = Normal v).
  assert (Hinit : (forall current, live_current (createLiveAdapter apiBase) = Some current
                                   -> P current)
                  /\ Forall (fun kv => P kv.2)
                            (live_slots (createLiveAdapter apiBase))).
  { split; [discriminate | constructor]. }
  revert Hinit. generalize (createLiveAdapter apiBase). intros a.
  revert a. induction cs as [|c cs IH]; intros a [Hcur Hslots]; [by split|].
  rewrite live_after_cons. apply IH.
  destruct c; cbn.
  - destruct (live_getVisibleState_cases fetched a)
      as [[e ->] | (payload & o & _ & Eo & ->)]; [by split|].
    split; [|assumption]. intros current [= <-]. by exists payload.
  - unfold Live.getActions. destruct fetched; by split.
  - destruct (live_applyAction_cases fetched request a)
      as [[e ->] | (raw & o & _ & Eo & ->)]; [by split|].
    split; [|assumption]. intros current [= <-]. by eexists.
  - assert (Hkeep : live_current (Live.saveSlot slotId a).2 = live_current a).
    { unfold Live.saveSlot. destruct (live_current a) eqn:E; cbn; [reflexivity | exact E]. }
    split; [intros current Hc; apply Hcur; rewrite <- Hkeep; exact Hc|].
    unfold Live.saveSlot. destruct (live_current a) as [current|] eqn:E; cbn;
      [|assumption].
    apply Forall_slots_set; [by apply Hcur | assumption].
  - unfold Live.loadSlot. destruct (slots_get slotId _) as [v|] eqn:E; cbn; [|by split].
    split; [|assumption]. intros current [= <-].
    by apply (Forall_slots_get P slotId v _ Hslots).
  - by split.
Qed.

End LiveSessions.

Lemma live_save_load_witness :
  let a := (Live.getVisibleState (Normal sample_payload) (createLiveAdapter [])).2 in
  let cs := [LiveGetVisibleState (Throw (EngineAdapterError []));
             LiveSaveSlot (js "page-b"); LiveLoadSlot (js "page-c")] in
  exists current,
    sanitizeVisibleState sample_payload = Normal current
    /\ live_current a = Some current
    /\ Forall (live_keeps_slot (js "page-a")) cs
    /\ (Live.loadSlot (js "page-a")
          (live_after (Live.saveSlot (js "page-a") a).2 cs)).1
       = Normal current.
Proof.
  intros a cs. eexists.
  split; [vm_compute; reflexivity|].
  assert (Hcur : live_current a = Some _) by (vm_compute; reflexivity).
  assert (Hcs : Forall (live_keeps_slot (js "page-a")) cs).
  { repeat constructor. cbn. discriminate. }
  split; [exact Hcur|]. split; [exact Hcs|].
  rewrite (live_save_load a (js "page-a") cs _ Hcur Hcs). reflexivity.
Defined.

Lemma live_save_before_state_witness :
  let cs := [LiveGetVisibleState (Throw (EngineAdapterError []));
             LiveSaveSlot (js "page-a"); LiveListSlots] in
  Forall brings_no_state cs
  /\ live_after (createLiveAdapter []) cs = createLiveAdapter [].
Proof.
  intros cs.
  assert (Hcs : Forall brings_no_state cs) by (repeat constructor).
  split; [exact Hcs|].
  exact (proj1 (live_save_before_state [] cs (js "page-a") Hcs)).
Defined.


Section Requests.

Context `{JsRuntime}.

Implicit Types (fetched : Settled Response) (a : LiveAdapter).

Lemma aborted_dec (r : Rejection) : Decision (aborted r).
Proof. unfold aborted. apply _. Defined.

Lemma rejection_message (r : Rejection) :
  (if is_Error r && bool_decide (error_name r = js "AbortError")
   then Throw (EngineAdapterError (js "Engine request timed out. Please retry."))
   else Throw (EngineAdapterError
                 (js "Engine request failed. Check API base URL and connectivity.")))
  = (Throw (EngineAdapterError
              (if aborted_dec r
               then js "Engine request timed out. Please retry."
               else js "Engine request failed. Check API base URL and connectivity."))
     : Completion JsValue).
Proof.
  destruct (aborted_dec r) as [[He Hn] | Hn].
  - by rewrite He, bool_decide_true.
  - destruct (is_Error r) eqn:He; [|reflexivity].
    rewrite bool_decide_false; [reflexivity|]. intros Hname. by apply Hn.
Qed.

(** The whole of [fetchJson], case by case. *)
Lemma fetchJson_cases fetched :
  (exists payload, answered fetched payload /\ fetchJson fetched = Normal payload)
  \/ (exists r, rejected_with fetched r /\ aborted r
                /\ fetchJson fetched
                   = Throw (EngineAdapterError
                              (js "Engine request timed out. Please retry.")))
  \/ (exists r, rejected_with fetched r /\ ~ aborted r
                /\ fetchJson fetched
                   = Throw (EngineAdapterError
                              (js "Engine request failed. Check API base URL and connectivity.")))
  \/ (exists status body,
        refused fetched status body
        /\ fetchJson fetched
           = Throw (EngineAdapterError
                      (js "Engine request failed (" ++ String_ofZ status
                       ++ (if bool_decide (trim body = []) then js ")."
                           else js "): " ++ take 220 (trim body))))).
Proof.
  match goal with
  | |- ?G =>
      assert (Hrej : forall r, rejected_with fetched r ->
                fetchJson fetched
                = Throw (EngineAdapterError
                           (if aborted_dec r
                            then js "Engine request timed out. Please retry."
                            else js "Engine request failed. Check API base URL and connectivity."))
                -> G)
  end.
  { intros r Hr E. destruct (aborted_dec r) as [Ha | Ha];
      [right; left | right; right; left]; by exists r. }
  destruct fetched as [response|r].
  - destruct (resp_ok response) eqn:Eok.
    + destruct (resp_json response) as [payload|r] eqn:Ej.
      * left. exists payload. split; [by exists response|].
        unfold fetchJson. by rewrite Eok, Ej.
      * apply (Hrej r).
        -- right. exists response. split; [reflexivity|]. right. by split.
        -- unfold fetchJson. rewrite Eok, Ej. apply rejection_message.
    + destruct (resp_text response) as [body|r] eqn:Et.
      * do 3 right. exists (resp_status response), body.
        split; [by exists response|].
        unfold fetchJson, formatResponseError. rewrite Eok, Et. cbn.
        by case_bool_decide.
      * apply (Hrej r).
        -- right. exists response. split; [reflexivity|]. left. by split.
        -- unfold fetchJson, formatResponseError. rewrite Eok, Et.
           apply rejection_message.
  - apply (Hrej r); [by left|].
    unfold fetchJson. apply rejection_message.
Qed.

Lemma answered_inj fetched (p q : JsValue) :
  answered fetched p -> answered fetched q -> p = q.
Proof. intros (r1 & -> & _ & E1) (r2 & [= <-] & _ & E2). congruence. Qed.

Lemma answered_not_rejected fetched (payload : JsValue) (r : Rejection) :
  answered fetched payload -> rejected_with fetched r -> False.
Proof.
  intros (r1 & -> & Eok & Ej) [E | (r2 & [= <-] & [[E _] | [_ E]])]; congruence.
Qed.

Lemma answered_not_refused fetched (payload : JsValue) status (body : JsString) :
  answered fetched payload -> refused fetched status body -> False.
Proof. intros (r1 & -> & Eok & _) (r2 & [= <-] & E & _). congruence. Qed.

Lemma rejected_with_inj fetched (r r' : Rejection) :
  rejected_with fetched r -> rejected_with fetched r' -> r = r'.
Proof.
  intros [-> | (r1 & -> & H1)] [E | (r2 & E & H2)]; try congruence.
  injection E as <-.
  destruct H1 as [[? ?] | [? ?]], H2 as [[? ?] | [? ?]]; congruence.
Qed.

Lemma refused_not_rejected fetched status (body : JsString) (r : Rejection) :
  refused fetched status body -> rejected_with fetched r -> False.
Proof.
  intros (r1 & -> & Eok & _ & Et) [E | (r2 & [= <-] & [[_ E] | [E _]])]; congruence.
Qed.

(** X18. [fetchJson] returns a value exactly when the request was answered,
    the response is ok and its body parses, and the value is the parsed
    body.  Otherwise it throws an EngineAdapterError and nothing else:
    with the time-out message exactly when what was rejected (the request,
    the text of a response that is not ok, the parsing of one that is) was
    rejected with an Error named AbortError; with the connectivity message
    exactly when it was rejected with anything else; and for a response that
    is not ok and whose text can be read, with "Engine request failed
    (status)" followed by "." when the trimmed text is empty and by ": " and
    the first 220 units of the trimmed text otherwise. *)
Theorem fetchJson_outcome fetched :
  (forall payload, fetchJson fetched = Normal payload <-> answered fetched payload)
  /\ (forall e, fetchJson fetched = Throw e -> exists message, e = EngineAdapterError message)
  /\ (fetchJson fetched
      = Throw (EngineAdapterError (js "Engine request timed out. Please retry."))
      <-> exists r, rejected_with fetched r /\ aborted r)
  /\ (fetchJson fetched
      = Throw (EngineAdapterError
                 (js "Engine request failed. Check API base URL and connectivity."))
      <-> exists r, rejected_with fetched r /\ ~ aborted r)
  /\ (forall status body,
         refused fetched status body ->
         fetchJson fetched
         = Throw (EngineAdapterError
                    (js "Engine request failed (" ++ String_ofZ status
                     ++ (if bool_decide (trim body = []) then js ")."
                         else js "): " ++ take 220 (trim body))))).
Proof.
  assert (Hfailed : forall status (tail : JsString),
             js "Engine request failed (" ++ String_ofZ status ++ tail
             <> js "Engine request timed out. Please retry."
             /\ js "Engine request failed (" ++ String_ofZ status ++ tail
                <> js "Engine request failed. Check API base URL and connectivity.").
  { intros status tail. split; intros E; vm_compute in E; discriminate. }
  destruct (fetchJson_cases fetched)
    as [(payload & Ha & E) | [(r & Hr & Hab & E) | [(r & Hr & Hab & E)
       | (status & body & Hf & E)]]]; rewrite E.
  - split; [|split; [discriminate|split; [|split]]].
    + intros q. split; [by intros [= <-]|]. intros Hq.
      by rewrite (answered_inj _ _ _ Ha Hq).
    + split; [discriminate|]. intros (r & Hr & _).
      destruct (answered_not_rejected _ _ _ Ha Hr).
    + split; [discriminate|]. intros (r & Hr & _).
      destruct (answered_not_rejected _ _ _ Ha Hr).
    + intros status body Hf. destruct (answered_not_refused _ _ _ _ Ha Hf).
  - split; [|split; [by intros e [= <-]; eexists|split; [|split]]].
    + intros q. split; [discriminate|]. intros Hq.
      destruct (answered_not_rejected _ _ _ Hq Hr).
    + split; [intros _; by exists r | reflexivity].
    + split; [discriminate|]. intros (r' & Hr' & Hn).
      rewrite (rejected_with_inj _ _ _ Hr' Hr) in Hn. contradiction.
    + intros status body Hf. destruct (refused_not_rejected _ _ _ _ Hf Hr).
  - split; [|split; [by intros e [= <-]; eexists|split; [|split]]].
    + intros q. split; [discriminate|]. intros Hq.
      destruct (answered_not_rejected _ _ _ Hq Hr).
    + split; [discriminate|]. intros (r' & Hr' & Hn).
      rewrite (rejected_with_inj _ _ _ Hr' Hr) in Hn. contradiction.
    + split; [intros _; by exists r | reflexivity].
    + intros status body Hf. destruct (refused_not_rejected _ _ _ _ Hf Hr).
  - destruct (Hfailed status (if bool_decide (trim body = []) then js ")."
                              else js "): " ++ take 220 (trim body))) as [N1 N2].
    split; [|split; [by intros e [= <-]; eexists|split; [|split]]].
    + intros q. split; [discriminate|]. intros Hq.
      destruct (answered_not_refused _ _ _ _ Hq Hf).
    + split; [intros [= E']; by destruct N1|]. intros (r & Hr & _).
      destruct (refused_not_rejected _ _ _ _ Hf Hr).
    + split; [intros [= E']; by destruct N2|]. intros (r & Hr & _).
      destruct (refused_not_rejected _ _ _ _ Hf Hr).
    + intros status' body' (r1 & E1 & _ & Es1 & Et1).
      destruct Hf as (r2 & E2 & _ & Es2 & Et2).
      rewrite E1 in E2. injection E2 as <-.
      rewrite Es1 in Es2. rewrite Et1 in Et2. injection Et2 as <-.
      by subst.
Qed.

(** X19. Errors of the live adapter, requests included.  getVisibleState
    throws an EngineAdapterError or a TypeError, the TypeError exactly when
    the engine answered ok with a body whose turn does not convert to a
    number (an object with a "toString" field of its own, or an array that
    holds one).  getActions throws EngineAdapterErrors only.  applyAction
    throws an EngineAdapterError or a TypeError, the TypeError exactly when
    the engine answered ok with a body that is null (or no value), which it
    reads a property of, or whose visible_state has a turn that does not
    convert.  A call that throws leaves the adapter as it was. *)
Theorem live_errors a fetched (request : ApplyActionRequest) :
  (forall e, (Live.getVisibleState (fetchJson fetched) a).1 = Throw e ->
             (Live.getVisibleState (fetchJson fetched) a).2 = a
             /\ ((exists message, e = EngineAdapterError message) \/ e = TypeError))
  /\ ((Live.getVisibleState (fetchJson fetched) a).1 = Throw TypeError
      <-> exists payload,
            answered fetched payload /\ converts (get payload "turn") = false)
  /\ (forall e, (Live.getActions (fetchJson fetched) a).1 = Throw e ->
                (Live.getActions (fetchJson fetched) a).2 = a
                /\ exists message, e = EngineAdapterError message)
  /\ (forall e, (Live.applyAction (fetchJson fetched) request a).1 = Throw e ->
                (Live.applyAction (fetchJson fetched) request a).2 = a
                /\ ((exists message, e = EngineAdapterError message) \/ e = TypeError))
  /\ ((Live.applyAction (fetchJson fetched) request a).1 = Throw TypeError
      <-> exists payload,
            answered fetched payload
            /\ (payload = JNull \/ payload = JUndefined
                \/ converts (get (get payload "visible_state") "turn") = false)).
Proof.
  assert (Hsan : forall input,
             (exists o, sanitizeVisibleState input = Normal o
                        /\ converts (get input "turn") = true)
             \/ (sanitizeVisibleState input = Throw TypeError
                 /\ converts (get input "turn") = false)).
  { intros input. destruct (converts (get input "turn")) eqn:Ec.
    - destruct (sanitizeVisibleState_returns input Ec) as (n & o & _ & E).
      left. by exists o.
    - right. split; [by apply sanitizeVisibleState_throws | reflexivity]. }
  destruct (fetchJson fetched) as [payload|e0] eqn:E.
  - assert (Ha : answered fetched payload).
    { destruct (fetchJson_cases fetched)
        as [(q & Hq & Eq) | [(r & _ & _ & Eq) | [(r & _ & _ & Eq)
           | (st & body & _ & Eq)]]]; congruence. }
    assert (Huniq : forall q, answered fetched q -> q = payload).
    { intros q Hq. exact (answered_inj _ _ _ Hq Ha). }
    split; [|split; [|split; [discriminate|split]]].
    + intros e. unfold Live.getVisibleState.
      destruct (Hsan payload) as [(o & -> & _) | [-> _]]; cbn; [discriminate|].
      intros [= <-]. split; [reflexivity | by right].
    + unfold Live.getVisibleState.
      destruct (Hsan payload) as [(o & -> & Hc) | [-> Hc]]; cbn.
      * split; [discriminate|]. intros (q & Hq & Hn).
        rewrite (Huniq q Hq) in Hn. congruence.
      * split; [intros _; by exists payload | reflexivity].
    + intros e. unfold Live.applyAction.
      destruct payload;
        try (cbn [fst snd]; intros [= <-]; split; [reflexivity | by right]).
      all: match goal with
           | |- context [sanitizeVisibleState ?x] =>
               destruct (Hsan x) as [(o & -> & _) | [-> _]]
           end; cbn [fst snd]; [discriminate|];
        intros [= <-]; split; [reflexivity | by right].
    + unfold Live.applyAction.
      destruct payload eqn:Ep;
        try (cbn [fst]; split; [intros _; eexists; split; [exact Ha | auto]
                               | reflexivity]).
      all: match goal with
           | |- context [sanitizeVisibleState ?x] =>
               destruct (Hsan x) as [(o & Eo & Hc) | [Eo Hc]]; rewrite Eo
           end; cbn [fst];
        [ split; [discriminate|]; intros (q & Hq & Hn);
          rewrite (Huniq q Hq) in Hn;
          destruct Hn as [Hn | [Hn | Hn]]; congruence
        | split; [intros _; eexists; split; [exact Ha | by do 2 right]
                 | reflexivity] ].
  - assert (He : exists message, e0 = EngineAdapterError message).
    { destruct (fetchJson_cases fetched)
        as [(q & _ & Eq) | [(r & _ & _ & Eq) | [(r & _ & _ & Eq)
           | (st & body & _ & Eq)]]]; rewrite Eq in E; [discriminate|..];
        injection E as <-; by eexists. }
    assert (Hno : forall q, answered fetched q -> False).
    { intros q Hq.
      destruct (fetchJson_cases fetched)
        as [(q' & _ & Eq) | [(r & Hr & _ & _) | [(r & Hr & _ & _)
           | (st & body & Hf & _)]]]; [congruence|..].
      - exact (answered_not_rejected _ _ _ Hq Hr).
      - exact (answered_not_rejected _ _ _ Hq Hr).
      - exact (answered_not_refused _ _ _ _ Hq Hf). }
    destruct He as [message ->]. cbn.
    split; [intros e [= <-]; split; [reflexivity | left; by eexists]|].
    split; [split; [discriminate | intros (q & Hq & _); destruct (Hno q Hq)]|].
    split; [intros e [= <-]; split; [reflexivity | by eexists]|].
    split; [intros e [= <-]; split; [reflexivity | left; by eexists]|].
    split; [discriminate | intros (q & Hq & _); destruct (Hno q Hq)].
Qed.

End Requests.

Ltac closed_descriptor :=
  split; [vm_compute; reflexivity | split; [by repeat constructor | simpl; lia]].

Section SanitizerOutput.

Context `{JsRuntime}.

Implicit Types (v : JsValue) (fallback : JsString) (limit : nat) (redact : bool).

Lemma clampText_take v fallback limit redact :
  tidy fallback = true -> fallback <> [] -> (length fallback <= limit)%nat ->
  (redact = true -> 28 <= limit)%nat ->
  exists full,
    tidy full = true /\ full <> []
    /\ clampText v fallback limit redact = take limit full.
Proof.
  intros Ht Hne Hl Hm.
  destruct (clampText_cases v fallback limit redact)
    as [-> | [[Hr ->] | (value & Hv & ->)]].
  - exists fallback. by rewrite take_ge.
  - exists (js "Restricted in visible state."). repeat split; [discriminate|].
    rewrite take_ge; [reflexivity|]. specialize (Hm Hr). simpl. lia.
  - exists (normalize value). split; [apply tidy_normalize | by split].
Qed.

Lemma clampText_within v fallback limit redact :
  fallback <> [] -> (length fallback <= limit)%nat ->
  (redact = true -> 28 <= limit)%nat -> (1 <= limit)%nat ->
  within limit (clampText v fallback limit redact).
Proof.
  intros Hne Hl Hm H1. split; [|by apply clampText_length].
  destruct (clampText_cases v fallback limit redact)
    as [-> | [[Hr ->] | (value & Hv & ->)]]; [exact Hne | discriminate |].
  destruct (normalize value); [done|]. destruct limit; [lia | discriminate].
Qed.

(** X22. With a fallback that is tidy, not empty and within the limit, with
    a limit of at least one unit and, where redaction is on, of at least the
    28 units of the redaction marker, [clampText] never returns the empty
    string nor more than [limit] units, and what it returns is the beginning
    of a tidy text: no white space at its start, other than single spaces
    inside, and at its end only if the cut fell right after a word.  (With
    redaction on and a limit below 28 the marker comes out whole, longer
    than the limit; the code never calls it so.) *)
Theorem clampText_output v fallback limit redact :
  tidy fallback = true -> fallback <> [] -> (length fallback <= limit)%nat ->
  (redact = true -> 28 <= limit)%nat -> (1 <= limit)%nat ->
  let out := clampText v fallback limit redact in
  out <> [] /\ (length out <= limit)%nat
  /\ (exists full, tidy full = true /\ out = take limit full)
  /\ (last out <> Some 32%N -> tidy out = true).
Proof.
  intros Ht Hne Hl Hm H1 out. subst out.
  destruct (clampText_within v fallback limit redact Hne Hl Hm H1) as [Ho Hlen].
  destruct (clampText_take v fallback limit redact Ht Hne Hl Hm) as (full & Hf & _ & E).
  split; [exact Ho|]. split; [exact Hlen|]. split; [by exists full|].
  rewrite E. by apply tidy_take.
Qed.

(** X23. With the redaction check on, a text that fits the limit after
    trimming and collapsing never comes out of [clampText] with restricted
    content: the result is the fallback, the marker, or the whole normalized
    text, which the pattern does not match. *)
Theorem clampText_unrestricted v fallback limit :
  ~ restricted_text fallback ->
  (forall value, v = JString value -> (length (normalize value) <= limit)%nat) ->
  ~ restricted_text (clampText v fallback limit true).
Proof.
  intros Hfb Hshort. destruct v; try exact Hfb. unfold clampText.
  case_bool_decide as Hn; [exact Hfb|]. cbn [andb].
  destruct (test RESTRICTED_TEXT_PATTERN (normalize s)) eqn:E.
  - by apply constant_not_restricted.
  - rewrite take_ge by (by apply Hshort). by apply constant_not_restricted.
Qed.

Lemma sanitizeDescriptor_missing v fallback :
  clampText v fallback 64 false = fallback -> descriptor_ok fallback ->
  sanitizeDescriptor v fallback = fallback.
Proof.
  intros E Hok.
  transitivity (sanitizeDescriptor (JString fallback) fallback);
    [|by apply sanitizeDescriptor_ok].
  unfold sanitizeDescriptor. rewrite E.
  destruct Hok as (Hshape & _ & Hlen).
  destruct (descriptorShape_units fallback Hshape) as [Hne Hunits].
  rewrite clampText_settled; [reflexivity | | exact Hne | exact Hlen | discriminate].
  apply tidy_solid. eapply Forall_impl; [exact Hunits|]. intros c Hc. class_props.
Qed.

(** X24. With a fallback that is itself a descriptor, [sanitizeDescriptor]
    always returns a descriptor: 1 to 64 units out of a-z, _ and -, holding
    none of "seed", "rng", "debug", "belief", "hypothesis".  The result is
    either the fallback or, for a string, its first 64 normalized units in
    lower case with each run of white space replaced by one underscore; and
    a descriptor is returned as it is. *)
Theorem sanitizeDescriptor_result v fallback :
  descriptor_ok fallback ->
  let out := sanitizeDescriptor v fallback in
  descriptor_ok out
  /\ (out = fallback
      \/ exists value,
           v = JString value
           /\ out = replaceWhiteSpace (js "_") (toLowerCase (take 64 (normalize value))))
  /\ (forall d, descriptor_ok d -> sanitizeDescriptor (JString d) fallback = d).
Proof.
  intros Hok out. subst out. split; [by apply sanitizeDescriptor_output|].
  split; [|intros d Hd; by apply sanitizeDescriptor_ok].
  destruct (clampText_cases v fallback 64 false)
    as [E | [[Hr _] | (value & Hv & E)]]; [| discriminate |].
  - left. by apply sanitizeDescriptor_missing.
  - destruct v; try (left; by apply sanitizeDescriptor_missing).
    unfold sanitizeDescriptor.
    assert (Es : clampText (JString s) fallback 64 false = fallback
                 \/ clampText (JString s) fallback 64 false = take 64 (normalize s)).
    { unfold clampText. case_bool_decide; [by left | by right]. }
    destruct Es as [Es | Es]; [left; by apply sanitizeDescriptor_missing|].
    rewrite Es.
    repeat match goal with |- context [if ?b then _ else _] => destruct b end;
      first [by left | right; by exists s].
Qed.

(** X25. [sanitizeIsoTime] always returns a time stamp in the format of
    toISOString, of a representable date; for anything that is not a string
    it is "2026-02-01T00:00:00.000Z"; and a time stamp in that format is
    returned as it is. *)
Theorem sanitizeIsoTime_reads v :
  iso_time (sanitizeIsoTime v)
  /\ ((forall text, v <> JString text) ->
      sanitizeIsoTime v = js "2026-02-01T00:00:00.000Z")
  /\ (forall tv : Z, Z.abs tv <= JsDate.maxTime ->
                     sanitizeIsoTime (JString (JsDate.isoFormat tv))
                     = JsDate.isoFormat tv).
Proof.
  split; [apply sanitizeIsoTime_valid_dates|]. split.
  - intros Hv. destruct v; try reflexivity. by destruct (Hv s).
  - intros tv Ht.
    destruct (isoFormat_shape tv Ht) as (Hlen & Hne & Hsolid).
    unfold sanitizeIsoTime.
    rewrite clampText_settled;
      [| by apply tidy_solid | exact Hne | lia | discriminate].
    rewrite bool_decide_false by exact Hne.
    by rewrite (parse_isoFormat _ tv Ht).
Qed.

Lemma get_missing (input : JsValue) (key : string) :
  Forall (fun key => get input key = JUndefined) VisibleState_keys ->
  key ∈ VisibleState_keys -> get input key = JUndefined.
Proof. intros Hall Hk. rewrite Forall_forall in Hall. by apply Hall. Qed.

(** X21. A payload that has none of the eight keys (an empty object, an
    object with other keys only, null, undefined, a number, a string, an
    array) is sanitized to the stand-in state the page shows before any
    state has arrived: case "case_001", crime type "unknown", turn 0, status
    "active", no evidence, no timeline, signals and pressure all
    "uncertain". *)
Theorem sanitizeVisibleState_defaults (input : JsValue) :
  Forall (fun key => get input key = JUndefined) VisibleState_keys ->
  sanitizeVisibleState input = Normal EMPTY_STATE.
Proof.
  intros Hall. unfold sanitizeVisibleState. cbv zeta.
  rewrite !(get_missing input _ Hall)
    by (unfold VisibleState_keys; elem_of_literal).
  cbn [arrayOrEmpty orEmptyObject imap ToNumber flooredTurn get assoc clampText].
  unfold mbind, Completion_bind, mret, Completion_ret. cbn [flooredTurn].
  unfold sanitizeStatus, sanitizePressure.
  rewrite !sanitizeDescriptor_missing by (try reflexivity; closed_descriptor).
  reflexivity.
Qed.

Lemma status_known v : sanitizeStatus v ∈ STATUS_TERMS.
Proof.
  unfold sanitizeStatus. case_bool_decide; [assumption|]. unfold STATUS_TERMS. left.
Qed.

(** X20. For any payload with arrays of fewer than 2^32 elements whose turn
    converts to a number, [sanitizeVisibleState] returns a state with: a case
    id of 1 to 40 units; a turn that is not negative; a status out of the
    five status terms; crime type, priority, demeanour and recent shift that
    are descriptors (1 to 64 units out of a-z, _ and -, with none of the five
    blocked tokens); for every evidence item an id of 1 to 32 units, a label
    of 1 to 70, a descriptor as category, one of the five evidence states and
    a summary of 1 to 220 units; for every timeline entry a time stamp in the
    format of toISOString, a label of 1 to 60 units and details of 1 to 240.
    Where the turn does not convert (an object with a "toString" field of
    its own, or an array holding one), it throws a TypeError instead. *)
Theorem sanitizeVisibleState_presentable (input : JsValue) :
  array_sized input ->
  if converts (get input "turn")
  then exists o, sanitizeVisibleState input = Normal o /\ presentable o
  else sanitizeVisibleState input = Throw TypeError.
Proof.
  intros [Hev Htl].
  destruct (converts (get input "turn")) eqn:Hc;
    [|by apply sanitizeVisibleState_throws].
  destruct (sanitizeVisibleState_returns input Hc) as (rawTurn & o & Hn & E).
  exists o. split; [exact E|].
  unfold sanitizeVisibleState in E. rewrite Hn in E.
  unfold mbind, Completion_bind, mret, Completion_ret in E. injection E as <-.
  unfold presentable.
  cbn [case_id crime_type turn status evidence timeline investigator_signals
       priority demeanour recent_shift].
  split; [apply clampText_within; first [discriminate | simpl; lia]|].
  split; [apply sanitizeDescriptor_output; closed_descriptor|].
  split; [apply flooredTurn_nonneg|].
  split; [apply status_known|].
  split; [|split].
  - apply Forall_lookup. intros index e He.
    apply list_lookup_imap_Some in He as (item & Hitem & ->).
    apply lookup_lt_Some in Hitem.
    assert (Hi : Z.of_nat index < 2 ^ 32) by lia.
    destruct (index_text (js "e") index 32) as (T1 & N1 & L1);
      [reflexivity | simpl; lia | exact Hi |].
    destruct (index_text (js "Evidence ") index 70) as (T2 & N2 & L2);
      [reflexivity | simpl; lia | exact Hi |].
    unfold sanitizeEvidence. cbv zeta. cbn [ev_id ev_label category ev_state ev_summary].
    split; [apply clampText_within; first [assumption | discriminate | lia]|].
    split; [apply clampText_within; first [assumption | discriminate | lia]|].
    split; [apply sanitizeDescriptor_output; closed_descriptor|].
    split; [case_bool_decide; [assumption | unfold EVIDENCE_STATES; elem_of_literal]|].
    apply clampText_within; first [discriminate | simpl; lia | lia].
  - apply Forall_lookup. intros index i Hi'.
    apply list_lookup_imap_Some in Hi' as (item & Hitem & ->).
    apply lookup_lt_Some in Hitem.
    assert (Hi : Z.of_nat index < 2 ^ 32) by lia.
    destruct (index_text (js "event_") index 60) as (T1 & N1 & L1);
      [reflexivity | simpl; lia | exact Hi |].
    unfold sanitizeTimeline. cbv zeta. cbn [time tl_label details].
    split; [apply sanitizeIsoTime_valid_dates|].
    split; [apply clampText_within; first [assumption | discriminate | lia]|].
    apply clampText_within; first [discriminate | simpl; lia | lia].
  - repeat split; apply sanitizeDescriptor_output; closed_descriptor.
Qed.


(** X26. The closed vocabularies: [sanitizeStatus] always returns one of
    the five status terms and returns each of them as it is;
    [sanitizePressure] reads the name of each of the ten labels back as that
    label, and returns "uncertain" unless the descriptor it was given is the
    name of the label it returns. *)
Theorem closed_vocabularies v :
  sanitizeStatus v ∈ STATUS_TERMS
  /\ (forall term, term ∈ STATUS_TERMS -> sanitizeStatus (JString term) = term)
  /\ (forall label, sanitizePressure (JString (PressureLabel_name label)) = label)
  /\ (sanitizePressure v = uncertain
      \/ sanitizeDescriptor v (js "uncertain")
         = PressureLabel_name (sanitizePressure v)).
Proof.
  split; [apply status_known|]. split; [|split].
  - intros term Ht. unfold sanitizeStatus.
    assert (Hok : descriptor_ok term).
    { unfold STATUS_TERMS in Ht.
      repeat (apply elem_of_cons in Ht as [->|Ht]; [closed_descriptor|]).
      by apply elem_of_nil in Ht. }
    rewrite (sanitizeDescriptor_ok term _ Hok). by rewrite bool_decide_true.
  - apply sanitizePressure_name.
  - unfold sanitizePressure.
    destruct (list_find _ _) as [[i l]|] eqn:E; [|by left].
    apply list_find_Some in E as (_ & E & _). by right.
Qed.

(** X27. [sanitizeActionsResponse] returns one action per element of the
    "actions" array, in order (none if it is no array).  Each is enabled
    exactly when the element's "enabled" is truthy, has a cost exactly when
    the element's "cost" is a string, and carries a disabled reason exactly
    when it is not enabled; a reason holds 1 to 120 units, a description 1 to
    200, a cost at most 20.  [sanitizeActionResult] reads success the same
    way and returns a summary of 1 to 220 units. *)
Theorem sanitizeActions_shape (input : JsValue) :
  let source := arrayOrEmpty (get input "actions") in
  let out := actions (sanitizeActionsResponse input) in
  length out = length source
  /\ (forall index item,
         source !! index = Some item ->
         exists o, out !! index = Some o
                   /\ enabled o = ToBoolean (get item "enabled")
                   /\ (cost o = None <-> forall c, get item "cost" <> JString c))
  /\ Forall (fun o => (enabled o = true <-> disabled_reason o = None)
                      /\ (forall reason, disabled_reason o = Some reason ->
                                         within 120 reason)
                      /\ within 200 (desc o)
                      /\ (forall c, cost o = Some c -> (length c <= 20)%nat)) out
  /\ (forall answer : JsValue,
         success (sanitizeActionResult answer) = ToBoolean (get answer "success")
         /\ within 220 (summary (sanitizeActionResult answer))).
Proof.
  intros source out. subst source out. unfold sanitizeActionsResponse. cbv zeta.
  cbn [actions]. split; [apply length_imap|]. split; [|split].
  - intros index item Hitem. eexists. split.
    + apply list_lookup_imap_Some. by exists item.
    + unfold sanitizeAction. cbv zeta. cbn [enabled cost]. split; [reflexivity|].
      destruct (get item "cost"); split; try done; try (intros _ c; discriminate).
      intros Hc. by destruct (Hc s).
  - apply Forall_lookup. intros index o Ho.
    apply list_lookup_imap_Some in Ho as (item & Hitem & ->).
    unfold sanitizeAction. cbv zeta. cbn [enabled disabled_reason desc cost].
    split; [destruct (ToBoolean _); split; done|].
    split.
    { destruct (ToBoolean _); [discriminate|]. intros reason [= <-].
      apply clampText_within; first [discriminate | simpl; lia | lia]. }
    split; [apply clampText_within; first [discriminate | simpl; lia | lia]|].
    destruct (get item "cost"); try discriminate. intros c [= <-].
    unfold clampText. case_bool_decide; [simpl; lia | rewrite length_take; lia].
  - intros answer. unfold sanitizeActionResult. cbv zeta.
    cbn [success summary]. split; [reflexivity|].
    apply clampText_within; first [discriminate | simpl; lia | lia].
Qed.

End SanitizerOutput.

Lemma sanitizeVisibleState_presentable_witness :
  array_sized sample_payload
  /\ (exists o, sanitizeVisibleState sample_payload = Normal o /\ presentable o)
  /\ array_sized opaque_turn
  /\ sanitizeVisibleState opaque_turn = Throw TypeError.
Proof.
  assert (Hsize : array_sized sample_payload) by (split; reflexivity).
  assert (Hsize' : array_sized opaque_turn) by (split; reflexivity).
  split; [exact Hsize|].
  split; [exact (sanitizeVisibleState_presentable sample_payload Hsize)|].
  split; [exact Hsize'|].
  exact (sanitizeVisibleState_presentable opaque_turn Hsize').
Defined.

Lemma sanitizeVisibleState_defaults_witness :
  let input := JObject [ (js "seed", JNumber (Finite 42 0)) ] in
  Forall (fun key => get input key = JUndefined) VisibleState_keys
  /\ sanitizeVisibleState input = Normal EMPTY_STATE
  /\ sanitizeVisibleState JNull = Normal EMPTY_STATE.
Proof.
  intros input.
  assert (Hin : Forall (fun key => get input key = JUndefined) VisibleState_keys)
    by (repeat constructor).
  split; [exact Hin|]. split; [exact (sanitizeVisibleState_defaults input Hin)|].
  apply sanitizeVisibleState_defaults. repeat constructor.
Defined.

Lemma clampText_output_witness :
  let out := clampText (JString (js "  Station   Ledger ")) (js "Evidence") 9 false in
  out = js "Station L" /\ out <> [] /\ (length out <= 9)%nat.
Proof.
  intros out. split; [vm_compute; reflexivity|].
  destruct (clampText_output (JString (js "  Station   Ledger "))
              (js "Evidence") 9 false) as (Hne & Hlen & _);
    [reflexivity | discriminate | simpl; lia | discriminate | lia |].
  by split.
Defined.

Lemma clampText_unrestricted_witness :
  let v := JString (js "Seedling trays, 40 % shade") in
  ~ restricted_text (js "No summary available.")
  /\ ~ restricted_text (clampText v (js "No summary available.") 220 true).
Proof.
  intros v.
  assert (Hfb : ~ restricted_text (js "No summary available."))
    by (by apply constant_not_restricted).
  split; [exact Hfb|].
  apply (clampText_unrestricted v (js "No summary available.") 220 Hfb).
  intros value [= <-]. vm_compute. lia.
Defined.

Lemma sanitizeDescriptor_result_witness :
  descriptor_ok (js "general")
  /\ sanitizeDescriptor (JString (js " Witness  Call ")) (js "general")
     = js "witness_call"
  /\ descriptor_ok (sanitizeDescriptor (JString (js " Witness  Call ")) (js "general")).
Proof.
  assert (Hok : descriptor_ok (js "general")) by closed_descriptor.
  split; [exact Hok|]. split; [vm_compute; reflexivity|].
  exact (proj1 (sanitizeDescriptor_result (JString (js " Witness  Call "))
                  (js "general") Hok)).
Defined.


Section Display.

Lemma isWordChar_upper (c : N) : isWordChar (ascii_upper c) = isWordChar c.
Proof.
  unfold ascii_upper. destruct (in_range 97 122 c) eqn:E; [|reflexivity].
  assert (Eu : in_range 65 90 (c - 32) = true).
  { unfold in_range in *. apply andb_true_iff in E as [E1 E2].
    apply N.leb_le in E1, E2. apply andb_true_iff. split; apply N.leb_le; lia. }
  unfold isWordChar. rewrite E, Eu, orb_true_r. reflexivity.
Qed.

Lemma ascii_upper_twice (c : N) : ascii_upper (ascii_upper c) = ascii_upper c.
Proof.
  unfold ascii_upper. destruct (in_range 97 122 c) eqn:E; [|by rewrite E].
  assert (Eu : in_range 97 122 (c - 32) = false).
  { unfold in_range in *. apply andb_true_iff in E as [E1 E2].
    apply N.leb_le in E1, E2. apply andb_false_iff. left. apply N.leb_gt. lia. }
  by rewrite Eu.
Qed.

Lemma capitalizeWords_length (prev : option N) (s : JsString) :
  length (capitalizeWords prev s) = length s.
Proof. revert prev. induction s as [|c s IH]; intros prev; cbn; [done | by rewrite IH]. Qed.

Lemma capitalizeWords_twice (prev prev' : option N) (s : JsString) :
  isWordAt prev' = isWordAt prev ->
  capitalizeWords prev' (capitalizeWords prev s) = capitalizeWords prev s.
Proof.
  revert prev prev'. induction s as [|c s IH]; intros prev prev' Hp; cbn; [done|].
  rewrite Hp. f_equal.
  - destruct (isWordChar c && negb (isWordAt prev)) eqn:E.
    + rewrite isWordChar_upper, E. apply ascii_upper_twice.
    + by rewrite E.
  - apply IH. cbn. destruct (isWordChar c && negb (isWordAt prev));
      [apply isWordChar_upper | reflexivity].
Qed.

Lemma capitalizeWords_keeps (P : N -> Prop) (prev : option N) (s : JsString) :
  (forall c, P c -> P (ascii_upper c)) ->
  Forall P s -> Forall P (capitalizeWords prev s).
Proof.
  intros Hup Hs. revert prev. induction Hs as [|c s Hc Hs IH]; intros prev; cbn;
    constructor; [|apply IH].
  destruct (isWordChar c && _); [by apply Hup | exact Hc].
Qed.

(** X28. [formatToken] keeps the length of the token, leaves no underscore
    in it, and formatting a formatted token changes nothing. *)
Theorem formatToken_display (value : JsString) :
  length (formatToken value) = length value
  /\ (95%N ∉ formatToken value)
  /\ formatToken (formatToken value) = formatToken value.
Proof.
  assert (Hno : Forall (fun c => c <> 95%N) (formatToken value)).
  { unfold formatToken. apply capitalizeWords_keeps.
    - intros c Hc. unfold ascii_upper. destruct (in_range 97 122 c) eqn:E; [|exact Hc].
      unfold in_range in E. apply andb_true_iff in E as [E1 E2].
      apply N.leb_le in E1, E2. lia.
    - apply Forall_fmap, Forall_forall. intros c _. cbn.
      destruct (N.eqb_spec c 95); [discriminate | assumption]. }
  split; [|split].
  - unfold formatToken. by rewrite capitalizeWords_length, length_fmap.
  - intros Hin. rewrite Forall_forall in Hno. by apply (Hno _ Hin).
  - unfold formatToken at 1.
    assert (Eid : (fun c : N => if (c =? 95)%N then 32%N else c) <$> formatToken value
                  = formatToken value).
    { rewrite <- (list_fmap_id (formatToken value)) at 2.
      apply Forall_fmap_ext_1. eapply Forall_impl; [exact Hno|].
      intros c Hc. cbn. by destruct (N.eqb_spec c 95). }
    rewrite Eid. unfold formatToken. by apply capitalizeWords_twice.
Qed.

End Display.

Section RestrictedPattern.

(** X29. What [RESTRICTED_TEXT_PATTERN] matches, as the backtracking matcher
    of the language runs it: a text matches exactly when it holds one of the
    ten restricted words in any mix of upper and lower case, with no word
    unit (letter, digit, underscore) right before or right after it, or a
    run of digits, optionally followed by a point and more digits, followed
    by a per cent sign. *)
Theorem restricted_pattern_meaning (text : JsString) :
  (test RESTRICTED_TEXT_PATTERN text = true
   <-> holds_token text \/ holds_percentage text)
  /\ (test RESTRICTED_TEXT_PATTERN text = false <-> ~ restricted_text text).
Proof.
  split; [apply test_restricted_text|]. split.
  - apply constant_not_restricted.
  - apply not_restricted_test.
Qed.

End RestrictedPattern.

Ltac clean_closed :=
  split; [vm_compute; reflexivity
         | split; [discriminate
                  | split; [vm_compute; lia
                           | first [discriminate
                                   | intros _; apply constant_not_restricted;
                                     vm_compute; reflexivity]]]].

Section CleanStates.

Context `{JsRuntime}.

Lemma clampText_clean (t fallback : JsString) (limit : nat) (redact : bool) :
  clean_text limit redact t -> clampText (JString t) fallback limit redact = t.
Proof. intros (Ht & Hne & Hl & Hr). by apply clampText_settled. Qed.

Lemma sanitizeIsoTime_iso (t : JsString) :
  iso_time t -> sanitizeIsoTime (JString t) = t.
Proof.
  intros (tv & Ht & ->).
  destruct (isoFormat_shape tv Ht) as (Hlen & Hne & Hsolid).
  unfold sanitizeIsoTime.
  rewrite clampText_settled;
    [| by apply tidy_solid | exact Hne | lia | discriminate].
  rewrite bool_decide_false by exact Hne.
  by rewrite (parse_isoFormat _ tv Ht).
Qed.

Lemma sanitizeStatus_term (t : JsString) :
  t ∈ STATUS_TERMS -> sanitizeStatus (JString t) = t.
Proof.
  intros Ht. unfold sanitizeStatus.
  assert (Hok : descriptor_ok t).
  { unfold STATUS_TERMS in Ht.
    repeat (apply elem_of_cons in Ht as [->|Ht]; [closed_descriptor|]).
    by apply elem_of_nil in Ht. }
  rewrite (sanitizeDescriptor_ok t _ Hok). by rewrite bool_decide_true.
Qed.

Lemma evidence_state_known (t : JsString) :
  t ∈ EVIDENCE_STATES ->
  (if bool_decide (sanitizeDescriptor (JString t) (js "logged") ∈ EVIDENCE_STATES)
   then sanitizeDescriptor (JString t) (js "logged") else js "logged") = t.
Proof.
  intros Ht.
  assert (Hok : descriptor_ok t).
  { unfold EVIDENCE_STATES in Ht.
    repeat (apply elem_of_cons in Ht as [->|Ht]; [closed_descriptor|]).
    by apply elem_of_nil in Ht. }
  rewrite (sanitizeDescriptor_ok t _ Hok). by rewrite bool_decide_true.
Qed.

(** A clean state goes through the sanitizer unchanged. *)
Lemma clean_fixed (o : VisibleState) :
  clean o -> sanitizeVisibleState (VisibleState_toJs o) = Normal o.
Proof.
  intros (Hcase & Hcrime & Hturn & Hstatus & Hev & Htl & Hp & Hd & Hr).
  destruct (get_VisibleState o) as (G1 & G2 & G3 & G4 & G5 & G6 & G7 & G8).
  unfold sanitizeVisibleState.
  rewrite G1, G2, G3, G4, G5, G6, G7, G8. clear G1 G2 G3 G4 G5 G6 G7 G8.
  cbn [ToNumber]. unfold mbind, Completion_bind, mret, Completion_ret.
  destruct (get_signals (investigator_signals o)) as (S1 & S2 & S3).
  destruct (get_pressure (pressure o)) as (P1 & P2 & P3).
  cbv zeta in S1, S2, S3, P1, P2, P3.
  rewrite S1, S2, S3, P1, P2, P3. clear S1 S2 S3 P1 P2 P3.
  cbn [arrayOrEmpty].
  rewrite (clampText_clean _ _ _ _ Hcase), !sanitizeDescriptor_ok by assumption.
  rewrite (sanitizeStatus_term _ Hstatus), !sanitizePressure_name.
  assert (Et : flooredTurn (Finite (turn o) 0) = turn o).
  { simpl. rewrite (proj2 (Z.leb_le _ _) Hturn). apply Z.shiftl_0_r. }
  rewrite Et.
  assert (Ee : imap (fun index item => sanitizeEvidence item index)
                 (EvidenceItem_toJs <$> evidence o) = evidence o).
  { apply list_eq. intros i. rewrite list_lookup_imap, list_lookup_fmap.
    destruct (evidence o !! i) as [e|] eqn:E; [|reflexivity].
    cbn [fmap option_fmap option_map]. f_equal.
    rewrite Forall_lookup in Hev.
    destruct (Hev i e E) as (H1 & H2 & H3 & H4 & H5).
    destruct (get_EvidenceItem e) as (G1 & G2 & G3 & G4 & G5).
    unfold sanitizeEvidence. cbv zeta. rewrite G1, G2, G3, G4, G5.
    rewrite !clampText_clean by assumption.
    rewrite (sanitizeDescriptor_ok _ _ H3), (evidence_state_known _ H4).
    by destruct e. }
  assert (El : imap (fun index item => sanitizeTimeline item index)
                 (TimelineItem_toJs <$> timeline o) = timeline o).
  { apply list_eq. intros i. rewrite list_lookup_imap, list_lookup_fmap.
    destruct (timeline o !! i) as [e|] eqn:E; [|reflexivity].
    cbn [fmap option_fmap option_map]. f_equal.
    rewrite Forall_lookup in Htl.
    destruct (Htl i e E) as (H1 & H2 & H3).
    destruct (get_TimelineItem e) as (G1 & G2 & G3).
    unfold sanitizeTimeline. cbv zeta. rewrite G1, G2, G3.
    rewrite !clampText_clean by assumption.
    rewrite (sanitizeIsoTime_iso _ H1).
    by destruct e. }
  rewrite Ee, El.
  destruct o as [? ? ? ? ? ? [? ? ?] [? ? ?]]. reflexivity.
Qed.

End CleanStates.

Section MockThroughSanitizer.

Implicit Types (s : VisibleState).

Lemma String_ofZ_solid (n : Z) :
  -1000 < n < 1000 ->
  Forall (fun c => isWhiteSpace c = false) (String_ofZ n)
  /\ (1 <= length (String_ofZ n) <= 4)%nat.
Proof.
  intros Hn.
  assert (Hdec : forall fuel m, 0 <= m < 1000 ->
             Forall (fun c => isWhiteSpace c = false) (decimal (S fuel) m)
             /\ (1 <= length (decimal (S fuel) m) <= 3)%nat).
  { intros fuel m Hm. split.
    - eapply Forall_impl; [apply decimal_digits|]. intros c Hc. class_props.
    - split; [cbn [decimal]; rewrite length_app; simpl; lia|].
      apply decimal_length; [|lia]. change (10 ^ Z.of_nat 3) with 1000. lia. }
  unfold String_ofZ. destruct (Z.ltb_spec n 0).
  - destruct (Hdec (Z.to_nat (Z.log2 (- n))) (- n)) as [Hs Hl]; [lia|].
    split; [constructor; [reflexivity | exact Hs] | cbn [length]; lia].
  - destruct (Hdec (Z.to_nat (Z.log2 n)) n) as [Hs Hl]; [lia|].
    split; [exact Hs | lia].
Qed.

Lemma case_id_clean (seed : Z) :
  clean_text 40 false
    (js "case_" ++ padStart (String_ofZ (Z.rem seed 900 + 100)) 3 48%N).
Proof.
  assert (Hn : -1000 < Z.rem seed 900 + 100 < 1000).
  { pose proof (Z.rem_bound_abs seed 900 ltac:(lia)) as Hb.
    change (Z.abs 900) with 900 in Hb. revert Hb.
    generalize (Z.rem seed 900). intros q Hb. lia. }
  destruct (String_ofZ_solid _ Hn) as [Hs Hl].
  set (t := String_ofZ (Z.rem seed 900 + 100)) in *.
  assert (Hsolid : Forall (fun c => isWhiteSpace c = false)
                     (js "case_" ++ padStart t 3 48%N)).
  { apply Forall_app. split; [by repeat constructor|].
    unfold padStart. apply Forall_app. split; [|exact Hs].
    apply Forall_replicate. reflexivity. }
  split; [by apply tidy_solid|]. split; [discriminate|]. split; [|discriminate].
  unfold padStart. rewrite !length_app, length_replicate. simpl. lia.
Qed.

Lemma initial_clean (seed : Z) : clean (createInitialMockState seed).
Proof.
  unfold clean, createInitialMockState, mbind, Rng_bind, mret, Rng_ret. cbv zeta.
  draw_all. cbn [fst case_id crime_type turn status evidence timeline
                 investigator_signals priority demeanour recent_shift].
  split; [apply case_id_clean|].
  split.
  { repeat (apply elem_of_cons in Hp as [-> | Hp]); [..| by apply elem_of_nil in Hp];
      closed_descriptor. }
  split; [lia|]. split; [unfold STATUS_TERMS; elem_of_literal|].
  split.
  { repeat (apply Forall_cons; split); [..| by apply Forall_nil];
      cbn [ev_id ev_label category ev_state ev_summary];
      (split; [clean_closed|]); (split; [clean_closed|]);
      (split; [closed_descriptor|]);
      (split; [|clean_closed]); unfold EVIDENCE_STATES;
      try match goal with |- context [if ?b then _ else _] => destruct b end;
      elem_of_literal. }
  split.
  { repeat (apply Forall_cons; split); [..| by apply Forall_nil];
      cbn [time tl_label details];
      (split; [|split; clean_closed]).
    - exists 1769978400000. split; [unfold JsDate.maxTime; lia | vm_compute; reflexivity].
    - exists 1769980500000. split; [unfold JsDate.maxTime; lia | vm_compute; reflexivity].
    - exists 1769983200000. split; [unfold JsDate.maxTime; lia | vm_compute; reflexivity]. }
  repeat split;
    match goal with
    | H : ?x ∈ _ |- context [?x] =>
        repeat (apply elem_of_cons in H as [-> | H]); [..| by apply elem_of_nil in H]
    end; first [vm_compute; reflexivity | by repeat constructor | simpl; lia].
Qed.


Lemma appendTimeline_valid s (label details : JsString) tl :
  appendTimeline s label details = Normal tl ->
  Z.abs (eventTime_ms (turn s)) <= JsDate.maxTime.
Proof.
  unfold appendTimeline. rewrite UTC_eventTime. unfold JsDate.TimeClip.
  destruct (Z.leb_spec (Z.abs (eventTime_ms (turn s))) JsDate.maxTime);
    [done | discriminate].
Qed.

Lemma Forall_slice_last_snoc {A} (P : A -> Prop) (l : list A) (x : A) :
  Forall P l -> P x -> Forall P (slice_last 12 (l ++ [x])).
Proof.
  intros Hl Hx. unfold slice_last. apply Forall_drop, Forall_app.
  split; [exact Hl | by constructor].
Qed.

Lemma applyMockAction_clean s (actionId : JsString) r :
  clean s -> applyMockAction s actionId = Normal r -> clean (visible_state r).
Proof.
  intros Hc. destruct (guard_fails_dec s actionId) as [G | G].
  { rewrite (applyMockAction_guard_fails s actionId G). by intros [= <-]. }
  assert (Hin : actionId ∈ catalogue).
  { destruct (decide (actionId ∈ catalogue)) as [?|N]; [done|].
    exfalso. apply G. by do 3 right. }
  clear G.
  destruct Hc as (Hcase & Hcrime & Hturn & Hstatus & Hev & Htl & Hp & Hd & Hr).
  assert (Hentry : forall tl next (lbl dts : JsString),
             appendTimeline next lbl dts = Normal tl ->
             turn next = turn s + 1 -> timeline next = timeline s ->
             clean_text 60 false lbl -> clean_text 240 true dts ->
             Forall (fun i => iso_time (time i) /\ clean_text 60 false (tl_label i)
                              /\ clean_text 240 true (details i)) tl).
  { intros tl next lbl dts Et Hn Hnl Hlabel Hdetails.
    pose proof (appendTimeline_valid _ _ _ _ Et) as Hv.
    apply appendTimeline_Normal in Et as ->. rewrite Hnl.
    apply Forall_slice_last_snoc; [exact Htl|].
    cbn [timeline_entry time tl_label details].
    split; [by eexists | by split]. }
  assert (Hitem : forall i e (st su : JsString),
             evidence s !! i = Some e -> st ∈ EVIDENCE_STATES ->
             clean_text 220 true su ->
             Forall (fun e => clean_text 32 false (ev_id e)
                              /\ clean_text 70 false (ev_label e)
                              /\ descriptor_ok (category e)
                              /\ ev_state e ∈ EVIDENCE_STATES
                              /\ clean_text 220 true (ev_summary e))
                    (<[i := rewritten e st su]> (evidence s))).
  { intros i e st su Hi Hst Hsu. apply Forall_insert; [exact Hev|].
    rewrite Forall_lookup in Hev. destruct (Hev i e Hi) as (H1 & H2 & H3 & _).
    cbn [rewritten ev_id ev_label category ev_state ev_summary].
    split; [exact H1|]. split; [exact H2|]. split; [exact H3|].
    split; [exact Hst | exact Hsu]. }
  unfold catalogue in Hin.
  repeat (apply elem_of_cons in Hin as [-> | Hin]); [..| by apply elem_of_nil in Hin].
  - unfold applyMockAction. rewrite decide_True by reflexivity.
    destruct (findIndex_state _ _) as [[i e]|] eqn:Ei; [|by intros [= <-]].
    apply findIndex_state_Some in Ei as (Hi & He & _).
    cbv zeta. destruct (appendTimeline _ _ _) as [tl|] eqn:Et; [|discriminate].
    intros [= <-]. unfold clean.
    cbn [visible_state set_timeline set_pressure set_evidence set_turn case_id
         crime_type turn status evidence timeline investigator_signals].
    do 2 (split; [assumption|]). split; [lia|]. split; [assumption|].
    split; [|split; [|split; [exact Hp | split; [exact Hd | exact Hr]]]].
    + apply (Hitem i e (js "suppressed")
               (js "Access restricted pending compliance review.") Hi);
        [unfold EVIDENCE_STATES; elem_of_literal | clean_closed].
    + apply (Hentry _ _ _ _ Et); [reflexivity | reflexivity | clean_closed ..].
  - unfold applyMockAction. rewrite decide_False by (vm_compute; discriminate).
    rewrite decide_True by reflexivity.
    destruct (decide (public (pressure s) = critical)) as [Hcr|Hcr]; [by intros [= <-]|].
    cbv zeta. destruct (appendTimeline _ _ _) as [tl|] eqn:Et; [|discriminate].
    intros [= <-]. unfold clean.
    cbn [visible_state set_timeline set_pressure set_evidence set_turn case_id
         crime_type turn status evidence timeline investigator_signals].
    do 2 (split; [assumption|]). split; [lia|]. split; [assumption|].
    split; [assumption|]. split; [|split; [exact Hp | split; [exact Hd | exact Hr]]].
    apply (Hentry _ _ _ _ Et); [reflexivity | reflexivity | clean_closed ..].
  - unfold applyMockAction. do 2 rewrite decide_False by (vm_compute; discriminate).
    rewrite decide_True by reflexivity.
    cbv zeta. rewrite next_index.
    destruct (appendTimeline _ _ _) as [tl|] eqn:Et; [|discriminate].
    intros [= <-]. unfold clean.
    cbn [visible_state set_timeline set_investigator_signals set_turn case_id
         crime_type turn status evidence timeline investigator_signals
         priority demeanour recent_shift].
    do 2 (split; [assumption|]). split; [lia|]. split; [assumption|].
    split; [assumption|].
    pose proof (next_priority_known (priority (investigator_signals s))) as Hn.
    revert Et Hn. generalize (next_priority (priority (investigator_signals s))).
    intros chosen Et Hn.
    assert (Hchosen : descriptor_ok chosen
                      /\ clean_text 240 true
                           (js "Investigator priority shifted to " ++ chosen ++ js ".")).
    { unfold priorities in Hn.
      repeat (apply elem_of_cons in Hn as [-> | Hn]); [..| by apply elem_of_nil in Hn];
        (split; [closed_descriptor | clean_closed]). }
    destruct Hchosen as [Hok Hdetails].
    split; [|split; [exact Hok | split; [exact Hd | closed_descriptor]]].
    apply (Hentry _ _ _ _ Et); [reflexivity | reflexivity | clean_closed | exact Hdetails].
  - unfold applyMockAction. do 3 rewrite decide_False by (vm_compute; discriminate).
    rewrite decide_True by reflexivity.
    destruct (findIndex_state _ _) as [[i e]|] eqn:Ei; [|by intros [= <-]].
    apply findIndex_state_Some in Ei as (Hi & He & _).
    cbv zeta. destruct (appendTimeline _ _ _) as [tl|] eqn:Et; [|discriminate].
    intros [= <-]. unfold clean.
    cbn [visible_state set_timeline set_pressure set_evidence set_turn case_id
         crime_type turn status evidence timeline investigator_signals].
    do 2 (split; [assumption|]). split; [lia|]. split; [assumption|].
    split; [|split; [|split; [exact Hp | split; [exact Hd | exact Hr]]]].
    + apply (Hitem i e (js "archived") (js "Record sealed in archive.") Hi);
        [unfold EVIDENCE_STATES; elem_of_literal | clean_closed].
    + apply (Hentry _ _ _ _ Et); [reflexivity | reflexivity | clean_closed ..].
Qed.

End MockThroughSanitizer.

Section MockAndSanitizer.

Context `{JsRuntime}.

(** X30. Every state a mock adapter can be in goes through the sanitizer of
    the live adapter unchanged: whatever the seed and whatever calls were
    made, sanitizing the working state, sent as the engine would send it,
    returns that very state. *)
Theorem mock_states_pass_sanitizer (seed : Z) (history : list Call) :
  let s := mock_state (after (createMockAdapter seed) history) in
  sanitizeVisibleState (VisibleState_toJs s) = Normal s.
Proof.
  intros s. apply clean_fixed. subst s.
  apply (mock_invariant clean).
  - intros s actionId r. apply applyMockAction_clean.
  - apply initial_clean.
  - constructor.
Qed.

End MockAndSanitizer.
